(** * Stitch-Up: the image-to-video job poller, its stage orchestrator and
      the scene records exchanged between stages

    A shallow embedding of
    - [pkg/4_videoconversion/converter.go] ([Convert],
      [generateVideoWithRunway], [encodeImageToBase64], [pollForVideo],
      [downloadVideo], [createPlaceholderVideos], [createPlaceholderVideo]),
    - the result-location lookup of [scripts/video-converter.js]
      ([processImage]),
    - [pkg/2_scenegeneration] ([generateSceneID], [SaveScenesToFile]),
      [cmd/image-creator] ([loadScenesFromFile]) and the [common.Scene]
      record with its JSON tags.

    Go strings and byte slices are byte sequences: they are modelled as
    [string] (a list of 8-bit [ascii]).  Effects (file system, HTTP client,
    sleeping, fresh UUIDs) are threaded through an explicit [World]; every
    effectful Go function becomes a function [World -> result * World]. *)

From Stdlib Require Import ZArith NArith Ascii String List Bool Lia.
From stdpp Require Import gmap strings list pretty.

Local Open Scope string_scope.
Local Open Scope list_scope.
#[local] Set Warnings "-register-all".

(** ** Go's [strings] and [path/filepath] functions used by the code *)

Module Strings.

(** [strings.HasSuffix]: [len(s) >= len(suffix) && s[len(s)-len(suffix):] == suffix]. *)
Definition HasSuffix (s suffix : string) : bool :=
  (String.length suffix <=? String.length s)%nat &&
  String.eqb
    (substring (String.length s - String.length suffix)
               (String.length suffix) s)
    suffix.

(** [strings.TrimSuffix]: [s[:len(s)-len(suffix)]] when [s] ends with
    [suffix], else [s]. *)
Definition TrimSuffix (s suffix : string) : string :=
  if HasSuffix s suffix
  then substring 0 (String.length s - String.length suffix) s
  else s.

(** [strings.ReplaceAll s old new] for a one-byte [old], the only form
    the code calls. *)
Fixpoint ReplaceAll1 (s : string) (old : ascii) (new : string) : string :=
  match s with
  | EmptyString => EmptyString
  | String ch rest =>
      if Ascii.eqb ch old
      then new +:+ ReplaceAll1 rest old new
      else String ch (ReplaceAll1 rest old new)
  end.

(** Lower-casing of the ASCII letters (what [strings.ToLower] does on
    ASCII text); used only to state what the specification words say. *)
Definition lowerByte (ch : ascii) : ascii :=
  let n := N_of_ascii ch in
  if ((65 <=? n) && (n <=? 90))%N then ascii_of_N (n + 32) else ch.

Fixpoint ToLower (s : string) : string :=
  match s with
  | EmptyString => EmptyString
  | String ch rest => String (lowerByte ch) (ToLower rest)
  end.

Fixpoint mapBytes (f : ascii -> ascii) (s : string) : string :=
  match s with
  | EmptyString => EmptyString
  | String ch rest => String (f ch) (mapBytes f rest)
  end.

End Strings.

Module Filepath.

(** [filepath.Ext] (Unix): scan from the end of [path] until a path
    separator; the extension starts at the first dot met.
    [Ext_loop path i] is the Go loop with loop variable [i - 1]. *)
Fixpoint Ext_loop (path : string) (i : nat) : string :=
  match i with
  | O => ""
  | S i' =>
      match String.get i' path with
      | Some ch =>
          if Ascii.eqb ch "/" then ""
          else if Ascii.eqb ch "."
               then substring i' (String.length path - i') path
               else Ext_loop path i'
      | None => ""
      end
  end.

Definition Ext (path : string) : string :=
  Ext_loop path (String.length path).

End Filepath.

(** ** UTF-8 validity, as [unicode/utf8] decides it

    [encoding/json] writes a Go string as a JSON string "coerced to valid
    UTF-8, replacing invalid bytes with the Unicode replacement rune"
    (U+FFFD, bytes EF BF BD).  [tailLen] recognises the well-formed UTF-8
    sequence that starts a string, if there is one (where [DecodeRune]
    does not answer [RuneError] with size 1). *)

Module Utf8.

Definition byteIn (lo hi : N) (ch : ascii) : bool :=
  let n := N_of_ascii ch in ((lo <=? n) && (n <=? hi))%N.

Definition cont (ch : ascii) : bool := byteIn 128 191 ch.

(** Number of continuation bytes that follow a well-formed lead byte
    [b0] at the head of [b0 :: rest]; [None] when the sequence is
    ill-formed (overlong forms, surrogates and values above U+10FFFF
    included) or truncated. *)
Definition tailLen (b0 : ascii) (rest : string) : option nat :=
  let n := N_of_ascii b0 in
  if (n <? 128)%N then Some 0%nat
  else if byteIn 194 223 b0 then
    match rest with
    | String b1 _ => if cont b1 then Some 1%nat else None
    | _ => None
    end
  else if byteIn 224 239 b0 then
    match rest with
    | String b1 (String b2 _) =>
        let lo := if (n =? 224)%N then 160%N else 128%N in
        let hi := if (n =? 237)%N then 159%N else 191%N in
        if byteIn lo hi b1 && cont b2 then Some 2%nat else None
    | _ => None
    end
  else if byteIn 240 244 b0 then
    match rest with
    | String b1 (String b2 (String b3 _)) =>
        let lo := if (n =? 240)%N then 144%N else 128%N in
        let hi := if (n =? 244)%N then 143%N else 191%N in
        if byteIn lo hi b1 && cont b2 && cont b3 then Some 3%nat else None
    | _ => None
    end
  else None.

(** U+FFFD in UTF-8. *)
Definition replacement : string :=
  String (ascii_of_N 239) (String (ascii_of_N 191) (String (ascii_of_N 189) "")).

(** [pending] counts the continuation bytes of a sequence already
    recognised as well formed. *)
Fixpoint validFrom (pending : nat) (s : string) : bool :=
  match s with
  | EmptyString => true
  | String ch rest =>
      match pending with
      | S p => validFrom p rest
      | O =>
          match tailLen ch rest with
          | Some k => validFrom k rest
          | None => false
          end
      end
  end.

(** [utf8.ValidString]. *)
Definition ValidString (s : string) : bool := validFrom 0 s.

Fixpoint coerceFrom (pending : nat) (s : string) : string :=
  match s with
  | EmptyString => EmptyString
  | String ch rest =>
      match pending with
      | S p => String ch (coerceFrom p rest)
      | O =>
          match tailLen ch rest with
          | Some k => String ch (coerceFrom k rest)
          | None => replacement +:+ coerceFrom 0 rest
          end
      end
  end.

(** The text a Go string has after [encoding/json] wrote it: each byte
    that does not belong to a well-formed sequence becomes U+FFFD. *)
Definition coerce (s : string) : string := coerceFrom 0 s.

End Utf8.

(** ** JSON documents

    What [encoding/json] reads from, and writes to, a JSON text.  Object
    members are kept in document order; a number is the decimal
    [mantissa * 10 ^ exponent] of its literal. *)

Inductive JSON : Type :=
| JNull
| JBool (b : bool)
| JNumber (mantissa exponent : Z)
| JString (s : string)
| JArray (items : list JSON)
| JObject (members : list (string * JSON)).

(** A Go [map[string]interface{}] filled by [json.Unmarshal]. *)
Abbreviation GoMap := (list (string * JSON)).

Module Json.

(** [m[key]] on the decoded map: of two members with the same key the
    later one has overwritten the earlier one. *)
Fixpoint index (m : GoMap) (key : string) : option JSON :=
  match m with
  | [] => None
  | (k, v) :: rest =>
      match index rest key with
      | Some v' => Some v'
      | None => if String.eqb k key then Some v else None
      end
  end.

(** [json.Unmarshal(body, &responseData)] on a parsed document, with
    [responseData] a nil [map[string]interface{}]: an object fills the
    map, [null] leaves it nil (every lookup then misses), anything else
    is an [UnmarshalTypeError]. *)
Definition toMap (doc : JSON) : option GoMap :=
  match doc with
  | JObject members => Some members
  | JNull => Some []
  | _ => None
  end.

(** The type assertion [m[key].(string)]. *)
Definition getString (m : GoMap) (key : string) : option string :=
  match index m key with
  | Some (JString s) => Some s
  | _ => None
  end.

(** The type assertion [m[key].(map[string]interface{})]. *)
Definition getMap (m : GoMap) (key : string) : option GoMap :=
  match index m key with
  | Some (JObject members) => Some members
  | _ => None
  end.

End Json.

(** ** Errors

    [fmt.Errorf] keeps its format and arguments, so that an error is
    compared without formatting maps; [%w]/[%v] of an error is [ArgW].
    [LibError] is an error returned by a library call ([os], [net/http],
    [io], [encoding/json]). *)

Inductive error : Type :=
| Errorf (format : string) (args : list fmtArg)
| LibError (origin : string)
with fmtArg : Type :=
| ArgS (s : string)
| ArgD (n : Z)
| ArgV (m : GoMap)
| ArgW (e : error).

Inductive Result (A : Type) : Type :=
| Ok (a : A)
| Err (e : error).
Arguments Ok {A} a.
Arguments Err {A} e.

(** The error kinds of the specification, as the code spells them. *)
Definition NoArtifactsProduced : error := Errorf "no videos created" [].
Definition PollTimeout : error :=
  Errorf "timed out waiting for video generation" [].
Definition GenerationFailed (message : string) : error :=
  Errorf "video generation failed: %s" [ArgS message].
Definition MissingResultLocation (responseData : GoMap) : error :=
  Errorf "no video URL in response: %v" [ArgV responseData].
Definition MissingJobIdentifier (responseData : GoMap) : error :=
  Errorf "no job ID in response: %v" [ArgV responseData].

(** ** The world: file system, HTTP peer, clock and UUID source *)

Inductive FsOp : Type :=
| OpReadFile (path : string)
| OpMkdirAll (path : string)
| OpWriteFile (path : string)
| OpCreate (path : string)
| OpWriteString (path : string).

Record Request : Type := {
  Method : string;
  URL : string;
  Header : list (string * string);
  ReqBody : option string
}.

(** [Body = None]: reading the body ([io.ReadAll]) fails. *)
Record Response : Type := {
  StatusCode : Z;
  Body : option string
}.

Inductive Event : Type :=
| EvDo (req : Request)      (* client.Do(req): one network round trip *)
| EvSleep (d : Z)           (* time.Sleep(d), d in nanoseconds *)
| EvFs (op : FsOp).         (* a file-system call *)

(** [fsFault op]: the operating system refuses [op] (permissions, full
    disk, ...).  [net n req]: what the [n]-th round trip of the run
    answers to [req]; [None] is a transport error, a cancelled or expired
    context included.  [uuids n]: the text of the [n]-th UUID drawn. *)
Record World : Type := {
  files : gmap string string;
  fsFault : FsOp -> bool;
  net : nat -> Request -> option Response;
  uuids : nat -> string;
  nreq : nat;
  nuuid : nat;
  trace : list Event
}.

Definition emit (e : Event) (w : World) : World :=
  {| files := files w; fsFault := fsFault w; net := net w; uuids := uuids w;
     nreq := nreq w; nuuid := nuuid w; trace := trace w ++ [e] |}.

Definition setFile (path data : string) (w : World) : World :=
  {| files := <[path := data]> (files w); fsFault := fsFault w; net := net w;
     uuids := uuids w; nreq := nreq w; nuuid := nuuid w; trace := trace w |}.

Definition IO (A : Type) : Type := World -> Result A * World.

Definition Second : Z := 1000000000.
Definition Millisecond : Z := 1000000.

Definition StatusOK : Z := 200.
Definition StatusAccepted : Z := 202.
Definition StatusNotFound : Z := 404.

Definition time_Sleep (d : Z) (w : World) : World := emit (EvSleep d) w.

Definition os_ReadFile (path : string) : IO string := fun w =>
  let w1 := emit (EvFs (OpReadFile path)) w in
  if fsFault w (OpReadFile path) then (Err (LibError "os.ReadFile"), w1)
  else match files w !! path with
       | Some data => (Ok data, w1)
       | None => (Err (LibError "os.ReadFile"), w1)
       end.

Definition os_MkdirAll (path : string) : IO unit := fun w =>
  let w1 := emit (EvFs (OpMkdirAll path)) w in
  if fsFault w (OpMkdirAll path) then (Err (LibError "os.MkdirAll"), w1)
  else (Ok tt, w1).

Definition os_WriteFile (path data : string) : IO unit := fun w =>
  let w1 := emit (EvFs (OpWriteFile path)) w in
  if fsFault w (OpWriteFile path) then (Err (LibError "os.WriteFile"), w1)
  else (Ok tt, setFile path data w1).

(** [os.Create]: the file exists and is empty afterwards. *)
Definition os_Create (path : string) : IO unit := fun w =>
  let w1 := emit (EvFs (OpCreate path)) w in
  if fsFault w (OpCreate path) then (Err (LibError "os.Create"), w1)
  else (Ok tt, setFile path "" w1).

(** [file.WriteString] on the file opened at [path]. *)
Definition file_WriteString (path text : string) : IO unit := fun w =>
  let w1 := emit (EvFs (OpWriteString path)) w in
  if fsFault w (OpWriteString path) then (Err (LibError "os.File.WriteString"), w1)
  else (Ok tt, setFile path (default "" (files w !! path) +:+ text) w1).

(** [uuid.New().String()]. *)
Definition uuid_New (w : World) : string * World :=
  (uuids w (nuuid w),
   {| files := files w; fsFault := fsFault w; net := net w; uuids := uuids w;
      nreq := nreq w; nuuid := S (nuuid w); trace := trace w |}).

(** [c.client.Do(req)]. *)
Definition client_Do (req : Request) (w : World) : option Response * World :=
  (net w (nreq w) req,
   {| files := files w; fsFault := fsFault w; net := net w; uuids := uuids w;
      nreq := S (nreq w); nuuid := nuuid w; trace := trace w ++ [EvDo req] |}).

(** [req.Header.Set]. *)
Definition Header_Set (key value : string) (req : Request) : Request :=
  {| Method := Method req; URL := URL req;
     Header := filter (fun kv => negb (String.eqb (fst kv) key)) (Header req)
               ++ [(key, value)];
     ReqBody := ReqBody req |}.

(** The network round trips and the sleeps of a trace. *)
Definition requestsOf (tr : list Event) : list Request :=
  omap (fun e => match e with EvDo r => Some r | _ => None end) tr.

Definition sleepsOf (tr : list Event) : list Z :=
  omap (fun e => match e with EvSleep d => Some d | _ => None end) tr.

(** ** Records of [pkg/common] and [pkg/config] *)

Record Scene : Type := {
  Scene_Description : string;   (* json:"description" *)
  Scene_SourceTitle : string;   (* json:"source_title" *)
  Scene_ID : string;            (* json:"id" *)
  Scene_Title : string;         (* json:"title" *)
  Scene_Mood : string           (* json:"mood" *)
}.

Record Image : Type := {
  Image_Path : string;
  Image_SceneID : string;
  Image_Description : string
}.

Record Video : Type := {
  Video_Path : string;
  Video_ImageID : string;
  Video_Length : Z
}.

Record VideoConversionConfig : Type := {
  RunwayAPIKey : string;
  OutputDir : string;
  VideoLength : Z;
  UseNodeImplementation : bool
}.

(** The [client] field of the Go struct is the [net] of the [World]. *)
Record Converter : Type := {
  config : VideoConversionConfig
}.

(** ** [pkg/2_scenegeneration]: scene identifiers *)

(** [generateSceneID]: the image name without its extension, spaces and
    hyphens replaced by underscores, behind the prefix [scene_]. *)
Definition generateSceneID (imageName : string) : string :=
  let name := Strings.TrimSuffix imageName (Filepath.Ext imageName) in
  let name := Strings.ReplaceAll1 name " " "_" in
  let name := Strings.ReplaceAll1 name "-" "_" in
  "scene_" +:+ name.

(** ** The video converter, [pkg/4_videoconversion/converter.go]

    The library calls whose results are left open are the fields of
    [GoLib]: base64 and JSON text encodings, path arithmetic, and the URL
    check of [http.NewRequestWithContext].  [json_encode doc] is the text
    [json.Marshal] writes for the document [doc], [json_encodeIndent] the
    one of [json.MarshalIndent], [json_decode] the parser of
    [json.Unmarshal] ([None]: syntax error).  The context argument [ctx]
    of the Go functions is part of [net]: a cancelled context makes the
    round trip fail. *)

Class GoLib : Type := {
  base64_EncodeToString : string -> string;
  json_encode : JSON -> string;
  json_encodeIndent : string -> string -> JSON -> string;
  json_decode : string -> option JSON;
  filepath_Base : string -> string;
  filepath_Dir : string -> string;
  filepath_Join : string -> string -> string;
  url_ok : string -> bool
}.

Section Runtime.

Context {L : GoLib}.

(** [http.NewRequestWithContext(ctx, method, url, body)]. *)
Definition http_NewRequest (method url : string) (body : option string)
  : Result Request :=
  if url_ok url
  then Ok {| Method := method; URL := url; Header := []; ReqBody := body |}
  else Err (LibError "http.NewRequestWithContext").

(** [json.Unmarshal(body, &responseData)]. *)
Definition json_Unmarshal_map (body : string) : option GoMap :=
  match json_decode body with
  | Some doc => Json.toMap doc
  | None => None
  end.

(** [downloadVideo]: a plain GET of [url]; the bytes of the body. *)
Definition downloadVideo (c : Converter) (url : string) : IO string := fun w =>
  match http_NewRequest "GET" url None with
  | Err e => (Err (Errorf "failed to create request: %w" [ArgW e]), w)
  | Ok req =>
      match client_Do req w with
      | (None, w1) =>
          (Err (Errorf "failed to send request: %w"
                  [ArgW (LibError "http.Client.Do")]), w1)
      | (Some resp, w1) =>
          if negb (StatusCode resp =? StatusOK)%Z
          then (Err (Errorf "unexpected status code: %d"
                       [ArgD (StatusCode resp)]), w1)
          else match Body resp with
               | Some data => (Ok data, w1)
               | None => (Err (LibError "io.ReadAll"), w1)
               end
      end
  end.

Definition statusURL (jobID : string) : string :=
  "https://api.dev.runwayml.com/v1/image_to_video/" +:+ jobID.

Definition alternativeURL (jobID : string) : string :=
  "https://api.dev.runwayml.com/v1/jobs/" +:+ jobID.

Definition maxAttempts : nat := 60.
Definition pollInterval : Z := 5 * Second.

(** The status query of one polling attempt. *)
Definition statusRequest (c : Converter) (apiURL : string) : Request :=
  Header_Set "X-Runway-Version" "2024-11-06"
    (Header_Set "Authorization" ("Bearer " +:+ RunwayAPIKey (config c))
       {| Method := "GET"; URL := apiURL; Header := []; ReqBody := None |}).

(** Lines 274-284 of [pollForVideo]: where a completed response keeps
    the video URL. *)
Definition resultLocation (responseData : GoMap) : option string :=
  match Json.getString responseData "videoUrl" with
  | Some videoURL => Some videoURL
  | None =>
      match Json.getMap responseData "output" with
      | Some output => Json.getString output "video"
      | None => None
      end
  end.

(** One turn of the [for] loop of [pollForVideo] either goes on with the
    next attempt ([continue], or the end of the body), carrying the
    value of [apiURL], or leaves the function. *)
Inductive Step : Type :=
| Continue (apiURL : string)
| Return (r : Result string).

Definition pollAttempt (c : Converter) (jobID apiURL : string) (attempt : nat)
  : World -> Step * World := fun w =>
  match http_NewRequest "GET" apiURL None with
  | Err e => (Return (Err (Errorf "failed to create request: %w" [ArgW e])), w)
  | Ok req =>
      let req := Header_Set "Authorization"
                   ("Bearer " +:+ RunwayAPIKey (config c)) req in
      let req := Header_Set "X-Runway-Version" "2024-11-06" req in
      match client_Do req w with
      | (None, w1) =>
          (Return (Err (Errorf "failed to send request: %w"
                          [ArgW (LibError "http.Client.Do")])), w1)
      | (Some resp, w1) =>
          match Body resp with
          | None =>
              (Return (Err (Errorf "failed to read response: %w"
                              [ArgW (LibError "io.ReadAll")])), w1)
          | Some body =>
              if negb (StatusCode resp =? StatusOK)%Z then
                let apiURL' :=
                  if (StatusCode resp =? StatusNotFound)%Z && (attempt =? 1)%nat
                  then alternativeURL jobID else apiURL in
                (Continue apiURL', time_Sleep pollInterval w1)
              else
                match json_Unmarshal_map body with
                | None =>
                    (Return (Err (Errorf "failed to parse response: %w"
                                    [ArgW (LibError "json.Unmarshal")])), w1)
                | Some responseData =>
                    match Json.getString responseData "status" with
                    | None => (Continue apiURL, time_Sleep pollInterval w1)
                    | Some status =>
                        if String.eqb status "completed" then
                          match resultLocation responseData with
                          | Some videoURL =>
                              let (r, w2) := downloadVideo c videoURL w1 in
                              (Return r, w2)
                          | None =>
                              (Return (Err (MissingResultLocation responseData)), w1)
                          end
                        else if String.eqb status "failed" then
                          let errorMessage :=
                            match Json.getString responseData "error" with
                            | Some errMsg => errMsg
                            | None => "unknown error"
                            end in
                          (Return (Err (GenerationFailed errorMessage)), w1)
                        else (Continue apiURL, time_Sleep pollInterval w1)
                    end
                end
          end
      end
  end.

(** The loop [for attempt := 1; attempt <= maxAttempts; attempt++]:
    [remaining] is [maxAttempts - attempt + 1], the number of turns the
    loop condition still allows. *)
Fixpoint pollLoop (c : Converter) (jobID : string) (remaining : nat)
         (attempt : nat) (apiURL : string) (w : World)
  : Result string * World :=
  match remaining with
  | O => (Err PollTimeout, w)
  | S remaining' =>
      match pollAttempt c jobID apiURL attempt w with
      | (Return r, w1) => (r, w1)
      | (Continue apiURL', w1) =>
          pollLoop c jobID remaining' (S attempt) apiURL' w1
      end
  end.

Definition pollForVideo (c : Converter) (jobID : string) : IO string :=
  pollLoop c jobID maxAttempts 1 (statusURL jobID).

(** [encodeImageToBase64]: a data URI, PNG when the data starts with
    89 50 4E, JPEG otherwise. *)
Definition encodeImageToBase64 (imageData : string) : string :=
  let mimeType :=
    match imageData with
    | String b0 (String b1 (String b2 _)) =>
        if ((N_of_ascii b0 =? 137) && (N_of_ascii b1 =? 80)
            && (N_of_ascii b2 =? 78))%N
        then "image/png" else "image/jpeg"
    | _ => "image/jpeg"
    end in
  "data:" +:+ mimeType +:+ ";base64," +:+ base64_EncodeToString imageData.

(** [generateVideoWithRunway]: submit the job, then poll.  The request
    body is a map of three strings, which [json.Marshal] always encodes
    (keys in sorted order, strings coerced to valid UTF-8). *)
Definition generateVideoWithRunway (c : Converter)
           (imageData description : string) : IO string := fun w =>
  let apiURL := "https://api.dev.runwayml.com/v1/image_to_video" in
  let base64Image := encodeImageToBase64 imageData in
  let requestBody :=
    JObject [("model", JString "gen3a_turbo");
             ("promptImage", JString (Utf8.coerce base64Image));
             ("promptText", JString (Utf8.coerce description))] in
  let jsonBody := json_encode requestBody in
  match http_NewRequest "POST" apiURL (Some jsonBody) with
  | Err e => (Err (Errorf "failed to create request: %w" [ArgW e]), w)
  | Ok req =>
      let req := Header_Set "Content-Type" "application/json" req in
      let req := Header_Set "Authorization"
                   ("Bearer " +:+ RunwayAPIKey (config c)) req in
      let req := Header_Set "X-Runway-Version" "2024-11-06" req in
      match client_Do req w with
      | (None, w1) =>
          (Err (Errorf "failed to send request: %w"
                  [ArgW (LibError "http.Client.Do")]), w1)
      | (Some resp, w1) =>
          match Body resp with
          | None =>
              (Err (Errorf "failed to read response: %w"
                      [ArgW (LibError "io.ReadAll")]), w1)
          | Some body =>
              if negb (StatusCode resp =? StatusOK)%Z
                 && negb (StatusCode resp =? StatusAccepted)%Z
              then (Err (Errorf "unexpected status code: %d, body: %s"
                           [ArgD (StatusCode resp); ArgS body]), w1)
              else
                match json_Unmarshal_map body with
                | None =>
                    (Err (Errorf "failed to parse response: %w"
                            [ArgW (LibError "json.Unmarshal")]), w1)
                | Some responseData =>
                    match Json.getString responseData "error" with
                    | Some errMsg =>
                        (Err (Errorf "API error: %s" [ArgS errMsg]), w1)
                    | None =>
                        match Json.getString responseData "id" with
                        | Some jobID => pollForVideo c jobID w1
                        | None =>
                            match Json.getString responseData "jobId" with
                            | Some jobID => pollForVideo c jobID w1
                            | None =>
                                (Err (MissingJobIdentifier responseData), w1)
                            end
                        end
                    end
                end
          end
      end
  end.

(** [createPlaceholderVideo]: a small text file standing for a video. *)
Definition createPlaceholderVideo (path : string) : IO unit := fun w =>
  match os_MkdirAll (filepath_Dir path) w with
  | (Err e, w1) => (Err e, w1)
  | (Ok _, w1) =>
      match os_Create path w1 with
      | (Err e, w2) => (Err e, w2)
      | (Ok _, w2) =>
          file_WriteString path
            "This is a placeholder for a video that would be generated by Runway ML"
            w2
      end
  end.

(** [uuid.New().String()[:8]]. *)
Definition shortID (w : World) : string * World :=
  let (u, w1) := uuid_New w in (substring 0 8 u, w1).

Definition baseName (path : string) : string :=
  let baseFilename := filepath_Base path in
  Strings.TrimSuffix baseFilename (Filepath.Ext baseFilename).

(** The body of the loop of [createPlaceholderVideos] for one image:
    the video appended, or [None] after [continue]. *)
Definition placeholderFor (c : Converter) (image : Image)
  : World -> option Video * World := fun w =>
  let (id, w1) := shortID w in
  let filename :=
    "placeholder_" +:+ baseName (Image_Path image) +:+ "_" +:+ id +:+ ".mp4" in
  let videoPath := filepath_Join (OutputDir (config c)) filename in
  match createPlaceholderVideo videoPath w1 with
  | (Err _, w2) => (None, w2)
  | (Ok _, w2) =>
      (Some {| Video_Path := videoPath;
               Video_ImageID := Image_SceneID image;
               Video_Length := VideoLength (config c) |},
       time_Sleep (100 * Millisecond) w2)
  end.

Fixpoint placeholderLoop (c : Converter) (images : list Image)
         (videos : list Video) (w : World) : list Video * World :=
  match images with
  | [] => (videos, w)
  | image :: rest =>
      match placeholderFor c image w with
      | (Some v, w1) => placeholderLoop c rest (videos ++ [v]) w1
      | (None, w1) => placeholderLoop c rest videos w1
      end
  end.

(** [createPlaceholderVideos] always returns a nil error. *)
Definition createPlaceholderVideos (c : Converter) (images : list Image)
  : World -> (list Video * option error) * World := fun w =>
  let (videos, w1) := placeholderLoop c images [] w in
  ((videos, None), w1).

(** The body of the loop of [Convert] for one image. *)
Definition convertImage (c : Converter) (image : Image)
  : World -> option Video * World := fun w =>
  match os_ReadFile (Image_Path image) w with
  | (Err _, w1) => (None, w1)
  | (Ok imageData, w1) =>
      match generateVideoWithRunway c imageData (Image_Description image) w1 with
      | (Err _, w2) => (None, w2)
      | (Ok videoData, w2) =>
          let (id, w3) := shortID w2 in
          let filename :=
            "video_" +:+ baseName (Image_Path image) +:+ "_" +:+ id +:+ ".mp4" in
          let videoPath := filepath_Join (OutputDir (config c)) filename in
          match os_MkdirAll (filepath_Dir videoPath) w3 with
          | (Err _, w4) => (None, w4)
          | (Ok _, w4) =>
              match os_WriteFile videoPath videoData w4 with
              | (Err _, w5) => (None, w5)
              | (Ok _, w5) =>
                  (Some {| Video_Path := videoPath;
                           Video_ImageID := Image_SceneID image;
                           Video_Length := VideoLength (config c) |},
                   time_Sleep (2 * Second) w5)
              end
          end
      end
  end.

Fixpoint convertLoop (c : Converter) (images : list Image)
         (videos : list Video) (w : World) : list Video * World :=
  match images with
  | [] => (videos, w)
  | image :: rest =>
      match convertImage c image w with
      | (Some v, w1) => convertLoop c rest (videos ++ [v]) w1
      | (None, w1) => convertLoop c rest videos w1
      end
  end.

(** [Convert]. *)
Definition Convert (c : Converter) (images : list Image)
  : World -> (list Video * option error) * World := fun w =>
  if String.eqb (RunwayAPIKey (config c)) ""
  then createPlaceholderVideos c images w
  else
    let (videos, w1) := convertLoop c images [] w in
    match videos with
    | [] => ((videos, Some NoArtifactsProduced), w1)
    | _ => ((videos, None), w1)
    end.

(** What the loop of [Convert] gets from each image in turn, the world
    being threaded through the items. *)
Fixpoint convertOutcomes (c : Converter) (images : list Image) (w : World)
  : list (option Video) :=
  match images with
  | [] => []
  | image :: rest =>
      let (o, w1) := convertImage c image w in
      o :: convertOutcomes c rest w1
  end.

Fixpoint placeholderOutcomes (c : Converter) (images : list Image) (w : World)
  : list (option Video) :=
  match images with
  | [] => []
  | image :: rest =>
      let (o, w1) := placeholderFor c image w in
      o :: placeholderOutcomes c rest w1
  end.

(** ** Scenes on disk: [SaveScenesToFile] and [loadScenesFromFile] *)

(** [config.SceneGenerationConfig] and the [Generator] that owns
    [SaveScenesToFile]. *)
Record SceneGenerationConfig : Type := {
  ClaudeKey : string;
  MaxScenes : Z
}.

Record Generator : Type := {
  generator_config : SceneGenerationConfig
}.

(** The document [json.MarshalIndent] writes for a [common.Scene]: the
    five tagged fields in declaration order, none of them [omitempty],
    each string coerced to valid UTF-8. *)
Definition sceneToJSON (s : Scene) : JSON :=
  JObject [("description", JString (Utf8.coerce (Scene_Description s)));
           ("source_title", JString (Utf8.coerce (Scene_SourceTitle s)));
           ("id", JString (Utf8.coerce (Scene_ID s)));
           ("title", JString (Utf8.coerce (Scene_Title s)));
           ("mood", JString (Utf8.coerce (Scene_Mood s)))].

(** A slice of scenes is an array (a nil slice is written [null], which
    reads back as a nil slice: the empty list here in both cases). *)
Definition scenesToJSON (scenes : list Scene) : JSON :=
  JArray (map sceneToJSON scenes).

Inductive SceneField : Type :=
| FDescription | FSourceTitle | FID | FTitle | FMood.

(** The field of [common.Scene] a JSON key is decoded into: the tag equal
    to the key, or else equal to it up to letter case (ASCII letters
    here). *)
Definition sceneField (key : string) : option SceneField :=
  let k := Strings.ToLower key in
  if String.eqb k "description" then Some FDescription
  else if String.eqb k "source_title" then Some FSourceTitle
  else if String.eqb k "id" then Some FID
  else if String.eqb k "title" then Some FTitle
  else if String.eqb k "mood" then Some FMood
  else None.

Definition setSceneField (f : SceneField) (v : string) (s : Scene) : Scene :=
  match f with
  | FDescription =>
      {| Scene_Description := v; Scene_SourceTitle := Scene_SourceTitle s;
         Scene_ID := Scene_ID s; Scene_Title := Scene_Title s;
         Scene_Mood := Scene_Mood s |}
  | FSourceTitle =>
      {| Scene_Description := Scene_Description s; Scene_SourceTitle := v;
         Scene_ID := Scene_ID s; Scene_Title := Scene_Title s;
         Scene_Mood := Scene_Mood s |}
  | FID =>
      {| Scene_Description := Scene_Description s;
         Scene_SourceTitle := Scene_SourceTitle s;
         Scene_ID := v; Scene_Title := Scene_Title s;
         Scene_Mood := Scene_Mood s |}
  | FTitle =>
      {| Scene_Description := Scene_Description s;
         Scene_SourceTitle := Scene_SourceTitle s;
         Scene_ID := Scene_ID s; Scene_Title := v;
         Scene_Mood := Scene_Mood s |}
  | FMood =>
      {| Scene_Description := Scene_Description s;
         Scene_SourceTitle := Scene_SourceTitle s;
         Scene_ID := Scene_ID s; Scene_Title := Scene_Title s;
         Scene_Mood := v |}
  end.

Definition zeroScene : Scene :=
  {| Scene_Description := ""; Scene_SourceTitle := ""; Scene_ID := "";
     Scene_Title := ""; Scene_Mood := "" |}.

(** Decoding the members of a JSON object into a [common.Scene], in
    document order: unknown keys are skipped, [null] leaves the field as
    it is, a value that is not a string is an [UnmarshalTypeError]. *)
Fixpoint decodeScene (members : GoMap) (s : Scene) : option Scene :=
  match members with
  | [] => Some s
  | (key, value) :: rest =>
      match sceneField key with
      | None => decodeScene rest s
      | Some f =>
          match value with
          | JString v => decodeScene rest (setSceneField f v s)
          | JNull => decodeScene rest s
          | _ => None
          end
      end
  end.

Definition sceneFromJSON (doc : JSON) : option Scene :=
  match doc with
  | JObject members => decodeScene members zeroScene
  | JNull => Some zeroScene
  | _ => None
  end.

Fixpoint scenesFromItems (items : list JSON) : option (list Scene) :=
  match items with
  | [] => Some []
  | item :: rest =>
      match sceneFromJSON item, scenesFromItems rest with
      | Some s, Some ss => Some (s :: ss)
      | _, _ => None
      end
  end.

(** [json.Unmarshal(data, &scenes)] with [scenes] a nil [[]common.Scene]. *)
Definition scenesFromJSON (doc : JSON) : option (list Scene) :=
  match doc with
  | JArray items => scenesFromItems items
  | JNull => Some []
  | _ => None
  end.

(** [SaveScenesToFile]; [None] is the nil error. *)
Definition SaveScenesToFile (g : Generator) (scenes : list Scene)
           (outputPath : string) : World -> option error * World := fun w =>
  let outputDir := filepath_Dir outputPath in
  match os_MkdirAll outputDir w with
  | (Err e, w1) =>
      (Some (Errorf "failed to create output directory: %w" [ArgW e]), w1)
  | (Ok _, w1) =>
      let jsonData := json_encodeIndent "" "  " (scenesToJSON scenes) in
      match os_WriteFile outputPath jsonData w1 with
      | (Err e, w2) =>
          (Some (Errorf "failed to write scenes to file: %w" [ArgW e]), w2)
      | (Ok _, w2) => (None, w2)
      end
  end.

(** [loadScenesFromFile] of [cmd/image-creator]. *)
Definition loadScenesFromFile (path : string) : IO (list Scene) := fun w =>
  match os_ReadFile path w with
  | (Err e, w1) => (Err e, w1)
  | (Ok data, w1) =>
      match json_decode data with
      | None => (Err (LibError "json.Unmarshal"), w1)
      | Some doc =>
          match scenesFromJSON doc with
          | None => (Err (LibError "json.Unmarshal"), w1)
          | Some scenes => (Ok scenes, w1)
          end
      end
  end.

End Runtime.

(** ** The result location in [scripts/video-converter.js]

    Lines 200-221 of [processImage], the Node implementation of the same
    converter: the task is a JavaScript object; [None] is [undefined]. *)

Module JS.

Definition truthy (v : option JSON) : bool :=
  match v with
  | None => false
  | Some JNull => false
  | Some (JBool b) => b
  | Some (JNumber m _) => negb (m =? 0)%Z
  | Some (JString s) => negb (String.eqb s "")
  | Some (JArray _) => true
  | Some (JObject _) => true
  end.

(** Property access [v.key]. *)
Definition prop (v : option JSON) (key : string) : option JSON :=
  match v with
  | Some (JObject members) => Json.index members key
  | _ => None
  end.

(** The value of [videoUrl] before the test [if (!videoUrl)]. *)
Definition videoUrl (task : GoMap) : option JSON :=
  let t := Some (JObject task) in
  let output := prop t "output" in
  if truthy output then
    match output with
    | Some (JArray (first :: _)) => Some first
    | Some (JObject _) =>
        if truthy (prop output "video") then prop output "video" else None
    | _ => None
    end
  else if truthy (prop t "result") && truthy (prop (prop t "result") "videoUrl")
  then prop (prop t "result") "videoUrl"
  else if truthy (prop t "videoUrl") then prop t "videoUrl"
  else None.

(** What [downloadFile] is called with; [None]: the script throws
    [No video URL in completed task]. *)
Definition resultLocation (task : GoMap) : option JSON :=
  if truthy (videoUrl task) then videoUrl task else None.

End JS.

(** ** The identifier as the specification words it *)

(** The image name without its extension. *)
Definition withoutExt (imageName : string) : string :=
  substring 0 (String.length imageName - String.length (Filepath.Ext imageName))
            imageName.

Definition underscored (ch : ascii) : ascii :=
  if Ascii.eqb ch " " || Ascii.eqb ch "-" then "_"%char else ch.

(** Extension removed, lower-cased, spaces and hyphens replaced, prefix. *)
Definition sceneID_lowered (imageName : string) : string :=
  "scene_" +:+ Strings.mapBytes underscored
                 (Strings.ToLower (withoutExt imageName)).

(** The same without the lower-casing. *)
Definition sceneID_cased (imageName : string) : string :=
  "scene_" +:+ Strings.mapBytes underscored (withoutExt imageName).

(** ** Vocabulary of the properties *)

Section Vocabulary.

Context {L : GoLib}.

(** The [k]-th next round trip of [w] answers the request [req] with the
    status code [code] and a body that decodes to the map [m]. *)
Definition answers (w : World) (k : nat) (req : Request) (code : Z)
           (m : GoMap) : Prop :=
  exists body,
    net w (k + nreq w)%nat req = Some {| StatusCode := code; Body := Some body |}
    /\ json_Unmarshal_map body = Some m.

(** The two terminal status values of the provider, as the Go poller
    spells them. *)
Definition COMPLETED : string := "completed".
Definition FAILED : string := "failed".

Definition terminal (status : string) : bool :=
  String.eqb status COMPLETED || String.eqb status FAILED.

(** The status string a response carries, if it carries one: a 200
    answer whose body is a JSON object with a string [status]. *)
Definition statusOf (resp : Response) : option string :=
  match Body resp with
  | Some body =>
      if (StatusCode resp =? StatusOK)%Z then
        match json_Unmarshal_map body with
        | Some m => Json.getString m "status"
        | None => None
        end
      else None
  | None => None
  end.

(** An answer that is a status response without a terminal status: the
    body is readable and, unless the status code is not 200, it is a JSON
    object whose [status], if it has one, is not terminal. *)
Definition nonTerminal (r : option Response) : bool :=
  match r with
  | Some resp =>
      match Body resp with
      | Some body =>
          if (StatusCode resp =? StatusOK)%Z then
            match json_Unmarshal_map body with
            | Some m =>
                match Json.getString m "status" with
                | Some status => negb (terminal status)
                | None => true
                end
            | None => false
            end
          else true
      | None => false
      end
  | None => false
  end.

(** The world after the round trip of [req]. *)
Definition afterDo (req : Request) (w : World) : World :=
  snd (client_Do req w).

(** What one inconclusive polling attempt at [apiURL] adds to the trace. *)
Definition pollTurn (c : Converter) (apiURL : string) : list Event :=
  [EvDo (statusRequest c apiURL); EvSleep pollInterval].

(** The download request of [downloadVideo]. *)
Definition downloadRequest (url : string) : Request :=
  {| Method := "GET"; URL := url; Header := []; ReqBody := None |}.

(** No field of a scene holds bytes that are not UTF-8. *)
Definition validScene (s : Scene) : bool :=
  Utf8.ValidString (Scene_Description s)
  && Utf8.ValidString (Scene_SourceTitle s)
  && Utf8.ValidString (Scene_ID s)
  && Utf8.ValidString (Scene_Title s)
  && Utf8.ValidString (Scene_Mood s).

(** A scene as it is read back from its JSON text. *)
Definition coerceScene (s : Scene) : Scene :=
  {| Scene_Description := Utf8.coerce (Scene_Description s);
     Scene_SourceTitle := Utf8.coerce (Scene_SourceTitle s);
     Scene_ID := Utf8.coerce (Scene_ID s);
     Scene_Title := Utf8.coerce (Scene_Title s);
     Scene_Mood := Utf8.coerce (Scene_Mood s) |}.

(** [w'] is [w] after some more events. *)
Definition extends (w w' : World) : Prop :=
  exists tail, trace w' = trace w ++ tail.

(** Nothing went over the network between [w] and [w']. *)
Definition offlineStep (w w' : World) : Prop :=
  requestsOf (trace w') = requestsOf (trace w) /\ fsFault w' = fsFault w.

(** What the loop body makes of [image]: nothing, or a video that refers
    to the scene of [image] and has the configured length. *)
Definition videoOf (c : Converter) (image : Image) (o : option Video) : Prop :=
  match o with
  | None => True
  | Some v =>
      Video_ImageID v = Image_SceneID image
      /\ Video_Length v = VideoLength (config c)
  end.

End Vocabulary.

(** ** A concrete runtime for the examples

    A small JSON writer, a reader of what it writes, and plain path
    functions: an instance of [GoLib] on which the examples below run. *)

Module Samples.

Definition dquote : ascii := ascii_of_N 34.
Definition backslash : ascii := ascii_of_N 92.

Fixpoint escape (s : string) : string :=
  match s with
  | EmptyString => EmptyString
  | String ch rest =>
      if Ascii.eqb ch dquote || Ascii.eqb ch backslash
      then String backslash (String ch (escape rest))
      else String ch (escape rest)
  end.

Definition quoted (s : string) : string :=
  String dquote (escape s +:+ String dquote "").

Fixpoint render (doc : JSON) : string :=
  match doc with
  | JNull => "null"
  | JBool true => "true"
  | JBool false => "false"
  | JNumber m e =>
      pretty m +:+ (if (e =? 0)%Z then "" else "e" +:+ pretty e)
  | JString s => quoted s
  | JArray items =>
      "[" +:+ (fix go (l : list JSON) : string :=
                 match l with
                 | [] => ""
                 | x :: r =>
                     match r with
                     | [] => render x
                     | _ => render x +:+ "," +:+ go r
                     end
                 end) items +:+ "]"
  | JObject members =>
      "{" +:+ (fix go (l : GoMap) : string :=
                 match l with
                 | [] => ""
                 | (k, v) :: r =>
                     match r with
                     | [] => quoted k +:+ ":" +:+ render v
                     | _ => quoted k +:+ ":" +:+ render v +:+ "," +:+ go r
                     end
                 end) members +:+ "}"
  end.

Definition isSpace (ch : ascii) : bool :=
  let n := N_of_ascii ch in ((n =? 32) || (n =? 9) || (n =? 10) || (n =? 13))%N.

Fixpoint skipSpace (s : string) : string :=
  match s with
  | String ch rest => if isSpace ch then skipSpace rest else s
  | EmptyString => s
  end.

(** The text after an opening quote, up to the closing one. *)
Fixpoint readString (s : string) : option (string * string) :=
  match s with
  | EmptyString => None
  | String ch rest =>
      if Ascii.eqb ch dquote then Some ("", rest)
      else if Ascii.eqb ch backslash then
        match rest with
        | String ch' rest' =>
            match readString rest' with
            | Some (t, r) => Some (String ch' t, r)
            | None => None
            end
        | EmptyString => None
        end
      else match readString rest with
           | Some (t, r) => Some (String ch t, r)
           | None => None
           end
  end.

Definition digit (ch : ascii) : option Z :=
  let n := N_of_ascii ch in
  if ((48 <=? n) && (n <=? 57))%N then Some (Z.of_N n - 48)%Z else None.

Fixpoint readDigits (acc : Z) (s : string) : Z * string :=
  match s with
  | String ch rest =>
      match digit ch with
      | Some d => readDigits (10 * acc + d) rest
      | None => (acc, s)
      end
  | EmptyString => (acc, s)
  end.

Definition readInt (s : string) : option (Z * string) :=
  match s with
  | String ch rest =>
      if Ascii.eqb ch "-" then
        match rest with
        | String d _ =>
            match digit d with
            | Some _ => let (n, r) := readDigits 0 rest in Some ((- n)%Z, r)
            | None => None
            end
        | EmptyString => None
        end
      else match digit ch with
           | Some _ => Some (readDigits 0 s)
           | None => None
           end
  | EmptyString => None
  end.

Definition readNumber (s : string) : option (JSON * string) :=
  match readInt s with
  | Some (m, String ch rest) =>
      if Ascii.eqb ch "e" then
        match readInt rest with
        | Some (e, r) => Some (JNumber m e, r)
        | None => None
        end
      else Some (JNumber m 0, String ch rest)
  | Some (m, EmptyString) => Some (JNumber m 0, EmptyString)
  | None => None
  end.

Definition dropPrefix (p s : string) : option string :=
  if String.prefix p s
  then Some (substring (String.length p) (String.length s - String.length p) s)
  else None.

Fixpoint readValue (fuel : nat) (s : string) : option (JSON * string) :=
  match fuel with
  | O => None
  | S fuel' =>
      match skipSpace s with
      | EmptyString => None
      | String ch rest =>
          if Ascii.eqb ch dquote then
            match readString rest with
            | Some (t, r) => Some (JString t, r)
            | None => None
            end
          else if Ascii.eqb ch "[" then
            match skipSpace rest with
            | String "]" r => Some (JArray [], r)
            | _ =>
                match readItems fuel' rest with
                | Some (items, r) => Some (JArray items, r)
                | None => None
                end
            end
          else if Ascii.eqb ch "{" then
            match skipSpace rest with
            | String "}" r => Some (JObject [], r)
            | _ =>
                match readMembers fuel' rest with
                | Some (members, r) => Some (JObject members, r)
                | None => None
                end
            end
          else
            match dropPrefix "null" (String ch rest),
                  dropPrefix "true" (String ch rest),
                  dropPrefix "false" (String ch rest) with
            | Some r, _, _ => Some (JNull, r)
            | _, Some r, _ => Some (JBool true, r)
            | _, _, Some r => Some (JBool false, r)
            | _, _, _ => readNumber (String ch rest)
            end
      end
  end
with readItems (fuel : nat) (s : string) : option (list JSON * string) :=
  match fuel with
  | O => None
  | S fuel' =>
      match readValue fuel' s with
      | Some (v, r) =>
          match skipSpace r with
          | String "," r' =>
              match readItems fuel' r' with
              | Some (vs, r'') => Some (v :: vs, r'')
              | None => None
              end
          | String "]" r' => Some ([v], r')
          | _ => None
          end
      | None => None
      end
  end
with readMembers (fuel : nat) (s : string) : option (GoMap * string) :=
  match fuel with
  | O => None
  | S fuel' =>
      match skipSpace s with
      | String ch rest =>
          if Ascii.eqb ch dquote then
            match readString rest with
            | Some (k, r) =>
                match skipSpace r with
                | String ":" r1 =>
                    match readValue fuel' r1 with
                    | Some (v, r2) =>
                        match skipSpace r2 with
                        | String "," r3 =>
                            match readMembers fuel' r3 with
                            | Some (ms, r4) => Some ((k, v) :: ms, r4)
                            | None => None
                            end
                        | String "}" r3 => Some ([(k, v)], r3)
                        | _ => None
                        end
                    | None => None
                    end
                | _ => None
                end
            | None => None
            end
          else None
      | EmptyString => None
      end
  end.

Definition parse (text : string) : option JSON :=
  match readValue (S (String.length text)) text with
  | Some (doc, rest) =>
      match skipSpace rest with
      | EmptyString => Some doc
      | _ => None
      end
  | None => None
  end.

Fixpoint lastSlash (s : string) : option nat :=
  match s with
  | EmptyString => None
  | String ch rest =>
      match lastSlash rest with
      | Some i => Some (S i)
      | None => if Ascii.eqb ch "/" then Some 0%nat else None
      end
  end.

Definition base (path : string) : string :=
  match lastSlash path with
  | Some i => substring (S i) (String.length path - S i) path
  | None => path
  end.

Definition dir (path : string) : string :=
  match lastSlash path with
  | Some i => substring 0 i path
  | None => "."
  end.

Definition lib : GoLib :=
  {| base64_EncodeToString := fun data => data;
     json_encode := render;
     json_encodeIndent := fun _ _ => render;
     json_decode := parse;
     filepath_Base := base;
     filepath_Dir := dir;
     filepath_Join := fun d f => d +:+ "/" +:+ f;
     url_ok := fun _ => true |}.

(** Inputs and worlds of the examples. *)

Definition reply (code : Z) (doc : JSON) : option Response :=
  Some {| StatusCode := code; Body := Some (render doc) |}.

Definition world (answer : nat -> Request -> option Response)
           (fs : gmap string string) (fault : FsOp -> bool) : World :=
  {| files := fs; fsFault := fault; net := answer;
     uuids := fun n => pretty n +:+ "f2a9c1e-7b4d-4c1a-9e0f-5d2c8a6b3e10";
     nreq := 0; nuuid := 0; trace := [] |}.

Definition noFault : FsOp -> bool := fun _ => false.

(** A file system on which no file can be created. *)
Definition readOnly : FsOp -> bool := fun op =>
  match op with
  | OpCreate _ | OpWriteFile _ | OpWriteString _ => true
  | _ => false
  end.

Definition keyed : Converter :=
  {| config := {| RunwayAPIKey := "key-123"; OutputDir := "output/videos";
                  VideoLength := 10; UseNodeImplementation := false |} |}.

Definition offline : Converter :=
  {| config := {| RunwayAPIKey := ""; OutputDir := "output/videos";
                  VideoLength := 10; UseNodeImplementation := false |} |}.

Definition image1 : Image :=
  {| Image_Path := "output/images/image_summit_1a2b.png";
     Image_SceneID := "scene_summit";
     Image_Description := "World leaders shake hands" |}.

Definition image2 : Image :=
  {| Image_Path := "output/images/image_debate_3c4d.png";
     Image_SceneID := "scene_debate";
     Image_Description := "Lawmakers at podiums" |}.

Definition image3 : Image :=
  {| Image_Path := "output/images/image_lab_5e6f.png";
     Image_SceneID := "scene_lab";
     Image_Description := "A laboratory in blue light" |}.

Definition status (s : string) : JSON := JObject [("status", JString s)].

Definition completedAt (url : string) : JSON :=
  JObject [("status", JString "completed"); ("videoUrl", JString url)].

(** The provider always answers RUNNING. *)
Definition alwaysRunning : World :=
  world (fun _ _ => reply 200 (status "RUNNING")) ∅ noFault.

(** QUEUED, RUNNING, RUNNING, completed; then the video bytes. *)
Definition fourAnswers : World :=
  world (fun n _ =>
           match n with
           | 0 => reply 200 (status "QUEUED")
           | 1 | 2 => reply 200 (status "RUNNING")
           | 3 => reply 200 (completedAt "https://cdn.example/v.mp4")
           | _ => Some {| StatusCode := 200; Body := Some "MP4-BYTES" |}
           end%nat) ∅ noFault.

(** The provider reports a failure with its reason. *)
Definition quotaExceeded : World :=
  world (fun _ _ =>
           reply 200 (JObject [("status", JString "failed");
                               ("error", JString "quota exceeded")]))
        ∅ noFault.

(** A completed job whose result is an array of URLs. *)
Definition outputArray : JSON :=
  JObject [("status", JString "completed");
           ("output", JArray [JString "https://cdn.example/v.mp4"])].

Definition arrayAnswer : World :=
  world (fun _ _ => reply 200 outputArray) ∅ noFault.

(** The first image is missing on disk; the job of the second one is
    accepted, completes at once and its video downloads. *)
Definition secondSucceeds : World :=
  world (fun n _ =>
           match n with
           | 0 => reply 200 (JObject [("id", JString "job-7")])
           | 1 => reply 200 (completedAt "https://cdn.example/v.mp4")
           | _ => Some {| StatusCode := 200; Body := Some "MP4-BYTES" |}
           end%nat)
        {[ Image_Path image2 := "JPEG-BYTES" ]} noFault.

(** A 200 answer whose body is not JSON. *)
Definition notJSON : World :=
  world (fun _ _ => Some {| StatusCode := 200; Body := Some "<html>busy</html>" |})
        ∅ noFault.

(** Not found at first, RUNNING afterwards. *)
Definition notFoundFirst : World :=
  world (fun n _ =>
           match n with
           | O => Some {| StatusCode := 404; Body := Some "not found" |}
           | _ => reply 200 (status "RUNNING")
           end) ∅ noFault.

Definition unreachable : World :=
  world (fun _ _ => None) ∅ noFault.

Definition generator : Generator :=
  {| generator_config := {| ClaudeKey := ""; MaxScenes := 5 |} |}.

Definition scene1 : Scene :=
  {| Scene_Description := "An aerial view of a conference center";
     Scene_SourceTitle := "bbc headline-1.png";
     Scene_ID := "scene_bbc_headline_1";
     Scene_Title := "Global Climate Summit";
     Scene_Mood := "" |}.

(** A scene made from an image file whose name is Latin-1 text: the byte
    E9 alone is not UTF-8. *)
Definition latin1Name : string :=
  "caf" +:+ String (ascii_of_N 233) ".png".

Definition scene2 : Scene :=
  {| Scene_Description := "A quiet street";
     Scene_SourceTitle := latin1Name;
     Scene_ID := "scene_caf" +:+ String (ascii_of_N 233) "";
     Scene_Title := "Morning";
     Scene_Mood := "calm" |}.

End Samples.

(** ** More vocabulary for the converter *)

Section ConverterVocabulary.

Context {L : GoLib}.

Definition submitURL : string :=
  "https://api.dev.runwayml.com/v1/image_to_video".

(** The submission request of [generateVideoWithRunway]. *)
Definition submitRequest (c : Converter) (imageData description : string)
  : Request :=
  Header_Set "X-Runway-Version" "2024-11-06"
    (Header_Set "Authorization" ("Bearer " +:+ RunwayAPIKey (config c))
       (Header_Set "Content-Type" "application/json"
          {| Method := "POST"; URL := submitURL; Header := [];
             ReqBody :=
               Some (json_encode
                       (JObject
                          [("model", JString "gen3a_turbo");
                           ("promptImage",
                            JString (Utf8.coerce (encodeImageToBase64 imageData)));
                           ("promptText", JString (Utf8.coerce description))])) |})).

(** The text of a placeholder video file. *)
Definition placeholderMessage : string :=
  "This is a placeholder for a video that would be generated by Runway ML".

(** The time slept in a trace, in nanoseconds. *)
Definition sleepTotal (tr : list Event) : Z :=
  foldr Z.add 0%Z (sleepsOf tr).

(** From [w] to [w'] there were at most [r] round trips and at most [t]
    nanoseconds of sleep. *)
Definition bounded (r : nat) (t : Z) (w w' : World) : Prop :=
  exists tail,
    trace w' = trace w ++ tail
    /\ (length (requestsOf tail) <= r)%nat
    /\ (0 <= sleepTotal tail <= t)%Z
    /\ nreq w' = (nreq w + length (requestsOf tail))%nat.

(** The files of [w] are still there in [w']. *)
Definition keepsFiles (w w' : World) : Prop :=
  forall path, is_Some (files w !! path) -> is_Some (files w' !! path).

End ConverterVocabulary.

(** ** Go text functions and run-time panics

    A slice expression out of range makes a Go program panic: functions
    that can panic return an [Outcome].  [strings.ToLower] and
    [strings.TrimSpace] follow the Unicode tables; they are fields of
    [GoText], and what the properties need of them is stated where it is
    needed. *)

Inductive Outcome (A : Type) : Type :=
| Returned (a : A)
| Panicked.
Arguments Returned {A} a.
Arguments Panicked {A}.

Class GoText : Type := {
  strings_ToLower : string -> string;
  strings_TrimSpace : string -> string
}.

Module Text.

(** The slice expression [s[lo:hi]]: [None] is the run-time panic for
    bounds out of range. *)
Definition slice (s : string) (lo hi : nat) : option string :=
  if (lo <=? hi)%nat && (hi <=? String.length s)%nat
  then Some (substring lo (hi - lo) s)
  else None.

(** [s[lo:]], for [lo] within the string. *)
Definition sliceFrom (s : string) (lo : nat) : string :=
  substring lo (String.length s - lo) s.

(** [strings.Index]: the index of the first instance of [sub] in [s]. *)
Fixpoint Index (s sub : string) : option nat :=
  if String.prefix sub s then Some 0%nat
  else match s with
       | EmptyString => None
       | String _ rest =>
           match Index rest sub with
           | Some i => Some (S i)
           | None => None
           end
       end.

(** [strings.LastIndex]: the index of the last instance. *)
Fixpoint LastIndex (s sub : string) : option nat :=
  match s with
  | EmptyString => if String.prefix sub s then Some 0%nat else None
  | String _ rest =>
      match LastIndex rest sub with
      | Some i => Some (S i)
      | None => if String.prefix sub s then Some 0%nat else None
      end
  end.

(** [strings.Contains]. *)
Definition Contains (s sub : string) : bool :=
  match Index s sub with Some _ => true | None => false end.

(** [strings.HasPrefix] and [strings.TrimPrefix]. *)
Definition HasPrefix (s p : string) : bool := String.prefix p s.

Definition TrimPrefix (s p : string) : string :=
  if HasPrefix s p then sliceFrom s (String.length p) else s.

(** [s[lo:]]: [None] is the run-time panic. *)
Definition sliceEnd (s : string) (lo : nat) : option string :=
  slice s lo (String.length s).

(** The double quote, the backslash and the line feed. *)
Definition dquote : string := String (ascii_of_N 34) "".
Definition backslash : ascii := ascii_of_N 92.
Definition newline : string := String (ascii_of_N 10) "".

(** All bytes below 128. *)
Fixpoint isASCII (s : string) : bool :=
  match s with
  | EmptyString => true
  | String ch rest => (N_of_ascii ch <? 128)%N && isASCII rest
  end.

(** The byte [ch] occurs in [s]. *)
Fixpoint hasByte (ch : ascii) (s : string) : bool :=
  match s with
  | EmptyString => false
  | String ch' rest => Ascii.eqb ch' ch || hasByte ch rest
  end.

End Text.


(** An [os.DirEntry], as far as the code looks at it. *)
Record DirEntry : Type := {
  Name : string;
  IsDir : bool
}.

(** ** [pkg/3_imagecreation]: images from scenes *)

Module imagecreation.

Record ImageCreationConfig : Type := {
  HuggingFaceAPIKey : string;
  HuggingFaceModel : string;
  OutputDir : string
}.

(** The [client] field of the Go struct is the [net] of the [World]. *)
Record Creator : Type := {
  config : ImageCreationConfig
}.

Section Creation.

Context {L : GoLib} {T : GoText}.

(** The value of the [Content-Type] header of the answer to the [n]-th
    round trip. *)
Variable contentType : nat -> string.

(** [sanitizeFilename]. *)
Definition sanitizeFilename (filename : string) : string :=
  let filename := Strings.ReplaceAll1 filename " " "_" in
  let filename := Strings.ReplaceAll1 filename "/" "_" in
  let filename := Strings.ReplaceAll1 filename Text.backslash "_" in
  let filename := Strings.ReplaceAll1 filename ":" "_" in
  let filename := Strings.ReplaceAll1 filename "*" "_" in
  let filename := Strings.ReplaceAll1 filename "?" "_" in
  let filename := Strings.ReplaceAll1 filename (ascii_of_N 34) "_" in
  let filename := Strings.ReplaceAll1 filename "<" "_" in
  let filename := Strings.ReplaceAll1 filename ">" "_" in
  let filename := Strings.ReplaceAll1 filename "|" "_" in
  strings_ToLower filename.

(** The bytes [sanitizeFilename] replaces, and what it makes of a byte
    before the lower-casing. *)
Definition forbidden (ch : ascii) : bool :=
  Text.hasByte ch (" /" +:+ String Text.backslash ":*?" +:+ Text.dquote +:+ "<>|").

Definition sanitizeByte (ch : ascii) : ascii :=
  if forbidden ch then "_"%char else ch.

(** An image made from [scene] refers to it and carries its description. *)
Definition imageOf (scene : Scene) (image : Image) : Prop :=
  Image_SceneID image = Scene_ID scene
  /\ Image_Description image = Scene_Description scene.

(** What links an image to its scene. *)
Definition sceneKey (scene : Scene) : string * string :=
  (Scene_ID scene, Scene_Description scene).

Definition imageKey (image : Image) : string * string :=
  (Image_SceneID image, Image_Description image).

Definition isStableDiffusion (c : Creator) : bool :=
  Text.Contains (HuggingFaceModel (config c)) "stable-diffusion".

(** [preparePrompt]. *)
Definition preparePrompt (c : Creator) (scene : Scene) : string :=
  let prompt := Scene_Description scene in
  let prompt :=
    if negb (String.eqb (Scene_Mood scene) "")
    then prompt +:+ " The mood is " +:+ Scene_Mood scene +:+ "."
    else prompt in
  if isStableDiffusion c
  then prompt +:+ " Photorealistic, high detail, dramatic lighting, 8k, cinematic, professional photography."
  else prompt.

(** The request body of [generateImageWithHuggingFace], as the document
    [json.Marshal] writes for the map (keys in sorted order). *)
Definition requestBody (c : Creator) (scene : Scene) : JSON :=
  if isStableDiffusion c
  then JObject
         [("inputs", JString (Utf8.coerce (preparePrompt c scene)));
          ("parameters",
           JObject
             [("guidance_scale", JNumber 75 (-1));
              ("negative_prompt",
               JString "blurry, low quality, distorted, deformed, disfigured");
              ("num_inference_steps", JNumber 50 0)])]
  else JObject [("inputs", JString (Utf8.coerce (preparePrompt c scene)))].

Definition modelURL (c : Creator) : string :=
  "https://api-inference.huggingface.co/models/" +:+ HuggingFaceModel (config c).

(** The request of [generateImageWithHuggingFace]. *)
Definition imageRequest (c : Creator) (scene : Scene) : Request :=
  Header_Set "Authorization" ("Bearer " +:+ HuggingFaceAPIKey (config c))
    (Header_Set "Content-Type" "application/json"
       {| Method := "POST"; URL := modelURL c; Header := [];
          ReqBody := Some (json_encode (requestBody c scene)) |}).

(** [generateImageWithHuggingFace]. *)
Definition generateImageWithHuggingFace (c : Creator) (scene : Scene)
  : IO string := fun w =>
  let jsonBody := json_encode (requestBody c scene) in
  match http_NewRequest "POST" (modelURL c) (Some jsonBody) with
  | Err e => (Err (Errorf "failed to create request: %w" [ArgW e]), w)
  | Ok req =>
      let req := Header_Set "Content-Type" "application/json" req in
      let req := Header_Set "Authorization"
                   ("Bearer " +:+ HuggingFaceAPIKey (config c)) req in
      match client_Do req w with
      | (None, w1) =>
          (Err (Errorf "failed to send request: %w"
                  [ArgW (LibError "http.Client.Do")]), w1)
      | (Some resp, w1) =>
          match Body resp with
          | None =>
              (Err (Errorf "failed to read response: %w"
                      [ArgW (LibError "io.ReadAll")]), w1)
          | Some body =>
              if negb (StatusCode resp =? StatusOK)%Z
              then (Err (Errorf "unexpected status code: %d, body: %s"
                           [ArgD (StatusCode resp); ArgS body]), w1)
              else if Text.Contains (contentType (nreq w)) "application/json"
              then
                match json_Unmarshal_map body with
                | Some jsonResponse =>
                    match Json.getString jsonResponse "error" with
                    | Some errMsg =>
                        (Err (Errorf "API error: %s" [ArgS errMsg]), w1)
                    | None =>
                        (Err (Errorf "unexpected JSON response from image generation API" []), w1)
                    end
                | None =>
                    (Err (Errorf "unexpected JSON response from image generation API" []), w1)
                end
              else (Ok body, w1)
          end
      end
  end.

(** [createPlaceholderImage]. *)
Definition createPlaceholderImage (path : string) : IO unit := fun w =>
  match os_MkdirAll (filepath_Dir path) w with
  | (Err e, w1) => (Err e, w1)
  | (Ok _, w1) =>
      match os_Create path w1 with
      | (Err e, w2) => (Err e, w2)
      | (Ok _, w2) =>
          file_WriteString path
            "This is a placeholder for an image that would be generated by Hugging Face's API"
            w2
      end
  end.

(** [sanitizeFilename(scene.Title)[:20]]: panics on a sanitized title of
    fewer than 20 bytes. *)
Definition titlePart (scene : Scene) : option string :=
  Text.slice (sanitizeFilename (Scene_Title scene)) 0 20.

(** The body of the loop of [createPlaceholderImages] for one scene: the
    image appended, [None] after [continue], or a panic. *)
Definition placeholderFor (c : Creator) (scene : Scene)
  : World -> Outcome (option Image) * World := fun w =>
  match titlePart scene with
  | None => (Panicked, w)
  | Some title =>
      let (id, w1) := uuid_New w in
      let filename :=
        "placeholder_" +:+ title +:+ "_" +:+ substring 0 8 id +:+ ".png" in
      let imagePath := filepath_Join (OutputDir (config c)) filename in
      match createPlaceholderImage imagePath w1 with
      | (Err _, w2) => (Returned None, w2)
      | (Ok _, w2) =>
          (Returned (Some {| Image_Path := imagePath;
                             Image_SceneID := Scene_ID scene;
                             Image_Description := Scene_Description scene |}),
           time_Sleep (100 * Millisecond) w2)
      end
  end.

(** The body of the loop of [Create] for one scene. *)
Definition createImage (c : Creator) (scene : Scene)
  : World -> Outcome (option Image) * World := fun w =>
  match generateImageWithHuggingFace c scene w with
  | (Err _, w1) => (Returned None, w1)
  | (Ok imageData, w1) =>
      match titlePart scene with
      | None => (Panicked, w1)
      | Some title =>
          let (id, w2) := uuid_New w1 in
          let filename :=
            "image_" +:+ title +:+ "_" +:+ substring 0 8 id +:+ ".png" in
          let imagePath := filepath_Join (OutputDir (config c)) filename in
          match os_MkdirAll (filepath_Dir imagePath) w2 with
          | (Err _, w3) => (Returned None, w3)
          | (Ok _, w3) =>
              match os_WriteFile imagePath imageData w3 with
              | (Err _, w4) => (Returned None, w4)
              | (Ok _, w4) =>
                  (Returned (Some {| Image_Path := imagePath;
                                     Image_SceneID := Scene_ID scene;
                                     Image_Description := Scene_Description scene |}),
                   time_Sleep (2 * Second) w4)
              end
          end
      end
  end.

(** A loop over the scenes that appends what its body makes and stops at
    a panic. *)
Fixpoint imageLoop (body : Scene -> World -> Outcome (option Image) * World)
         (scenes : list Scene) (images : list Image) (w : World)
  : Outcome (list Image) * World :=
  match scenes with
  | [] => (Returned images, w)
  | scene :: rest =>
      match body scene w with
      | (Panicked, w1) => (Panicked, w1)
      | (Returned (Some image), w1) => imageLoop body rest (images ++ [image]) w1
      | (Returned None, w1) => imageLoop body rest images w1
      end
  end.

(** [createPlaceholderImages]: the error is always nil. *)
Definition createPlaceholderImages (c : Creator) (scenes : list Scene)
  : World -> Outcome (list Image * option error) * World := fun w =>
  match imageLoop (placeholderFor c) scenes [] w with
  | (Returned images, w1) => (Returned (images, None), w1)
  | (Panicked, w1) => (Panicked, w1)
  end.

Definition NoImagesCreated : error := Errorf "no images created" [].

(** [Create]. *)
Definition Create (c : Creator) (scenes : list Scene)
  : World -> Outcome (list Image * option error) * World := fun w =>
  if String.eqb (HuggingFaceAPIKey (config c)) ""
  then createPlaceholderImages c scenes w
  else
    match imageLoop (createImage c) scenes [] w with
    | (Returned [], w1) => (Returned ([], Some NoImagesCreated), w1)
    | (Returned images, w1) => (Returned (images, None), w1)
    | (Panicked, w1) => (Panicked, w1)
    end.

End Creation.

End imagecreation.

(** ** [pkg/2_scenegeneration]: scenes from headline images *)

Module scenegeneration.

Section Generation.

Context {L : GoLib} {T : GoText}.

(** What the directory calls answer: [os_Stat_IsNotExist path] is
    [os.IsNotExist(err)] for the error of [os.Stat(path)], [os_ReadDir]
    the entries [os.ReadDir] lists ([None]: an error). *)
Variable os_Stat_IsNotExist : string -> bool.
Variable os_ReadDir : string -> option (list DirEntry).

(** [isImageFile]. *)
Definition isImageFile (filename : string) : bool :=
  let ext := strings_ToLower (Filepath.Ext filename) in
  String.eqb ext ".jpg" || String.eqb ext ".jpeg" || String.eqb ext ".png"
  || String.eqb ext ".gif" || String.eqb ext ".webp".

(** A literal of [getMockScenes]: [SourceTitle] and [ID] are not set. *)
Definition mockScene (title description mood : string) : Scene :=
  {| Scene_Description := description; Scene_SourceTitle := "";
     Scene_ID := ""; Scene_Title := title; Scene_Mood := mood |}.

Definition mockScenes : list Scene :=
  [mockScene
      "Global Climate Summit"
      "An aerial view of a massive climate conference center surrounded by protesters holding colorful signs. The building is modern with glass walls reflecting the crowd. In the foreground, world leaders in formal attire shake hands while environmental activists with painted faces watch from behind barriers. The sky shows dramatic clouds with rays of sunlight breaking through, symbolizing hope amid climate challenges."
      "Tense but hopeful";
     mockScene
      "Tech Regulation Debate"
      "A split-screen visual showing two contrasting worlds. On the left, a bright, orderly digital landscape with transparent data flows and protected user information. On the right, a chaotic digital environment with shadowy figures extracting personal data. In the center, lawmakers stand at podiums debating while tech executives in sleek modern offices watch on screens. Digital privacy icons and regulation symbols float between the two worlds."
      "Confrontational";
     mockScene
      "Medical Breakthrough"
      "A laboratory bathed in blue light where researchers in white coats examine 3D holographic brain scans showing Alzheimer's affected areas gradually healing. In the foreground, an elderly patient with a hopeful expression sits while a doctor explains results. The background shows microscopic views of the treatment targeting protein buildups. Family members watch through a glass window with expressions of cautious optimism."
      "Hopeful";
     mockScene
      "Global Economic Summit"
      "A grand conference hall with representatives from major economies seated at a circular table. Digital displays show economic indicators and market trends. In the foreground, finance ministers exchange documents while advisors whisper in their ears. The background shows a world map with interconnected trade routes glowing in different intensities. Through large windows, protesters can be seen holding signs about economic inequality."
      "Tense";
     mockScene
      "Space Exploration Milestone"
      "A control room erupting in celebration as screens show a spacecraft landing on a distant planet. Engineers and scientists embrace while others stare in awe at the main display showing the first images being transmitted back. The room is bathed in blue light from monitors, with national flags and mission patches adorning the walls. Through a large window, a night sky full of stars is visible, symbolizing humanity's ongoing journey into space."
      "Triumphant";
     mockScene
      "Refugee Crisis Response"
      "A vast temporary settlement at sunset, with humanitarian workers distributing supplies. In the foreground, a doctor tends to a child while the family looks on with hope. Tents stretch to the horizon with people from diverse backgrounds helping each other. Aid helicopters hover overhead, delivering essential supplies. Despite the difficult circumstances, there are small moments of joy as children play and communities form."
      "Bittersweet";
     mockScene
      "Artificial Intelligence Breakthrough"
      "A futuristic research lab where scientists interact with a holographic AI interface. The central AI visualization is represented as a complex, pulsating neural network in blue and purple hues. Researchers of diverse backgrounds collaborate around workstations while screens display complex equations and breakthrough results. Half the room shows practical applications: medical diagnostics, climate modeling, and language translation, while subtle lighting suggests both opportunity and caution."
      "Awe-inspiring";
     mockScene
      "Cultural Heritage Preservation"
      "A team of conservationists and local community members carefully restoring an ancient temple damaged by climate events. Scaffolding surrounds parts of the structure while experts use both traditional methods and advanced technology to preserve intricate carvings. Elders share knowledge with younger generations, pointing to historical elements. The scene is bathed in warm golden light, with the surrounding landscape showing both environmental challenges and natural beauty."
      "Reverent";
     mockScene
      "Renewable Energy Revolution"
      "A dramatic landscape transformation showing half the scene with traditional fossil fuel infrastructure and the other half with advanced renewable energy technology. Workers are seen transitioning from old to new industries. In the foreground, community members celebrate the opening of a solar farm while former coal workers receive training on wind turbine maintenance. The sky transitions from smoggy gray to clear blue across the image, with birds returning to the renewed environment."
      "Hopeful transition";
     mockScene
      "Global Health Initiative"
      "A split scene showing healthcare workers delivering vaccines to remote villages alongside researchers in a state-of-the-art laboratory. The laboratory side shows scientists examining data while developing new treatments, while the field side shows the human impact of their work. A digital map in the center shows disease rates declining in real-time. People from diverse backgrounds and generations are shown both receiving care and contributing to the solution, emphasizing global cooperation."
      "Determined optimism"].

(** [getMockScenes]: [mockScenes[:MaxScenes]] panics on a negative
    bound. *)
Definition getMockScenes (g : Generator) : Outcome (list Scene) :=
  let maxScenes := MaxScenes (generator_config g) in
  if (maxScenes <? Z.of_nat (length mockScenes))%Z
  then if (maxScenes <? 0)%Z then Panicked
       else Returned (take (Z.to_nat maxScenes) mockScenes)
  else Returned mockScenes.

(** [extractSingleSceneManually]; the error is always nil. *)
Definition extractSingleSceneManually (g : Generator)
           (response imageName : string) : Outcome (Scene * option error) :=
  let title := "News Scene: " +:+ imageName in
  let description := "A visual representation of a news story." in
  let mood := "neutral" in
  match
    match Text.Index response "Title:" with
    | Some titleStart =>
        match Text.sliceEnd response titleStart with
        | Some rest =>
            match Text.Index rest Text.newline with
            | Some titleEnd =>
                strings_TrimSpace
                  <$> Text.slice response (titleStart + 6) (titleStart + titleEnd)
            | None => Some title
            end
        | None => None
        end
    | None => Some title
    end
  with
  | None => Panicked
  | Some title =>
      match
        match Text.Index response "Description:" with
        | Some descStart =>
            match Text.sliceEnd response descStart with
            | Some rest =>
                match Text.Index rest "Mood:" with
                | Some descEnd =>
                    strings_TrimSpace
                      <$> Text.slice response (descStart + 12) (descStart + descEnd)
                | None => Some description
                end
            | None => None
            end
        | None => Some description
        end
      with
      | None => Panicked
      | Some description =>
          match
            match Text.Index response "Mood:" with
            | Some moodStart =>
                match Text.sliceEnd response moodStart with
                | Some rest =>
                    match Text.Index rest Text.newline with
                    | Some moodEnd =>
                        strings_TrimSpace
                          <$> Text.slice response (moodStart + 5) (moodStart + moodEnd)
                    | None =>
                        strings_TrimSpace <$> Text.sliceEnd response (moodStart + 5)
                    end
                | None => None
                end
            | None => Some mood
            end
          with
          | None => Panicked
          | Some mood =>
              let description :=
                if String.eqb title ("News Scene: " +:+ imageName)
                   && String.eqb description "A visual representation of a news story."
                then strings_TrimSpace response
                else description in
              Returned ({| Scene_Description := description;
                           Scene_SourceTitle := imageName;
                           Scene_ID := generateSceneID imageName;
                           Scene_Title := title;
                           Scene_Mood := mood |}, None)
          end
      end
  end.

(** [parseClaudeResponseForSingleScene]; the error is always nil. *)
Definition parseClaudeResponseForSingleScene (g : Generator)
           (response imageName : string) : Outcome (Scene * option error) :=
  match Text.Index response "{", Text.LastIndex response "}" with
  | Some jsonStart, Some jsonEnd =>
      if (jsonEnd <=? jsonStart)%nat
      then extractSingleSceneManually g response imageName
      else
        match Text.slice response jsonStart (jsonEnd + 1) with
        | None => Panicked
        | Some jsonStr =>
            match json_decode jsonStr with
            | None => extractSingleSceneManually g response imageName
            | Some doc =>
                match sceneFromJSON doc with
                | None => extractSingleSceneManually g response imageName
                | Some scene =>
                    Returned ({| Scene_Description := Scene_Description scene;
                                 Scene_SourceTitle := imageName;
                                 Scene_ID := generateSceneID imageName;
                                 Scene_Title := Scene_Title scene;
                                 Scene_Mood := Scene_Mood scene |}, None)
                end
            end
        end
  | _, _ => extractSingleSceneManually g response imageName
  end.

Definition messagesURL : string := "https://api.anthropic.com/v1/messages".

(** The request body of [callClaudeAPI], as the document [json.Marshal]
    writes for the nested maps (keys in sorted order). *)
Definition messagesBody (prompt base64Image : string) : JSON :=
  JObject
    [("max_tokens", JNumber 4000 0);
     ("messages",
      JArray
        [JObject
           [("content",
             JArray
               [JObject [("text", JString (Utf8.coerce prompt));
                         ("type", JString "text")];
                JObject
                  [("source",
                    JObject [("data", JString (Utf8.coerce base64Image));
                             ("media_type", JString "image/png");
                             ("type", JString "base64")]);
                   ("type", JString "image")]]);
            ("role", JString "user")]]);
     ("model", JString "claude-3-opus-20240229")].

(** [callClaudeAPI]; [Header.Set] stores a key in its canonical form. *)
Definition callClaudeAPI (g : Generator) (prompt base64Image : string)
  : IO string := fun w =>
  let jsonBody := json_encode (messagesBody prompt base64Image) in
  match http_NewRequest "POST" messagesURL (Some jsonBody) with
  | Err e => (Err (Errorf "failed to create request: %w" [ArgW e]), w)
  | Ok req =>
      let req := Header_Set "Content-Type" "application/json" req in
      let req := Header_Set "X-Api-Key" (ClaudeKey (generator_config g)) req in
      let req := Header_Set "Anthropic-Version" "2023-06-01" req in
      match client_Do req w with
      | (None, w1) =>
          (Err (Errorf "failed to send request: %w"
                  [ArgW (LibError "http.Client.Do")]), w1)
      | (Some resp, w1) =>
          match Body resp with
          | None =>
              (Err (Errorf "failed to read response: %w"
                      [ArgW (LibError "io.ReadAll")]), w1)
          | Some body =>
              if negb (StatusCode resp =? StatusOK)%Z
              then (Err (Errorf "unexpected status code: %d, body: %s"
                           [ArgD (StatusCode resp); ArgS body]), w1)
              else
                match json_Unmarshal_map body with
                | None =>
                    (Err (Errorf "failed to parse response: %w"
                            [ArgW (LibError "json.Unmarshal")]), w1)
                | Some responseData =>
                    match Json.index responseData "content" with
                    | Some (JArray (item :: _)) =>
                        match item with
                        | JObject contentItem =>
                            match Json.getString contentItem "text" with
                            | Some text => (Ok text, w1)
                            | None =>
                                (Err (Errorf "invalid text format" []), w1)
                            end
                        | _ => (Err (Errorf "invalid content format" []), w1)
                        end
                    | _ => (Err (Errorf "invalid response format" []), w1)
                    end
                end
          end
      end
  end.

(** The prompt of [generateSceneForImage]. *)
Definition scenePrompt : string :=
  "You are an expert visual director. I'm showing you a screenshot of a BBC News headline.

Please analyze this news headline image and generate a single detailed scene description that visually represents this story.

Provide:
1. A title that captures the essence of the news story
2. A detailed visual description (150-200 words) that a text-to-image AI could use to generate a compelling image
3. The mood or atmosphere of the scene (e.g., tense, hopeful, somber)

Make the scene visually rich and emotionally impactful. Focus on creating imagery that tells the story without text.

Format your response as a JSON object with "
  +:+ Text.dquote +:+ "title"
  +:+ Text.dquote +:+ ", "
  +:+ Text.dquote +:+ "description"
  +:+ Text.dquote +:+ ", and "
  +:+ Text.dquote +:+ "mood"
  +:+ Text.dquote +:+ " fields.".

Definition NoMockScenes : error :=
  Errorf "no Claude API key provided and no mock scenes available" [].

(** [generateSceneForImage]. *)
Definition generateSceneForImage (g : Generator)
           (base64Image imageName : string)
  : World -> Outcome (Result (list Scene)) * World := fun w =>
  if String.eqb (ClaudeKey (generator_config g)) ""
  then
    match getMockScenes g with
    | Panicked => (Panicked, w)
    | Returned (scene :: _) => (Returned (Ok [scene]), w)
    | Returned [] => (Returned (Err NoMockScenes), w)
    end
  else
    match callClaudeAPI g scenePrompt base64Image w with
    | (Err e, w1) => (Returned (Err e), w1)
    | (Ok response, w1) =>
        match parseClaudeResponseForSingleScene g response imageName with
        | Panicked => (Panicked, w1)
        | Returned (scene, Some e) => (Returned (Err e), w1)
        | Returned (scene, None) => (Returned (Ok [scene]), w1)
        end
    end.

Definition imagesDir : string := "input/12_march_2025_bbc".

(** The first loop of [Generate]: the paths of the image files. *)
Fixpoint imageFilesOf (files : list DirEntry) : list string :=
  match files with
  | [] => []
  | file :: rest =>
      if negb (IsDir file) && isImageFile (Name file)
      then filepath_Join imagesDir (Name file) :: imageFilesOf rest
      else imageFilesOf rest
  end.

(** The second loop of [Generate], from the scenes collected so far. *)
Fixpoint generateLoop (g : Generator) (imageFiles : list string)
         (allScenes : list Scene) (w : World)
  : Outcome (list Scene) * World :=
  match imageFiles with
  | [] => (Returned allScenes, w)
  | imagePath :: rest =>
      match os_ReadFile imagePath w with
      | (Err _, w1) => generateLoop g rest allScenes w1
      | (Ok imageData, w1) =>
          let base64Image := base64_EncodeToString imageData in
          match generateSceneForImage g base64Image (filepath_Base imagePath) w1 with
          | (Panicked, w2) => (Panicked, w2)
          | (Returned (Err _), w2) => generateLoop g rest allScenes w2
          | (Returned (Ok scenes), w2) =>
              generateLoop g rest (allScenes ++ scenes) w2
          end
      end
  end.

Definition DirectoryNotFound : error :=
  Errorf "images directory not found: %s" [ArgS imagesDir].
Definition DirectoryUnreadable : error :=
  Errorf "failed to read images directory: %w" [ArgW (LibError "os.ReadDir")].
Definition NoImageFiles : error :=
  Errorf "no image files found in directory: %s" [ArgS imagesDir].

(** [Generate]; the [content] argument is not used by the code. *)
Definition Generate (g : Generator)
  : World -> Outcome (Result (list Scene)) * World := fun w =>
  if os_Stat_IsNotExist imagesDir
  then (Returned (Err DirectoryNotFound), w)
  else
    match os_ReadDir imagesDir with
    | None => (Returned (Err DirectoryUnreadable), w)
    | Some files =>
        match imageFilesOf files with
        | [] => (Returned (Err NoImageFiles), w)
        | imageFiles =>
            match generateLoop g imageFiles [] w with
            | (Panicked, w1) => (Panicked, w1)
            | (Returned [], w1) =>
                match getMockScenes g with
                | Panicked => (Panicked, w1)
                | Returned scenes => (Returned (Ok scenes), w1)
                end
            | (Returned allScenes, w1) => (Returned (Ok allScenes), w1)
            end
        end
    end.

End Generation.

End scenegeneration.

(** ** [cmd/video-converter]: the images of a directory *)

Module video_converter.

Section Directory.

Context {L : GoLib} {T : GoText}.

Variable os_Stat_IsNotExist : string -> bool.
Variable os_ReadDir : string -> option (list DirEntry).

(** The body of the loop of [getImagesFromDirectory]: the image
    appended for [entry], if one is. *)
Definition imageOfEntry (dir : string) (entry : DirEntry) : option Image :=
  if IsDir entry then None
  else
    let filename := Name entry in
    let ext := strings_ToLower (Filepath.Ext filename) in
    if String.eqb ext ".jpg" || String.eqb ext ".jpeg" || String.eqb ext ".png"
       || String.eqb ext ".gif" || String.eqb ext ".webp"
    then
      let sceneID := Strings.TrimSuffix filename ext in
      let sceneID :=
        if Text.HasPrefix sceneID "scene_"
        then Text.TrimPrefix sceneID "scene_"
        else sceneID in
      Some {| Image_Path := filepath_Join dir filename;
              Image_SceneID := sceneID;
              Image_Description := "" |}
    else None.

Fixpoint imagesOf (dir : string) (entries : list DirEntry) : list Image :=
  match entries with
  | [] => []
  | entry :: rest =>
      match imageOfEntry dir entry with
      | Some image => image :: imagesOf dir rest
      | None => imagesOf dir rest
      end
  end.

(** [getImagesFromDirectory]. *)
Definition getImagesFromDirectory (dir : string) : Result (list Image) :=
  if os_Stat_IsNotExist dir
  then Err (Errorf "input directory %s does not exist" [ArgS dir])
  else
    match os_ReadDir dir with
    | None =>
        Err (Errorf "failed to read directory %s: %w"
               [ArgS dir; ArgW (LibError "os.ReadDir")])
    | Some entries => Ok (imagesOf dir entries)
    end.

(** The extensions [getImagesFromDirectory] takes for images. *)
Definition imageExtensions : list string :=
  [".jpg"; ".jpeg"; ".png"; ".gif"; ".webp"].

End Directory.

End video_converter.

(** ** [cmd/image-creator]: the metadata of the images *)

Module image_creator.

Section Metadata.

Context {L : GoLib}.





End Metadata.

End image_creator.

(** ** More inputs for the examples *)

Module Samples2.

(** [strings.TrimSpace] on text whose white space is ASCII. *)
Definition isSpaceByte (ch : ascii) : bool :=
  let n := N_of_ascii ch in
  ((n =? 32) || ((9 <=? n) && (n <=? 13)))%N.

Fixpoint trimLeft (s : string) : string :=
  match s with
  | String ch rest => if isSpaceByte ch then trimLeft rest else s
  | EmptyString => s
  end.

Fixpoint trimRight (s : string) : string :=
  match s with
  | EmptyString => EmptyString
  | String ch rest =>
      match trimRight rest with
      | EmptyString => if isSpaceByte ch then EmptyString else String ch EmptyString
      | rest' => String ch rest'
      end
  end.

Definition text : GoText :=
  {| strings_ToLower := Strings.ToLower;
     strings_TrimSpace := fun s => trimRight (trimLeft s) |}.

Definition creatorOffline : imagecreation.Creator :=
  {| imagecreation.config :=
       {| imagecreation.HuggingFaceAPIKey := "";
          imagecreation.HuggingFaceModel := "stabilityai/stable-diffusion-xl-base-1.0";
          imagecreation.OutputDir := "output/images" |} |}.

Definition creatorKeyed : imagecreation.Creator :=
  {| imagecreation.config :=
       {| imagecreation.HuggingFaceAPIKey := "hf-key";
          imagecreation.HuggingFaceModel := "stabilityai/stable-diffusion-xl-base-1.0";
          imagecreation.OutputDir := "output/images" |} |}.

(** A scene with a title of seven bytes. *)
Definition sceneShort : Scene :=
  {| Scene_Description := "A quiet street";
     Scene_SourceTitle := "street.png";
     Scene_ID := "scene_street";
     Scene_Title := "Morning";
     Scene_Mood := "calm" |}.

Definition sceneLong : Scene :=
  {| Scene_Description := "An aerial view of a conference center";
     Scene_SourceTitle := "bbc headline-1.png";
     Scene_ID := "scene_bbc_headline_1";
     Scene_Title := "Global Climate Summit: Day 2?";
     Scene_Mood := "Tense but hopeful" |}.

(** A completed job whose video cannot be downloaded. *)
Definition downloadRefused : World :=
  Samples.world
    (fun n _ =>
       match n with
       | O => Samples.reply 200 (Samples.completedAt "https://cdn.example/v.mp4")
       | _ => Some {| StatusCode := 403; Body := Some "expired" |}
       end) ∅ Samples.noFault.

(** The submission is answered with a job under [jobId]. *)
Definition jobIdAnswer : World :=
  Samples.world
    (fun _ _ => Samples.reply 202 (JObject [("jobId", JString "job-8")]))
    ∅ Samples.noFault.

(** The submission is accepted without any job identifier. *)
Definition noJobAnswer : World :=
  Samples.world
    (fun _ _ => Samples.reply 200 (JObject [("state", JString "queued")]))
    ∅ Samples.noFault.

(** The submission is refused with status 429. *)
Definition rateLimited : World :=
  Samples.world
    (fun _ _ => Samples.reply 429 (JObject [("id", JString "job-9")]))
    ∅ Samples.noFault.

(** The submission is answered 200 with an error and a job. *)
Definition errorAnswer : World :=
  Samples.world
    (fun _ _ => Samples.reply 200 (JObject [("id", JString "job-9");
                                            ("error", JString "invalid image")]))
    ∅ Samples.noFault.

(** The image model answers with a JSON document. *)
Definition modelLoading : World :=
  Samples.world
    (fun _ _ => Samples.reply 200 (JObject [("error", JString "Model is loading")]))
    ∅ Samples.noFault.

Definition jsonContent : nat -> string := fun _ => "application/json".

Definition pngContent : nat -> string := fun _ => "image/png".

(** The directory of the headline images: one image, one text file, one
    directory. *)
Definition found : string -> bool := fun _ => false.

Definition headlines : string -> option (list DirEntry) := fun _ =>
  Some [ {| Name := "bbc headline-1.png"; IsDir := false |};
         {| Name := "notes.txt"; IsDir := false |};
         {| Name := "archive.png"; IsDir := true |} ].

Definition headlinePath : string :=
  "input/12_march_2025_bbc/bbc headline-1.png".

Definition generatorKeyed : Generator :=
  {| generator_config := {| ClaudeKey := "sk-test"; MaxScenes := 5 |} |}.

(** What the model answers: some words, then the scene as JSON. *)
Definition sceneText : string :=
  "Here is the scene: "
  +:+ Samples.render (JObject [("title", JString "Flood Warning");
                               ("description", JString "A river bursts its banks");
                               ("mood", JString "tense");
                               ("id", JString "scene_42")]).

Definition modelAnswers : World :=
  Samples.world
    (fun _ _ =>
       Samples.reply 200
         (JObject [("content",
                    JArray [JObject [("type", JString "text");
                                     ("text", JString sceneText)]])]))
    {[ headlinePath := "PNG-BYTES" ]} Samples.noFault.

Definition floodScene : Scene :=
  {| Scene_Description := "A river bursts its banks";
     Scene_SourceTitle := "bbc headline-1.png";
     Scene_ID := "scene_bbc_headline_1";
     Scene_Title := "Flood Warning";
     Scene_Mood := "tense" |}.

Definition headlinesOffline : World :=
  Samples.world (fun _ _ => None) {[ headlinePath := "PNG-BYTES" ]}
                Samples.noFault.

(** An image file with its extension in capital letters. *)
Definition capitalEntry : DirEntry :=
  {| Name := "scene_7.PNG"; IsDir := false |}.

End Samples2.

(** * Properties *)

(** ** One polling attempt *)

Section PollerFacts.

Context {L : GoLib}.

Lemma afterDo_trace req w : trace (afterDo req w) = trace w ++ [EvDo req].
Proof. reflexivity. Qed.

Lemma afterDo_nreq req w : nreq (afterDo req w) = S (nreq w).
Proof. reflexivity. Qed.

Lemma afterDo_net req w : net (afterDo req w) = net w.
Proof. reflexivity. Qed.

Lemma sleep_trace d w : trace (time_Sleep d w) = trace w ++ [EvSleep d].
Proof. reflexivity. Qed.

(** The attempt up to the answer of the provider: the request is the
    status query, and a readable answer is then examined. *)
Lemma pollAttempt_answer c jobID apiURL attempt w resp body :
  url_ok apiURL = true ->
  net w (nreq w) (statusRequest c apiURL) = Some resp ->
  Body resp = Some body ->
  pollAttempt c jobID apiURL attempt w =
  let w1 := afterDo (statusRequest c apiURL) w in
  if negb (StatusCode resp =? StatusOK)%Z then
    (Continue (if (StatusCode resp =? StatusNotFound)%Z && (attempt =? 1)%nat
               then alternativeURL jobID else apiURL),
     time_Sleep pollInterval w1)
  else
    match json_Unmarshal_map body with
    | None =>
        (Return (Err (Errorf "failed to parse response: %w"
                        [ArgW (LibError "json.Unmarshal")])), w1)
    | Some responseData =>
        match Json.getString responseData "status" with
        | None => (Continue apiURL, time_Sleep pollInterval w1)
        | Some status =>
            if String.eqb status COMPLETED then
              match resultLocation responseData with
              | Some videoURL =>
                  let (r, w2) := downloadVideo c videoURL w1 in (Return r, w2)
              | None => (Return (Err (MissingResultLocation responseData)), w1)
              end
            else if String.eqb status FAILED then
              (Return (Err (GenerationFailed
                              match Json.getString responseData "error" with
                              | Some errMsg => errMsg
                              | None => "unknown error"
                              end)), w1)
            else (Continue apiURL, time_Sleep pollInterval w1)
        end
    end.
Proof.
  intros Hurl Hnet Hbody.
  unfold pollAttempt, http_NewRequest. rewrite Hurl.
  change (Header_Set "X-Runway-Version" "2024-11-06"
            (Header_Set "Authorization" ("Bearer " +:+ RunwayAPIKey (config c))
               {| Method := "GET"; URL := apiURL; Header := []; ReqBody := None |}))
    with (statusRequest c apiURL).
  unfold client_Do at 1. rewrite Hnet, Hbody.
  reflexivity.
Qed.

(** A status response whose [status] is a string other than the two
    terminal values: the attempt sleeps one poll interval and goes on. *)
Lemma pollAttempt_pending c jobID apiURL attempt w m s :
  url_ok apiURL = true ->
  answers w 0 (statusRequest c apiURL) StatusOK m ->
  Json.getString m "status" = Some s ->
  terminal s = false ->
  pollAttempt c jobID apiURL attempt w =
  (Continue apiURL, time_Sleep pollInterval (afterDo (statusRequest c apiURL) w)).
Proof.
  intros Hurl (body & Hnet & Hm) Hs Ht.
  rewrite (pollAttempt_answer _ _ _ _ _ _ body Hurl Hnet eq_refl).
  cbn [StatusCode Body]. rewrite Z.eqb_refl. cbn [negb].
  rewrite Hm, Hs.
  unfold terminal in Ht. apply orb_false_elim in Ht as [-> ->].
  reflexivity.
Qed.

Lemma pollAttempt_completed c jobID apiURL attempt w m videoURL :
  url_ok apiURL = true ->
  answers w 0 (statusRequest c apiURL) StatusOK m ->
  Json.getString m "status" = Some COMPLETED ->
  resultLocation m = Some videoURL ->
  pollAttempt c jobID apiURL attempt w =
  (Return (fst (downloadVideo c videoURL (afterDo (statusRequest c apiURL) w))),
   snd (downloadVideo c videoURL (afterDo (statusRequest c apiURL) w))).
Proof.
  intros Hurl (body & Hnet & Hm) Hs Hloc.
  rewrite (pollAttempt_answer _ _ _ _ _ _ body Hurl Hnet eq_refl).
  cbn [StatusCode Body]. rewrite Z.eqb_refl. cbn [negb].
  rewrite Hm, Hs, Hloc. cbn zeta.
  change (String.eqb COMPLETED COMPLETED) with true. cbn iota.
  destruct (downloadVideo c videoURL (afterDo (statusRequest c apiURL) w)).
  reflexivity.
Qed.

Lemma pollAttempt_unresolved c jobID apiURL attempt w m :
  url_ok apiURL = true ->
  answers w 0 (statusRequest c apiURL) StatusOK m ->
  Json.getString m "status" = Some COMPLETED ->
  resultLocation m = None ->
  pollAttempt c jobID apiURL attempt w =
  (Return (Err (MissingResultLocation m)), afterDo (statusRequest c apiURL) w).
Proof.
  intros Hurl (body & Hnet & Hm) Hs Hloc.
  rewrite (pollAttempt_answer _ _ _ _ _ _ body Hurl Hnet eq_refl).
  cbn [StatusCode Body]. rewrite Z.eqb_refl. cbn [negb].
  rewrite Hm, Hs, Hloc. reflexivity.
Qed.

Lemma pollAttempt_failed c jobID apiURL attempt w m :
  url_ok apiURL = true ->
  answers w 0 (statusRequest c apiURL) StatusOK m ->
  Json.getString m "status" = Some FAILED ->
  pollAttempt c jobID apiURL attempt w =
  (Return (Err (GenerationFailed
                  match Json.getString m "error" with
                  | Some errMsg => errMsg
                  | None => "unknown error"
                  end)),
   afterDo (statusRequest c apiURL) w).
Proof.
  intros Hurl (body & Hnet & Hm) Hs.
  rewrite (pollAttempt_answer _ _ _ _ _ _ body Hurl Hnet eq_refl).
  cbn [StatusCode Body]. rewrite Z.eqb_refl. cbn [negb].
  rewrite Hm, Hs. reflexivity.
Qed.

(** The answers without a terminal status are those that carry no
    status or a status that is not terminal. *)
Lemma nonTerminal_statusOf resp s :
  nonTerminal (Some resp) = true -> statusOf resp = Some s -> terminal s = false.
Proof.
  unfold nonTerminal, statusOf.
  destruct (Body resp) as [body|]; [|discriminate].
  destruct (StatusCode resp =? StatusOK)%Z; [|discriminate].
  destruct (json_Unmarshal_map body) as [m|]; [|discriminate].
  intros H Hs. rewrite Hs in H. by apply negb_true_iff.
Qed.

Lemma statusOf_nonTerminal resp s :
  statusOf resp = Some s -> terminal s = false -> nonTerminal (Some resp) = true.
Proof.
  unfold nonTerminal, statusOf.
  destruct (Body resp) as [body|]; [|discriminate].
  destruct (StatusCode resp =? StatusOK)%Z; [|discriminate].
  destruct (json_Unmarshal_map body) as [m|]; [|discriminate].
  intros Hs Ht. by rewrite Hs, Ht.
Qed.

(** An answer without a terminal status: the attempt goes on, at the
    same URL or at the alternative one. *)
Lemma pollAttempt_nonTerminal c jobID apiURL attempt w :
  url_ok apiURL = true ->
  nonTerminal (net w (nreq w) (statusRequest c apiURL)) = true ->
  exists apiURL',
    (apiURL' = apiURL \/ apiURL' = alternativeURL jobID)
    /\ pollAttempt c jobID apiURL attempt w =
       (Continue apiURL',
        time_Sleep pollInterval (afterDo (statusRequest c apiURL) w)).
Proof.
  intros Hurl Hnt. unfold nonTerminal in Hnt.
  destruct (net w (nreq w) (statusRequest c apiURL)) as [resp|] eqn:Hnet;
    [|discriminate].
  destruct (Body resp) as [body|] eqn:Hbody; [|discriminate].
  rewrite (pollAttempt_answer _ _ _ _ _ _ body Hurl Hnet Hbody). cbn zeta.
  destruct (StatusCode resp =? StatusOK)%Z; cbn [negb].
  - destruct (json_Unmarshal_map body) as [m|]; [|discriminate].
    destruct (Json.getString m "status") as [s|].
    + apply negb_true_iff, orb_false_elim in Hnt as [-> ->].
      exists apiURL. split; [by left | reflexivity].
    + exists apiURL. split; [by left | reflexivity].
  - eexists. split; [|reflexivity].
    destruct (_ && _); [by right | by left].
Qed.

(** ** The polling loop *)

Lemma pollLoop_S c jobID remaining attempt apiURL w :
  pollLoop c jobID (S remaining) attempt apiURL w =
  match pollAttempt c jobID apiURL attempt w with
  | (Return r, w1) => (r, w1)
  | (Continue apiURL', w1) => pollLoop c jobID remaining (S attempt) apiURL' w1
  end.
Proof. reflexivity. Qed.

(** The answers seen from the world after one inconclusive attempt. *)
Lemma answers_shift w k req code m d q :
  answers w (S k) req code m ->
  answers (time_Sleep d (afterDo q w)) k req code m.
Proof.
  intros (body & Hnet & Hm). exists body. split; [|exact Hm].
  cbn [time_Sleep emit afterDo client_Do snd net nreq].
  rewrite Nat.add_succ_r. exact Hnet.
Qed.

(** Every function of the poller only adds to the trace. *)
Lemma downloadVideo_trace c url w :
  exists tail, trace (snd (downloadVideo c url w)) = trace w ++ tail.
Proof.
  unfold downloadVideo.
  destruct (http_NewRequest "GET" url None) as [req|e]; cbn [snd].
  - unfold client_Do. destruct (net w (nreq w) req) as [resp|]; cbn [snd].
    + destruct (negb _); [|destruct (Body resp)]; cbn [snd trace]; eauto.
    + cbn [trace]. eauto.
  - exists []. by rewrite app_nil_r.
Qed.

Lemma pollAttempt_trace c jobID apiURL attempt w :
  url_ok apiURL = true ->
  exists tail,
    trace (snd (pollAttempt c jobID apiURL attempt w)) =
    trace w ++ EvDo (statusRequest c apiURL) :: tail.
Proof.
  intros Hurl.
  destruct (net w (nreq w) (statusRequest c apiURL)) as [resp|] eqn:Hnet.
  - destruct (Body resp) as [body|] eqn:Hbody.
    + rewrite (pollAttempt_answer _ _ _ _ _ _ body Hurl Hnet Hbody). cbn zeta.
      assert (Hdl : forall u,
        exists tail,
          trace (snd (let (r, w2) :=
                        downloadVideo c u (afterDo (statusRequest c apiURL) w)
                      in (Return r, w2))) =
          trace w ++ EvDo (statusRequest c apiURL) :: tail).
      { intros u.
        destruct (downloadVideo_trace c u (afterDo (statusRequest c apiURL) w))
          as [tail Ht].
        destruct (downloadVideo c u _) as [r w2]. cbn [snd] in *.
        exists tail. rewrite Ht, afterDo_trace, <- app_assoc. reflexivity. }
      destruct (negb _).
      * exists [EvSleep pollInterval]. cbn [snd].
        rewrite sleep_trace, afterDo_trace, <- app_assoc. reflexivity.
      * destruct (json_Unmarshal_map body) as [m|];
          [|exists []; reflexivity].
        destruct (Json.getString m "status") as [st|].
        -- destruct (String.eqb st COMPLETED).
           ++ destruct (resultLocation m) as [u|]; [apply Hdl|].
              exists []. reflexivity.
           ++ destruct (String.eqb st FAILED); [exists []; reflexivity|].
              exists [EvSleep pollInterval]. cbn [snd].
              rewrite sleep_trace, afterDo_trace, <- app_assoc. reflexivity.
        -- exists [EvSleep pollInterval]. cbn [snd].
           rewrite sleep_trace, afterDo_trace, <- app_assoc. reflexivity.
    + unfold pollAttempt, http_NewRequest. rewrite Hurl.
      change (Header_Set "X-Runway-Version" "2024-11-06" _)
        with (statusRequest c apiURL).
      unfold client_Do at 1. rewrite Hnet, Hbody. exists []. reflexivity.
  - unfold pollAttempt, http_NewRequest. rewrite Hurl.
    change (Header_Set "X-Runway-Version" "2024-11-06" _)
      with (statusRequest c apiURL).
    unfold client_Do at 1. rewrite Hnet. exists []. reflexivity.
Qed.

Lemma pollAttempt_trace_ext c jobID apiURL attempt w :
  exists tail,
    trace (snd (pollAttempt c jobID apiURL attempt w)) = trace w ++ tail.
Proof.
  destruct (url_ok apiURL) eqn:Hurl.
  - destruct (pollAttempt_trace c jobID apiURL attempt w Hurl) as [tail Ht].
    eauto.
  - unfold pollAttempt, http_NewRequest. rewrite Hurl. exists [].
    by rewrite app_nil_r.
Qed.

Lemma pollLoop_trace_ext c jobID remaining :
  forall attempt apiURL w,
  exists tail,
    trace (snd (pollLoop c jobID remaining attempt apiURL w)) = trace w ++ tail.
Proof.
  induction remaining as [|r IH]; intros attempt apiURL w.
  - exists []. by rewrite app_nil_r.
  - rewrite pollLoop_S.
    destruct (pollAttempt_trace_ext c jobID apiURL attempt w) as [t1 Ht1].
    destruct (pollAttempt c jobID apiURL attempt w) as [[url'|r0] w1];
      cbn [snd] in *.
    + destruct (IH (S attempt) url' w1) as [t2 Ht2].
      exists (t1 ++ t2). by rewrite Ht2, Ht1, app_assoc.
    + eauto.
Qed.

(** While the loop condition holds, the first thing the loop does is a
    status query. *)
Lemma pollLoop_first_query c jobID remaining attempt apiURL w :
  url_ok apiURL = true ->
  exists tail,
    trace (snd (pollLoop c jobID (S remaining) attempt apiURL w)) =
    trace w ++ EvDo (statusRequest c apiURL) :: tail.
Proof.
  intros Hurl. rewrite pollLoop_S.
  destruct (pollAttempt_trace c jobID apiURL attempt w Hurl) as [t1 Ht1].
  destruct (pollAttempt c jobID apiURL attempt w) as [[url'|r0] w1];
    cbn [snd] in *; [|eauto].
  destruct (pollLoop_trace_ext c jobID remaining (S attempt) url' w1)
    as [t2 Ht2].
  exists (t1 ++ t2). rewrite Ht2, Ht1, <- app_assoc. reflexivity.
Qed.

(** The trace of [n] inconclusive attempts. *)
Lemma requestsOf_turns c urls :
  length (requestsOf (concat (map (pollTurn c) urls))) = length urls.
Proof.
  induction urls as [|u urls IH]; [reflexivity|].
  change (S (length (requestsOf (concat (map (pollTurn c) urls))))
          = S (length urls)).
  by rewrite IH.
Qed.

Lemma sleepsOf_turns c urls :
  sleepsOf (concat (map (pollTurn c) urls)) = repeat pollInterval (length urls).
Proof.
  induction urls as [|u urls IH]; [reflexivity|].
  change (pollInterval :: sleepsOf (concat (map (pollTurn c) urls))
          = pollInterval :: repeat pollInterval (length urls)).
  by rewrite IH.
Qed.

(** With answers that never carry a terminal status the loop uses up all
    the attempts the loop condition allows, one status query and one
    sleep of [pollInterval] each, and ends on [PollTimeout]. *)
Lemma pollLoop_exhausts c jobID remaining :
  url_ok (statusURL jobID) = true ->
  url_ok (alternativeURL jobID) = true ->
  forall attempt apiURL w,
    (apiURL = statusURL jobID \/ apiURL = alternativeURL jobID) ->
    (forall n req, nonTerminal (net w n req) = true) ->
    exists urls,
      length urls = remaining
      /\ Forall (fun u => u = statusURL jobID \/ u = alternativeURL jobID) urls
      /\ fst (pollLoop c jobID remaining attempt apiURL w) = Err PollTimeout
      /\ trace (snd (pollLoop c jobID remaining attempt apiURL w)) =
         trace w ++ concat (map (pollTurn c) urls)
      /\ nreq (snd (pollLoop c jobID remaining attempt apiURL w)) =
         (remaining + nreq w)%nat.
Proof.
  intros Hs Ha. induction remaining as [|r IH]; intros attempt apiURL w Hu Hnt.
  - exists []. cbn. by rewrite app_nil_r.
  - assert (Hurl : url_ok apiURL = true) by (destruct Hu; by subst).
    destruct (pollAttempt_nonTerminal c jobID apiURL attempt w Hurl (Hnt _ _))
      as (url' & Hu' & Hstep).
    rewrite pollLoop_S, Hstep.
    assert (Hu'' : url' = statusURL jobID \/ url' = alternativeURL jobID)
      by (destruct Hu'; [by subst | by right]).
    destruct (IH (S attempt) url'
                (time_Sleep pollInterval (afterDo (statusRequest c apiURL) w))
                Hu'' Hnt)
      as (urls & Hlen & Hall & Hres & Htr & Hn).
    exists (apiURL :: urls). repeat split.
    + cbn. by rewrite Hlen.
    + by constructor.
    + exact Hres.
    + rewrite Htr, sleep_trace, afterDo_trace. cbn [map concat pollTurn].
      rewrite <- !app_assoc. reflexivity.
    + rewrite Hn. cbn [time_Sleep emit nreq]. rewrite afterDo_nreq. lia.
Qed.

End PollerFacts.

(** ** The poller: result location, time-out, status handling *)

Section PollerClaims.

Context {L : GoLib}.

Lemma downloadVideo_ok c url w data :
  url_ok url = true ->
  net w (nreq w) (downloadRequest url) =
    Some {| StatusCode := StatusOK; Body := Some data |} ->
  downloadVideo c url w = (Ok data, afterDo (downloadRequest url) w).
Proof.
  intros Hurl Hnet. unfold downloadVideo, http_NewRequest. rewrite Hurl.
  fold (downloadRequest url). unfold client_Do at 1. rewrite Hnet.
  reflexivity.
Qed.

(** The Go poller looks for the video URL at [videoUrl] first ... *)
Lemma resultLocation_videoUrl m url :
  Json.getString m "videoUrl" = Some url -> resultLocation m = Some url.
Proof. intros H. unfold resultLocation. by rewrite H. Qed.

(** ... then at [output.video] ... *)
Lemma resultLocation_output_video m output url :
  Json.getString m "videoUrl" = None ->
  Json.getMap m "output" = Some output ->
  Json.getString output "video" = Some url ->
  resultLocation m = Some url.
Proof. intros H1 H2 H3. unfold resultLocation. by rewrite H1, H2. Qed.

(** ... and nowhere else. *)
Lemma resultLocation_exhausted m :
  resultLocation m = None <->
  Json.getString m "videoUrl" = None
  /\ (Json.getMap m "output" = None
      \/ exists output, Json.getMap m "output" = Some output
                        /\ Json.getString output "video" = None).
Proof.
  unfold resultLocation.
  destruct (Json.getString m "videoUrl") as [u|].
  - split; [discriminate | intros [? _]; discriminate].
  - destruct (Json.getMap m "output") as [o|].
    + split.
      * intros H. split; [reflexivity|]. right. by exists o.
      * intros [_ [H | (o' & Ho & H)]]; [discriminate|]. by injection Ho as ->.
    + split; [intros _; split; [reflexivity | by left] | reflexivity].
Qed.

(** A completed response with the result nested at [output.video] and no
    string at [videoUrl]: the poller downloads from [output.video]. *)
Lemma pollLoop_resolves_output_video
      c jobID remaining attempt apiURL w m output url data :
  url_ok apiURL = true ->
  answers w 0 (statusRequest c apiURL) StatusOK m ->
  Json.getString m "status" = Some COMPLETED ->
  Json.getString m "videoUrl" = None ->
  Json.getMap m "output" = Some output ->
  Json.getString output "video" = Some url ->
  url_ok url = true ->
  net w (1 + nreq w)%nat (downloadRequest url) =
    Some {| StatusCode := StatusOK; Body := Some data |} ->
  fst (pollLoop c jobID (S remaining) attempt apiURL w) = Ok data
  /\ requestsOf (trace (snd (pollLoop c jobID (S remaining) attempt apiURL w))) =
     requestsOf (trace w) ++ [statusRequest c apiURL; downloadRequest url].
Proof.
  intros Hurl Hans Hst Hv Ho Hov Hu Hnet.
  rewrite pollLoop_S,
    (pollAttempt_completed _ _ _ _ _ _ url Hurl Hans Hst
       (resultLocation_output_video _ _ _ Hv Ho Hov)).
  rewrite (downloadVideo_ok c url (afterDo (statusRequest c apiURL) w) data
             Hu Hnet).
  cbn [fst snd].
  split; [reflexivity|].
  rewrite !afterDo_trace. unfold requestsOf. rewrite !omap_app. cbn.
  by rewrite <- app_assoc.
Qed.

(** The Node script looks at [output] first: an array gives its first
    element, an object its [video]. *)
Lemma JS_resultLocation_output_video task output url :
  Json.index task "output" = Some (JObject output) ->
  Json.index output "video" = Some (JString url) ->
  url <> "" ->
  JS.resultLocation task = Some (JString url).
Proof.
  intros Ho Hv Hne.
  assert (Ht : JS.truthy (Some (JString url)) = true).
  { cbn. by destruct (String.eqb_spec url ""). }
  unfold JS.resultLocation, JS.videoUrl, JS.prop. rewrite Ho.
  cbn [JS.truthy]. rewrite Hv, Ht. by rewrite Ht.
Qed.

(** C2.  The specification lists three shapes for the result location,
    [videoUrl], [output.video] and [output[0]], tried in this order.  The
    Go poller tries the first two only: on a completed response that
    keeps the URL in an array at [output], and has no string at
    [videoUrl], it fails with [MissingResultLocation] after the status
    query, without a download, although the Node implementation of the
    same converter resolves this very response to [output[0]]. *)
Theorem pollLoop_output_array_unresolved
        c jobID remaining attempt apiURL w m url rest :
  url_ok apiURL = true ->
  answers w 0 (statusRequest c apiURL) StatusOK m ->
  Json.getString m "status" = Some COMPLETED ->
  Json.getString m "videoUrl" = None ->
  Json.index m "output" = Some (JArray (JString url :: rest)) ->
  url <> "" ->
  fst (pollLoop c jobID (S remaining) attempt apiURL w) =
    Err (MissingResultLocation m)
  /\ trace (snd (pollLoop c jobID (S remaining) attempt apiURL w)) =
     trace w ++ [EvDo (statusRequest c apiURL)]
  /\ JS.resultLocation m = Some (JString url).
Proof.
  intros Hurl Hans Hst Hv Ho Hne.
  assert (Hloc : resultLocation m = None).
  { unfold resultLocation, Json.getMap. by rewrite Hv, Ho. }
  rewrite pollLoop_S, (pollAttempt_unresolved _ _ _ _ _ _ Hurl Hans Hst Hloc).
  cbn [fst snd]. repeat split.
  unfold JS.resultLocation, JS.videoUrl, JS.prop. rewrite Ho.
  cbn [JS.truthy].
  destruct (String.eqb_spec url "") as [->|_]; [done | reflexivity].
Qed.

(** C3.  When no answer ever carries a terminal status, [pollForVideo]
    makes 60 status queries, sleeps the same [pollInterval] after each of
    them, fails with [PollTimeout], and the 60th turn is the last thing
    it does. *)
Theorem pollForVideo_times_out c jobID w :
  url_ok (statusURL jobID) = true ->
  url_ok (alternativeURL jobID) = true ->
  (forall n req, nonTerminal (net w n req) = true) ->
  exists urls,
    length urls = 60%nat
    /\ Forall (fun u => u = statusURL jobID \/ u = alternativeURL jobID) urls
    /\ fst (pollForVideo c jobID w) = Err PollTimeout
    /\ trace (snd (pollForVideo c jobID w)) =
       trace w ++ concat (map (pollTurn c) urls)
    /\ length (requestsOf (concat (map (pollTurn c) urls))) = 60%nat
    /\ sleepsOf (concat (map (pollTurn c) urls)) = repeat pollInterval 60
    /\ nreq (snd (pollForVideo c jobID w)) = (60 + nreq w)%nat.
Proof.
  intros Hs Ha Hnt.
  destruct (pollLoop_exhausts c jobID maxAttempts Hs Ha 1%nat (statusURL jobID) w
              (or_introl eq_refl) Hnt)
    as (urls & Hlen & Hall & Hres & Htr & Hn).
  exists urls. unfold pollForVideo.
  rewrite requestsOf_turns, sleepsOf_turns, Hlen.
  repeat split; assumption.
Qed.

(** C4.  Answers QUEUED, RUNNING, RUNNING, then a completed response with
    a result location that downloads: [pollForVideo] makes exactly four
    status queries, then the download, and returns the downloaded bytes;
    the download is the last round trip. *)
Theorem pollForVideo_four_answers c jobID w m1 m2 m3 m4 videoURL data :
  url_ok (statusURL jobID) = true ->
  answers w 0 (statusRequest c (statusURL jobID)) StatusOK m1 ->
  Json.getString m1 "status" = Some "QUEUED" ->
  answers w 1 (statusRequest c (statusURL jobID)) StatusOK m2 ->
  Json.getString m2 "status" = Some "RUNNING" ->
  answers w 2 (statusRequest c (statusURL jobID)) StatusOK m3 ->
  Json.getString m3 "status" = Some "RUNNING" ->
  answers w 3 (statusRequest c (statusURL jobID)) StatusOK m4 ->
  Json.getString m4 "status" = Some COMPLETED ->
  resultLocation m4 = Some videoURL ->
  url_ok videoURL = true ->
  net w (4 + nreq w)%nat (downloadRequest videoURL) =
    Some {| StatusCode := StatusOK; Body := Some data |} ->
  fst (pollForVideo c jobID w) = Ok data
  /\ trace (snd (pollForVideo c jobID w)) =
     trace w ++ [EvDo (statusRequest c (statusURL jobID)); EvSleep pollInterval;
                 EvDo (statusRequest c (statusURL jobID)); EvSleep pollInterval;
                 EvDo (statusRequest c (statusURL jobID)); EvSleep pollInterval;
                 EvDo (statusRequest c (statusURL jobID));
                 EvDo (downloadRequest videoURL)]
  /\ nreq (snd (pollForVideo c jobID w)) = (5 + nreq w)%nat.
Proof.
  intros Hurl H1 S1 H2 S2 H3 S3 H4 S4 Hloc Hv Hdl.
  unfold pollForVideo, maxAttempts.
  set (q := statusRequest c (statusURL jobID)) in *.
  rewrite pollLoop_S, (pollAttempt_pending _ _ _ _ _ _ _ Hurl H1 S1 eq_refl).
  apply (answers_shift _ _ _ _ _ pollInterval q) in H2, H3, H4.
  rewrite pollLoop_S, (pollAttempt_pending _ _ _ _ _ _ _ Hurl H2 S2 eq_refl).
  apply (answers_shift _ _ _ _ _ pollInterval q) in H3, H4.
  rewrite pollLoop_S, (pollAttempt_pending _ _ _ _ _ _ _ Hurl H3 S3 eq_refl).
  apply (answers_shift _ _ _ _ _ pollInterval q) in H4.
  rewrite pollLoop_S, (pollAttempt_completed _ _ _ _ _ _ _ Hurl H4 S4 Hloc).
  match goal with
  | |- context [downloadVideo c videoURL ?w3] =>
      rewrite (downloadVideo_ok c videoURL w3 data Hv Hdl)
  end.
  cbn [fst snd]. repeat split.
  repeat (rewrite afterDo_trace || rewrite sleep_trace).
  rewrite <- !app_assoc. reflexivity.
Qed.

(** C5.  A status response whose status string is neither of the two
    terminal values is handled as RUNNING: the attempt does not return,
    it sleeps [pollInterval], and the loop goes on with the next attempt,
    whose first action is the next status query; when it was the last
    attempt allowed, the loop ends on [PollTimeout]. *)
Theorem pollLoop_unrecognized_status c jobID remaining attempt apiURL w m s :
  url_ok apiURL = true ->
  answers w 0 (statusRequest c apiURL) StatusOK m ->
  Json.getString m "status" = Some s ->
  s <> COMPLETED ->
  s <> FAILED ->
  pollAttempt c jobID apiURL attempt w =
    (Continue apiURL,
     time_Sleep pollInterval (afterDo (statusRequest c apiURL) w))
  /\ pollLoop c jobID (S remaining) attempt apiURL w =
     pollLoop c jobID remaining (S attempt) apiURL
       (time_Sleep pollInterval (afterDo (statusRequest c apiURL) w))
  /\ (remaining = 0%nat ->
      pollLoop c jobID (S remaining) attempt apiURL w =
      (Err PollTimeout,
       time_Sleep pollInterval (afterDo (statusRequest c apiURL) w)))
  /\ (remaining <> 0%nat ->
      exists tail,
        trace (snd (pollLoop c jobID (S remaining) attempt apiURL w)) =
        trace w ++ [EvDo (statusRequest c apiURL); EvSleep pollInterval;
                    EvDo (statusRequest c apiURL)] ++ tail).
Proof.
  intros Hurl Hans Hs Hc Hf.
  assert (Ht : terminal s = false).
  { unfold terminal.
    destruct (String.eqb_spec s COMPLETED); [done|].
    destruct (String.eqb_spec s FAILED); [done | reflexivity]. }
  pose proof (pollAttempt_pending c jobID apiURL attempt w m s Hurl Hans Hs Ht)
    as Hstep.
  split; [exact Hstep|]. rewrite pollLoop_S, Hstep.
  split; [reflexivity|]. split.
  - intros ->. reflexivity.
  - intros Hr. destruct remaining as [|r]; [done|].
    destruct (pollLoop_first_query c jobID r (S attempt) apiURL
                (time_Sleep pollInterval (afterDo (statusRequest c apiURL) w))
                Hurl) as [tail Ht'].
    exists tail. rewrite Ht', sleep_trace, afterDo_trace, <- !app_assoc.
    reflexivity.
Qed.

(** C6.  A status response with the failed status makes the poller fail
    with [GenerationFailed]: with the provider's [error] string when the
    response has one, with the generic message otherwise; the status
    query is its last round trip, so nothing is downloaded. *)
Theorem pollLoop_generation_failed c jobID remaining attempt apiURL w m :
  url_ok apiURL = true ->
  answers w 0 (statusRequest c apiURL) StatusOK m ->
  Json.getString m "status" = Some FAILED ->
  (forall message,
      Json.getString m "error" = Some message ->
      fst (pollLoop c jobID (S remaining) attempt apiURL w) =
      Err (GenerationFailed message))
  /\ (Json.getString m "error" = None ->
      fst (pollLoop c jobID (S remaining) attempt apiURL w) =
      Err (GenerationFailed "unknown error"))
  /\ trace (snd (pollLoop c jobID (S remaining) attempt apiURL w)) =
     trace w ++ [EvDo (statusRequest c apiURL)]
  /\ nreq (snd (pollLoop c jobID (S remaining) attempt apiURL w)) = S (nreq w).
Proof.
  intros Hurl Hans Hst.
  rewrite pollLoop_S, (pollAttempt_failed _ _ _ _ _ _ Hurl Hans Hst).
  cbn [fst snd]. repeat split.
  - by intros message ->.
  - by intros ->.
Qed.

End PollerClaims.

(** ** The orchestrator *)

Section OrchestratorFacts.

Context {L : GoLib}.

Lemma extends_refl w : extends w w.
Proof. exists []. by rewrite app_nil_r. Qed.

Lemma extends_trans w1 w2 w3 : extends w1 w2 -> extends w2 w3 -> extends w1 w3.
Proof.
  intros [t1 H1] [t2 H2]. exists (t1 ++ t2). by rewrite H2, H1, app_assoc.
Qed.

Lemma extends_emit e w : extends w (emit e w).
Proof. by exists [e]. Qed.

Lemma extends_elem e w w' : extends w w' -> e ∈ trace w -> e ∈ trace w'.
Proof. intros [t ->] H. apply elem_of_app. by left. Qed.

Lemma os_ReadFile_trace path w :
  trace (snd (os_ReadFile path w)) = trace w ++ [EvFs (OpReadFile path)].
Proof.
  unfold os_ReadFile. destruct (fsFault w _); [reflexivity|].
  by destruct (files w !! path).
Qed.

Lemma os_MkdirAll_trace path w :
  trace (snd (os_MkdirAll path w)) = trace w ++ [EvFs (OpMkdirAll path)].
Proof. unfold os_MkdirAll. by destruct (fsFault w _). Qed.

Lemma os_WriteFile_trace path data w :
  trace (snd (os_WriteFile path data w)) = trace w ++ [EvFs (OpWriteFile path)].
Proof. unfold os_WriteFile. by destruct (fsFault w _). Qed.

Lemma os_Create_trace path w :
  trace (snd (os_Create path w)) = trace w ++ [EvFs (OpCreate path)].
Proof. unfold os_Create. by destruct (fsFault w _). Qed.

Lemma file_WriteString_trace path text w :
  trace (snd (file_WriteString path text w)) =
  trace w ++ [EvFs (OpWriteString path)].
Proof. unfold file_WriteString. by destruct (fsFault w _). Qed.

Lemma shortID_trace w : trace (snd (shortID w)) = trace w.
Proof. reflexivity. Qed.

Lemma pollForVideo_extends c jobID w : extends w (snd (pollForVideo c jobID w)).
Proof. apply pollLoop_trace_ext. Qed.

Lemma generateVideoWithRunway_extends c imageData description w :
  extends w (snd (generateVideoWithRunway c imageData description w)).
Proof.
  unfold generateVideoWithRunway.
  destruct (http_NewRequest _ _ _) as [req|e]; [|apply extends_refl].
  set (req' := Header_Set _ _ (Header_Set _ _ (Header_Set _ _ req))).
  assert (Hdo : extends w (afterDo req' w)) by (by exists [EvDo req']).
  change (client_Do req' w) with (net w (nreq w) req', afterDo req' w).
  destruct (net w (nreq w) req') as [resp|]; [|exact Hdo].
  destruct (Body resp) as [body|]; [|exact Hdo].
  destruct (_ && _); [exact Hdo|].
  destruct (json_Unmarshal_map body) as [m|]; [|exact Hdo].
  destruct (Json.getString m "error"); [exact Hdo|].
  destruct (Json.getString m "id") as [jobID|];
    [exact (extends_trans _ _ _ Hdo (pollForVideo_extends _ _ _))|].
  destruct (Json.getString m "jobId") as [jobID|];
    [exact (extends_trans _ _ _ Hdo (pollForVideo_extends _ _ _)) | exact Hdo].
Qed.

(** Whatever happens to an image, [Convert] starts on it by reading its
    file, and only adds to the trace. *)
Lemma convertImage_reads c image w :
  exists tail,
    trace (snd (convertImage c image w)) =
    trace w ++ EvFs (OpReadFile (Image_Path image)) :: tail.
Proof.
  unfold convertImage.
  pose proof (os_ReadFile_trace (Image_Path image) w) as Hr.
  destruct (os_ReadFile (Image_Path image) w) as [[imageData|e] w1];
    cbn [snd] in *; [|exists []; exact Hr].
  destruct (generateVideoWithRunway_extends c imageData
              (Image_Description image) w1) as [t2 H2].
  destruct (generateVideoWithRunway c imageData (Image_Description image) w1)
    as [[videoData|e] w2]; cbn [snd] in *;
    [|exists t2; by rewrite H2, Hr, <- app_assoc].
  pose proof (shortID_trace w2) as H3.
  destruct (shortID w2) as [id w3]; cbn [snd] in *.
  set (videoPath := filepath_Join _ _).
  pose proof (os_MkdirAll_trace (filepath_Dir videoPath) w3) as H4.
  destruct (os_MkdirAll (filepath_Dir videoPath) w3) as [[[]|e] w4];
    cbn [snd] in *;
    [|eexists; by rewrite H4, H3, H2, Hr, <- !app_assoc].
  pose proof (os_WriteFile_trace videoPath videoData w4) as H5.
  destruct (os_WriteFile videoPath videoData w4) as [[[]|e] w5];
    cbn [snd] in *.
  - eexists. rewrite sleep_trace, H5, H4, H3, H2, Hr.
    by rewrite <- !app_assoc.
  - eexists. by rewrite H5, H4, H3, H2, Hr, <- !app_assoc.
Qed.

Lemma convertImage_extends c image w :
  extends w (snd (convertImage c image w)).
Proof. destruct (convertImage_reads c image w) as [t H]. eexists; eauto. Qed.

(** The fields of a video made by [Convert]. *)
Lemma convertImage_video c image w : videoOf c image (fst (convertImage c image w)).
Proof.
  unfold convertImage.
  destruct (os_ReadFile _ w) as [[imageData|e] w1]; [|exact I].
  destruct (generateVideoWithRunway _ _ _ w1) as [[videoData|e] w2]; [|exact I].
  destruct (shortID w2) as [id w3].
  destruct (os_MkdirAll _ w3) as [[[]|e] w4]; [|exact I].
  destruct (os_WriteFile _ _ w4) as [[[]|e] w5]; [|exact I].
  split; reflexivity.
Qed.

(** The loop of [Convert] appends, in input order, the videos of the
    images that succeed, and goes through every image. *)
Lemma convertLoop_outcomes c images :
  forall videos w,
    fst (convertLoop c images videos w) =
    videos ++ omap id (convertOutcomes c images w).
Proof.
  induction images as [|image rest IH]; intros videos w.
  - cbn. by rewrite app_nil_r.
  - cbn [convertLoop convertOutcomes].
    destruct (convertImage c image w) as [[v|] w1].
    + rewrite IH. cbn. by rewrite <- app_assoc.
    + by rewrite IH.
Qed.

Lemma convertOutcomes_length c images :
  forall w, length (convertOutcomes c images w) = length images.
Proof.
  induction images as [|image rest IH]; intros w; [reflexivity|].
  cbn [convertOutcomes]. destruct (convertImage c image w) as [o w1].
  cbn. by rewrite IH.
Qed.

Lemma convertOutcomes_videos c images :
  forall w, Forall2 (videoOf c) images (convertOutcomes c images w).
Proof.
  induction images as [|image rest IH]; intros w; [constructor|].
  cbn [convertOutcomes].
  pose proof (convertImage_video c image w) as Hv.
  destruct (convertImage c image w) as [o w1]. by constructor.
Qed.

Lemma convertLoop_extends c images :
  forall videos w, extends w (snd (convertLoop c images videos w)).
Proof.
  induction images as [|image rest IH]; intros videos w; [apply extends_refl|].
  cbn [convertLoop].
  pose proof (convertImage_extends c image w) as H1.
  destruct (convertImage c image w) as [[v|] w1]; cbn [snd] in H1;
    exact (extends_trans _ _ _ H1 (IH _ _)).
Qed.

Lemma convertLoop_reads_all c images :
  forall videos w image,
    image ∈ images ->
    EvFs (OpReadFile (Image_Path image)) ∈ trace (snd (convertLoop c images videos w)).
Proof.
  induction images as [|image0 rest IH]; intros videos w image Hin.
  - by apply elem_of_nil in Hin.
  - cbn [convertLoop].
    destruct (convertImage_reads c image0 w) as [t Ht].
    apply elem_of_cons in Hin as [->|Hin].
    + assert (Hhere : EvFs (OpReadFile (Image_Path image0))
                        ∈ trace (snd (convertImage c image0 w))).
      { rewrite Ht. apply elem_of_app. right. apply elem_of_cons. by left. }
      destruct (convertImage c image0 w) as [[v|] w1]; cbn [snd] in Hhere;
        exact (extends_elem _ _ _ (convertLoop_extends _ _ _ _) Hhere).
    + destruct (convertImage c image0 w) as [[v|] w1]; by apply IH.
Qed.

Lemma omap_id_length {A} (l : list (option A)) :
  (length (omap id l) <= length l)%nat.
Proof.
  induction l as [|[a|] l IH]; cbn; lia.
Qed.

Lemma omap_id_nil {A} (l : list (option A)) :
  omap id l = [] <-> forall o, o ∈ l -> o = None.
Proof.
  induction l as [|[a|] l IH]; cbn.
  - split; [intros _ o Ho; by apply elem_of_nil in Ho | reflexivity].
  - split; [discriminate|]. intros H.
    specialize (H (Some a) ltac:(apply elem_of_cons; by left)). discriminate.
  - rewrite IH. split.
    + intros H o Ho. apply elem_of_cons in Ho as [->|Ho]; [reflexivity|by apply H].
    + intros H o Ho. apply H. apply elem_of_cons. by right.
Qed.

Lemma offlineStep_refl w : offlineStep w w.
Proof. by split. Qed.

Lemma offlineStep_trans w1 w2 w3 :
  offlineStep w1 w2 -> offlineStep w2 w3 -> offlineStep w1 w3.
Proof. intros [H1 F1] [H2 F2]. split; congruence. Qed.

Lemma offlineStep_fs op w : offlineStep w (emit (EvFs op) w).
Proof.
  split; [|reflexivity]. cbn [emit trace]. unfold requestsOf.
  rewrite omap_app. cbn. by rewrite app_nil_r.
Qed.

Lemma offlineStep_sleep d w : offlineStep w (time_Sleep d w).
Proof.
  split; [|reflexivity]. cbn [time_Sleep emit trace]. unfold requestsOf.
  rewrite omap_app. cbn. by rewrite app_nil_r.
Qed.

Lemma offlineStep_setFile path data w : offlineStep w (setFile path data w).
Proof. by split. Qed.

Lemma os_MkdirAll_offline path w : offlineStep w (snd (os_MkdirAll path w)).
Proof. unfold os_MkdirAll. destruct (fsFault w _); apply offlineStep_fs. Qed.

Lemma os_Create_offline path w : offlineStep w (snd (os_Create path w)).
Proof.
  unfold os_Create. destruct (fsFault w _); cbn [snd];
    [apply offlineStep_fs|].
  exact (offlineStep_trans _ _ _ (offlineStep_fs _ _) (offlineStep_setFile _ _ _)).
Qed.

Lemma file_WriteString_offline path text w :
  offlineStep w (snd (file_WriteString path text w)).
Proof.
  unfold file_WriteString. destruct (fsFault w _); cbn [snd];
    [apply offlineStep_fs|].
  exact (offlineStep_trans _ _ _ (offlineStep_fs _ _) (offlineStep_setFile _ _ _)).
Qed.

Lemma createPlaceholderVideo_offline path w :
  offlineStep w (snd (createPlaceholderVideo path w)).
Proof.
  unfold createPlaceholderVideo.
  pose proof (os_MkdirAll_offline (filepath_Dir path) w) as H1.
  destruct (os_MkdirAll (filepath_Dir path) w) as [[[]|e] w1]; cbn [snd] in *;
    [|exact H1].
  pose proof (os_Create_offline path w1) as H2.
  destruct (os_Create path w1) as [[[]|e] w2]; cbn [snd] in *;
    [|exact (offlineStep_trans _ _ _ H1 H2)].
  exact (offlineStep_trans _ _ _ H1
           (offlineStep_trans _ _ _ H2 (file_WriteString_offline _ _ _))).
Qed.

(** With no fault of the file system the placeholder file is created. *)
Lemma createPlaceholderVideo_ok path w :
  (forall op, fsFault w op = false) ->
  fst (createPlaceholderVideo path w) = Ok tt.
Proof.
  intros Hok. unfold createPlaceholderVideo, os_MkdirAll.
  rewrite Hok. unfold os_Create. cbn [emit fsFault]. rewrite Hok.
  unfold file_WriteString. cbn [setFile emit fsFault]. rewrite Hok.
  reflexivity.
Qed.

Lemma placeholderFor_offline c image w :
  offlineStep w (snd (placeholderFor c image w)).
Proof.
  unfold placeholderFor.
  assert (H0 : offlineStep w (snd (shortID w))) by (by split).
  destruct (shortID w) as [id w1]; cbn [snd] in H0.
  set (videoPath := filepath_Join _ _).
  pose proof (createPlaceholderVideo_offline videoPath w1) as H1.
  destruct (createPlaceholderVideo videoPath w1) as [[[]|e] w2];
    cbn [snd] in *.
  - exact (offlineStep_trans _ _ _ H0
             (offlineStep_trans _ _ _ H1 (offlineStep_sleep _ _))).
  - exact (offlineStep_trans _ _ _ H0 H1).
Qed.

Lemma placeholderFor_video c image w :
  videoOf c image (fst (placeholderFor c image w)).
Proof.
  unfold placeholderFor. destruct (shortID w) as [id w1].
  destruct (createPlaceholderVideo _ w1) as [[[]|e] w2]; [|exact I].
  split; reflexivity.
Qed.

Lemma placeholderFor_ok c image w :
  (forall op, fsFault w op = false) ->
  exists v, fst (placeholderFor c image w) = Some v
            /\ Video_ImageID v = Image_SceneID image
            /\ Video_Length v = VideoLength (config c).
Proof.
  intros Hok. unfold placeholderFor.
  assert (H0 : fsFault (snd (shortID w)) = fsFault w) by reflexivity.
  destruct (shortID w) as [id w1]; cbn [snd] in H0.
  set (videoPath := filepath_Join _ _).
  assert (Hok1 : forall op, fsFault w1 op = false)
    by (intros op; by rewrite H0).
  pose proof (createPlaceholderVideo_ok videoPath w1 Hok1) as H1.
  destruct (createPlaceholderVideo videoPath w1) as [[[]|e] w2];
    cbn [fst] in H1; [|discriminate].
  eexists. cbn [fst]. repeat split.
Qed.

Lemma placeholderLoop_outcomes c images :
  forall videos w,
    fst (placeholderLoop c images videos w) =
    videos ++ omap id (placeholderOutcomes c images w).
Proof.
  induction images as [|image rest IH]; intros videos w.
  - cbn. by rewrite app_nil_r.
  - cbn [placeholderLoop placeholderOutcomes].
    destruct (placeholderFor c image w) as [[v|] w1].
    + rewrite IH. cbn. by rewrite <- app_assoc.
    + by rewrite IH.
Qed.

Lemma placeholderLoop_offline c images :
  forall videos w, offlineStep w (snd (placeholderLoop c images videos w)).
Proof.
  induction images as [|image rest IH]; intros videos w;
    [apply offlineStep_refl|].
  cbn [placeholderLoop].
  pose proof (placeholderFor_offline c image w) as H1.
  destruct (placeholderFor c image w) as [[v|] w1]; cbn [snd] in H1;
    exact (offlineStep_trans _ _ _ H1 (IH _ _)).
Qed.

Lemma placeholderOutcomes_length c images :
  forall w, length (placeholderOutcomes c images w) = length images.
Proof.
  induction images as [|image rest IH]; intros w; [reflexivity|].
  cbn [placeholderOutcomes]. destruct (placeholderFor c image w) as [o w1].
  cbn. by rewrite IH.
Qed.

Lemma placeholderOutcomes_videos c images :
  forall w, Forall2 (videoOf c) images (placeholderOutcomes c images w).
Proof.
  induction images as [|image rest IH]; intros w; [constructor|].
  cbn [placeholderOutcomes].
  pose proof (placeholderFor_video c image w) as Hv.
  destruct (placeholderFor c image w) as [o w1]. by constructor.
Qed.

(** With no fault of the file system every image gets its placeholder. *)
Lemma placeholderOutcomes_all c images :
  forall w,
    (forall op, fsFault w op = false) ->
    map Video_ImageID (omap id (placeholderOutcomes c images w)) =
      map Image_SceneID images
    /\ Forall (fun v => Video_Length v = VideoLength (config c))
              (omap id (placeholderOutcomes c images w)).
Proof.
  induction images as [|image rest IH]; intros w Hok; [by split|].
  cbn [placeholderOutcomes].
  destruct (placeholderFor_ok c image w Hok) as (v & Hv & Hid & Hlen).
  pose proof (placeholderFor_offline c image w) as [_ Hf].
  destruct (placeholderFor c image w) as [o w1]; cbn [fst snd] in *. subst o.
  destruct (IH w1) as [IH1 IH2]; [intros op; by rewrite Hf|].
  cbn. rewrite IH1, Hid. split; [reflexivity | by constructor].
Qed.

End OrchestratorFacts.

Section OrchestratorClaims.

Context {L : GoLib}.

Lemma key_present c :
  RunwayAPIKey (config c) <> "" -> String.eqb (RunwayAPIKey (config c)) "" = false.
Proof. intros H. by destruct (String.eqb_spec (RunwayAPIKey (config c)) ""). Qed.

Lemma key_absent c :
  RunwayAPIKey (config c) = "" -> String.eqb (RunwayAPIKey (config c)) "" = true.
Proof. intros ->. reflexivity. Qed.

(** C1.  With an API key, [Convert] goes through every image of the
    batch, whatever happened to the images before it (each image file is
    read), and returns the videos of the images that succeed, in input
    order.  If at least one image succeeds there are between 1 and N
    videos and no error; if every image fails there is no video and the
    error is [NoArtifactsProduced]. *)
Theorem Convert_partial_results c images w :
  RunwayAPIKey (config c) <> "" ->
  length (convertOutcomes c images w) = length images
  /\ Forall2 (videoOf c) images (convertOutcomes c images w)
  /\ fst (fst (Convert c images w)) = omap id (convertOutcomes c images w)
  /\ (forall image,
         image ∈ images ->
         EvFs (OpReadFile (Image_Path image)) ∈ trace (snd (Convert c images w)))
  /\ ((exists v, Some v ∈ convertOutcomes c images w) ->
      snd (fst (Convert c images w)) = None
      /\ (1 <= length (fst (fst (Convert c images w))) <= length images)%nat)
  /\ ((forall o, o ∈ convertOutcomes c images w -> o = None) ->
      fst (fst (Convert c images w)) = []
      /\ snd (fst (Convert c images w)) = Some NoArtifactsProduced).
Proof.
  intros Hkey. unfold Convert. rewrite (key_present c Hkey).
  pose proof (convertLoop_outcomes c images [] w) as Hv.
  pose proof (convertLoop_reads_all c images [] w) as Hr.
  pose proof (omap_id_length (convertOutcomes c images w)) as Hle.
  rewrite convertOutcomes_length in Hle.
  destruct (convertLoop c images [] w) as [videos w1]; cbn [fst snd] in Hv, Hr.
  rewrite app_nil_l in Hv.
  assert (Hfst : fst (fst (match videos with
                           | [] => (videos, Some NoArtifactsProduced, w1)
                           | _ :: _ => (videos, None, w1)
                           end)) = videos) by (by destruct videos).
  assert (Hsnd : snd (match videos with
                      | [] => (videos, Some NoArtifactsProduced, w1)
                      | _ :: _ => (videos, None, w1)
                      end) = w1) by (by destruct videos).
  rewrite Hfst, Hsnd.
  split; [apply convertOutcomes_length|].
  split; [apply convertOutcomes_videos|].
  split; [exact Hv|]. split; [exact Hr|]. split.
  - intros [v Hin]. destruct videos as [|v0 videos].
    + symmetry in Hv. rewrite omap_id_nil in Hv.
      specialize (Hv _ Hin). discriminate.
    + cbn [fst snd]. split; [reflexivity|]. rewrite Hv. cbn [length] in *.
      rewrite <- Hv in Hle. cbn [length] in Hle. rewrite <- Hv. cbn [length]. lia.
  - intros Hnone. apply omap_id_nil in Hnone. rewrite Hnone in Hv. subst videos.
    by split.
Qed.

(** C8 (as amended).  Without an API key [Convert] makes no network
    round trip and returns no error; it returns, in input order, one
    placeholder video for each image whose placeholder file could be
    created, each referring to the scene of its image and having the
    configured length; when the file system refuses nothing, that is
    exactly one video per image. *)
Theorem Convert_offline_placeholders c images w :
  RunwayAPIKey (config c) = "" ->
  snd (fst (Convert c images w)) = None
  /\ requestsOf (trace (snd (Convert c images w))) = requestsOf (trace w)
  /\ fst (fst (Convert c images w)) = omap id (placeholderOutcomes c images w)
  /\ length (placeholderOutcomes c images w) = length images
  /\ Forall2 (videoOf c) images (placeholderOutcomes c images w)
  /\ (length (fst (fst (Convert c images w))) <= length images)%nat
  /\ ((forall op, fsFault w op = false) ->
      length (fst (fst (Convert c images w))) = length images
      /\ map Video_ImageID (fst (fst (Convert c images w))) =
         map Image_SceneID images
      /\ Forall (fun v => Video_Length v = VideoLength (config c))
                (fst (fst (Convert c images w)))).
Proof.
  intros Hkey. unfold Convert, createPlaceholderVideos.
  rewrite (key_absent c Hkey).
  pose proof (placeholderLoop_outcomes c images [] w) as Hv.
  pose proof (placeholderLoop_offline c images [] w) as [Hq _].
  pose proof (omap_id_length (placeholderOutcomes c images w)) as Hle.
  rewrite placeholderOutcomes_length in Hle.
  destruct (placeholderLoop c images [] w) as [videos w1];
    cbn [fst snd] in *.
  rewrite app_nil_l in Hv. subst videos.
  split; [reflexivity|]. split; [exact Hq|]. split; [reflexivity|].
  split; [apply placeholderOutcomes_length|].
  split; [apply placeholderOutcomes_videos|]. split; [exact Hle|].
  intros Hok. destruct (placeholderOutcomes_all c images w Hok) as [Hids Hlen].
  split; [|by split].
  rewrite <- (length_map Video_ImageID), Hids. apply length_map.
Qed.

(** C10.  Without an API key [Convert] never returns an error, not even
    for an empty batch, for which it returns no video; with an API key an
    empty result, the one of an empty batch included, comes with
    [NoArtifactsProduced], and a non-empty one with no error. *)
Theorem Convert_error_only_with_key c images w :
  (RunwayAPIKey (config c) = "" ->
   snd (fst (Convert c images w)) = None
   /\ Convert c [] w = ([], None, w))
  /\ (RunwayAPIKey (config c) <> "" ->
      (fst (fst (Convert c images w)) = [] ->
       snd (fst (Convert c images w)) = Some NoArtifactsProduced)
      /\ (fst (fst (Convert c images w)) <> [] ->
          snd (fst (Convert c images w)) = None)
      /\ Convert c [] w = ([], Some NoArtifactsProduced, w)).
Proof.
  split; intros Hkey; unfold Convert, createPlaceholderVideos.
  - rewrite (key_absent c Hkey). split; [|reflexivity].
    by destruct (placeholderLoop c images [] w).
  - rewrite (key_present c Hkey). split; [|split; [|reflexivity]];
      destruct (convertLoop c images [] w) as [[|v videos] w1]; cbn; done.
Qed.

End OrchestratorClaims.

(** ** Scene identifiers *)

Section SceneIDs.

Lemma substring_none n s : substring n 0 s = "".
Proof.
  revert s. induction n as [|n IH]; intros [|ch s]; cbn; auto.
Qed.

Lemma length_substring n m s :
  (n + m <= String.length s)%nat -> String.length (substring n m s) = m.
Proof.
  revert m s. induction n as [|n IH]; intros m s H.
  - revert s H. induction m as [|m IHm]; intros [|ch s] H; cbn in *;
      try lia; try reflexivity.
    f_equal. apply IHm. lia.
  - destruct s as [|ch s]; cbn in *; [lia|]. apply IH. lia.
Qed.

Lemma append_cons ch (a b : string) : String ch a +:+ b = String ch (a +:+ b).
Proof. reflexivity. Qed.

Lemma substring_all s : substring 0 (String.length s) s = s.
Proof. induction s as [|ch s IH]; cbn; [reflexivity|]. by rewrite IH. Qed.

Lemma substring_split k s :
  (k <= String.length s)%nat ->
  substring 0 k s +:+ substring k (String.length s - k) s = s.
Proof.
  revert s. induction k as [|k IH]; intros s H.
  - rewrite substring_none, Nat.sub_0_r, substring_all. reflexivity.
  - destruct s as [|ch s]; cbn in *; [lia|].
    rewrite append_cons. f_equal. apply IH. lia.
Qed.

(** The extension is empty or a tail of the path. *)
Lemma Ext_loop_tail path i :
  (i <= String.length path)%nat ->
  Filepath.Ext_loop path i = ""
  \/ exists j, (j < i)%nat
               /\ Filepath.Ext_loop path i =
                  substring j (String.length path - j) path.
Proof.
  induction i as [|i IH]; intros Hi; [by left|].
  cbn [Filepath.Ext_loop].
  destruct (String.get i path) as [ch|]; [|by left].
  destruct (Ascii.eqb ch "/"); [by left|].
  destruct (Ascii.eqb ch ".").
  - right. exists i. split; [lia | reflexivity].
  - destruct IH as [H | (j & Hj & H)]; [lia | by left |].
    right. exists j. split; [lia | exact H].
Qed.

Lemma HasSuffix_Ext path : Strings.HasSuffix path (Filepath.Ext path) = true.
Proof.
  unfold Strings.HasSuffix, Filepath.Ext.
  destruct (Ext_loop_tail path (String.length path)) as [-> | (j & Hj & ->)];
    [lia | |].
  - cbn [String.length]. rewrite substring_none. reflexivity.
  - rewrite length_substring by lia.
    replace (String.length path - (String.length path - j))%nat with j by lia.
    rewrite String.eqb_refl, andb_true_r. apply Nat.leb_le. lia.
Qed.

Lemma Ext_length path :
  (String.length (Filepath.Ext path) <= String.length path)%nat.
Proof.
  pose proof (HasSuffix_Ext path) as H. unfold Strings.HasSuffix in H.
  apply andb_true_iff in H as [H _]. by apply Nat.leb_le in H.
Qed.

(** [withoutExt] is the name with its extension taken away. *)
Lemma withoutExt_Ext imageName :
  withoutExt imageName +:+ Filepath.Ext imageName = imageName.
Proof.
  unfold withoutExt.
  pose proof (HasSuffix_Ext imageName) as H. unfold Strings.HasSuffix in H.
  apply andb_true_iff in H as [Hle Heq].
  apply Nat.leb_le in Hle. apply String.eqb_eq in Heq.
  set (e := Filepath.Ext imageName) in *.
  set (k := (String.length imageName - String.length e)%nat) in *.
  assert (Hk : String.length e = (String.length imageName - k)%nat) by lia.
  pose proof (substring_split k imageName ltac:(lia)) as Hs.
  rewrite <- Hk, Heq in Hs. exact Hs.
Qed.

Lemma TrimSuffix_Ext imageName :
  Strings.TrimSuffix imageName (Filepath.Ext imageName) = withoutExt imageName.
Proof. unfold Strings.TrimSuffix. by rewrite HasSuffix_Ext. Qed.

(** Replacing the spaces, then the hyphens, replaces both at once. *)
Lemma ReplaceAll1_twice s :
  Strings.ReplaceAll1 (Strings.ReplaceAll1 s " " "_") "-" "_" =
  Strings.mapBytes underscored s.
Proof.
  induction s as [|ch s IH]; [reflexivity|].
  cbn [Strings.ReplaceAll1 Strings.mapBytes]. unfold underscored at 1.
  destruct (Ascii.eqb ch " ") eqn:Hsp; cbn [orb].
  - change ("_" +:+ Strings.ReplaceAll1 s " " "_")
      with (String "_" (Strings.ReplaceAll1 s " " "_")).
    cbn [Strings.ReplaceAll1].
    change (Ascii.eqb "_" "-") with false. cbn iota. by rewrite IH.
  - cbn [Strings.ReplaceAll1]. destruct (Ascii.eqb ch "-"); rewrite IH;
      reflexivity.
Qed.

Lemma generateSceneID_unfolded imageName :
  generateSceneID imageName = sceneID_cased imageName.
Proof.
  unfold generateSceneID, sceneID_cased.
  by rewrite TrimSuffix_Ext, ReplaceAll1_twice.
Qed.

(** C7 (as amended).  The scene id is the prefix [scene_] followed by the
    file name without its extension, each space and each hyphen replaced
    by an underscore; letter case is kept as it is.  [generateSceneID] is
    a function of the file name alone, so equal names have equal ids. *)
Theorem generateSceneID_cased imageName :
  generateSceneID imageName = sceneID_cased imageName
  /\ withoutExt imageName +:+ Filepath.Ext imageName = imageName.
Proof.
  split; [apply generateSceneID_unfolded | apply withoutExt_Ext].
Qed.

(** On names without capital letters the id is the lower-cased one. *)
Lemma generateSceneID_lowered imageName :
  Strings.ToLower (withoutExt imageName) = withoutExt imageName ->
  generateSceneID imageName = sceneID_lowered imageName.
Proof.
  intros H. unfold sceneID_lowered. rewrite H.
  apply generateSceneID_unfolded.
Qed.

End SceneIDs.

(** ** Scenes written to disk and read back *)

Section ScenePersistence.

Context {L : GoLib}.

Lemma coerceFrom_valid s :
  forall pending,
    Utf8.validFrom pending s = true -> Utf8.coerceFrom pending s = s.
Proof.
  induction s as [|ch s IH]; intros pending H; [reflexivity|].
  cbn [Utf8.validFrom Utf8.coerceFrom] in *.
  destruct pending as [|p].
  - destruct (Utf8.tailLen ch s) as [k|]; [|discriminate]. by rewrite IH.
  - by rewrite IH.
Qed.

(** Valid UTF-8 text is written as it is. *)
Lemma coerce_valid s : Utf8.ValidString s = true -> Utf8.coerce s = s.
Proof. apply coerceFrom_valid. Qed.

Lemma coerceScene_valid s : validScene s = true -> coerceScene s = s.
Proof.
  unfold validScene. rewrite !andb_true_iff.
  intros [[[[H1 H2] H3] H4] H5]. destruct s. unfold coerceScene. cbn in *.
  by rewrite !coerce_valid.
Qed.

(** Reading the document of a scene gives the scene with its strings as
    they were written: every one of the five fields is written, under its
    own key, and read from that key. *)
Lemma sceneFromJSON_sceneToJSON s :
  sceneFromJSON (sceneToJSON s) = Some (coerceScene s).
Proof. reflexivity. Qed.

Lemma scenesFromItems_map scenes :
  scenesFromItems (map sceneToJSON scenes) = Some (map coerceScene scenes).
Proof.
  induction scenes as [|s scenes IH]; [reflexivity|].
  cbn [map scenesFromItems]. by rewrite sceneFromJSON_sceneToJSON, IH.
Qed.

Lemma map_coerceScene_valid scenes :
  Forall (fun s => validScene s = true) scenes ->
  map coerceScene scenes = scenes.
Proof.
  induction 1 as [|s scenes Hs _ IH]; [reflexivity|].
  cbn. by rewrite coerceScene_valid, IH.
Qed.

(** C9 (as amended).  When [SaveScenesToFile] succeeds and the file can
    be read, [loadScenesFromFile] returns the scenes with each field
    coerced to valid UTF-8; for scenes whose fields are valid UTF-8,
    empty strings included, these are the scenes that were saved.  The
    JSON text layer of the library is taken to read back the document it
    wrote. *)
Theorem scenes_round_trip g scenes path w :
  fst (SaveScenesToFile g scenes path w) = None ->
  fsFault w (OpReadFile path) = false ->
  json_decode (json_encodeIndent "" "  " (scenesToJSON scenes)) =
    Some (scenesToJSON scenes) ->
  fst (loadScenesFromFile path (snd (SaveScenesToFile g scenes path w))) =
    Ok (map coerceScene scenes)
  /\ (Forall (fun s => validScene s = true) scenes ->
      fst (loadScenesFromFile path (snd (SaveScenesToFile g scenes path w))) =
      Ok scenes)
  /\ (forall s, validScene s = true -> sceneFromJSON (sceneToJSON s) = Some s).
Proof.
  intros Hsave Hread Hcodec.
  assert (Hload :
    fst (loadScenesFromFile path (snd (SaveScenesToFile g scenes path w))) =
    Ok (map coerceScene scenes)).
  { unfold SaveScenesToFile, os_MkdirAll in *.
    destruct (fsFault w (OpMkdirAll (filepath_Dir path))); [discriminate|].
    unfold os_WriteFile in *. cbn [emit fsFault] in *.
    destruct (fsFault w (OpWriteFile path)); [discriminate|].
    cbn [snd]. unfold loadScenesFromFile, os_ReadFile.
    cbn [setFile emit fsFault files]. rewrite Hread, lookup_insert_eq, Hcodec.
    unfold scenesToJSON, scenesFromJSON. by rewrite scenesFromItems_map. }
  split; [exact Hload|]. split.
  - intros Hvalid. by rewrite Hload, map_coerceScene_valid.
  - intros s Hs. by rewrite sceneFromJSON_sceneToJSON, coerceScene_valid.
Qed.

End ScenePersistence.

(** ** The properties on concrete runs *)

Section Examples.

Import Samples.

(** C1 on a batch of two: the file of the first image is missing, the
    second image goes through; one video comes back, with no error. *)
Lemma Convert_partial_results_witness :
  RunwayAPIKey (config keyed) <> ""
  /\ fst (Convert (L:=lib) keyed [image1; image2] secondSucceeds) =
     ([{| Video_Path := "output/videos/video_image_debate_3c4d_0f2a9c1e.mp4";
          Video_ImageID := "scene_debate";
          Video_Length := 10 |}], None)
  /\ convertOutcomes (L:=lib) keyed [image1; image2] secondSucceeds =
     [None; Some {| Video_Path := "output/videos/video_image_debate_3c4d_0f2a9c1e.mp4";
                    Video_ImageID := "scene_debate";
                    Video_Length := 10 |}]
  /\ (1 <= length (fst (fst (Convert (L:=lib) keyed [image1; image2]
                                     secondSucceeds))) <= 2)%nat.
Proof.
  assert (Hkey : RunwayAPIKey (config keyed) <> "") by discriminate.
  split; [exact Hkey|].
  split; [vm_compute; reflexivity|]. split; [vm_compute; reflexivity|].
  destruct (Convert_partial_results (L:=lib) keyed [image1; image2]
              secondSucceeds Hkey) as (_ & _ & _ & _ & Hsome & _).
  apply Hsome. eexists.
  replace (convertOutcomes (L:=lib) keyed [image1; image2] secondSucceeds)
    with [None; Some {| Video_Path := "output/videos/video_image_debate_3c4d_0f2a9c1e.mp4";
                        Video_ImageID := "scene_debate";
                        Video_Length := 10 |}]
    by (vm_compute; reflexivity).
  apply elem_of_cons. right. apply elem_of_cons. left. reflexivity.
Defined.

(** With an API key and a provider that cannot be reached every image
    fails, and the stage fails with [NoArtifactsProduced]. *)
Example Convert_all_fail :
  fst (Convert (L:=lib) keyed [image1; image2; image3] unreachable) =
  ([], Some NoArtifactsProduced).
Proof. vm_compute. reflexivity. Qed.

(** C2 at the failing input: the status query is answered with a
    completed job whose [output] is an array holding the URL. *)
Lemma pollLoop_output_array_unresolved_witness :
  fst (pollForVideo (L:=lib) keyed "job-7" arrayAnswer) =
    Err (MissingResultLocation
           [("status", JString "completed");
            ("output", JArray [JString "https://cdn.example/v.mp4"])])
  /\ length (requestsOf (trace (snd (pollForVideo (L:=lib) keyed "job-7"
                                                  arrayAnswer)))) = 1%nat
  /\ JS.resultLocation
       [("status", JString "completed");
        ("output", JArray [JString "https://cdn.example/v.mp4"])] =
     Some (JString "https://cdn.example/v.mp4").
Proof.
  destruct (pollLoop_output_array_unresolved (L:=lib) keyed "job-7" 59 1
              (statusURL "job-7") arrayAnswer
              [("status", JString "completed");
               ("output", JArray [JString "https://cdn.example/v.mp4"])]
              "https://cdn.example/v.mp4" [])
    as (Hres & Htr & Hjs).
  - reflexivity.
  - exists (render outputArray). split; vm_compute; reflexivity.
  - reflexivity.
  - reflexivity.
  - reflexivity.
  - discriminate.
  - split; [exact Hres|]. split; [|exact Hjs].
    unfold pollForVideo, maxAttempts. rewrite Htr. reflexivity.
Defined.

(** A response with both a top-level [videoUrl] and an [output] array:
    the Go poller takes [videoUrl], the Node script [output[0]]. *)
Example resultLocation_both_shapes :
  resultLocation [("videoUrl", JString "https://cdn.example/a.mp4");
                  ("output", JArray [JString "https://cdn.example/b.mp4"])] =
    Some "https://cdn.example/a.mp4"
  /\ JS.resultLocation
       [("videoUrl", JString "https://cdn.example/a.mp4");
        ("output", JArray [JString "https://cdn.example/b.mp4"])] =
     Some (JString "https://cdn.example/b.mp4").
Proof. split; reflexivity. Qed.

(** C3 with a provider that answers RUNNING for ever. *)
Lemma pollForVideo_times_out_witness :
  (forall n req, nonTerminal (L:=lib) (net alwaysRunning n req) = true)
  /\ fst (pollForVideo (L:=lib) keyed "job-7" alwaysRunning) = Err PollTimeout
  /\ nreq (snd (pollForVideo (L:=lib) keyed "job-7" alwaysRunning)) = 60%nat
  /\ sleepsOf (trace (snd (pollForVideo (L:=lib) keyed "job-7" alwaysRunning))) =
     repeat (5 * Second)%Z 60.
Proof.
  assert (Hnt : forall n req,
             nonTerminal (L:=lib) (net alwaysRunning n req) = true)
    by (intros n req; vm_compute; reflexivity).
  split; [exact Hnt|].
  destruct (pollForVideo_times_out (L:=lib) keyed "job-7" alwaysRunning
              eq_refl eq_refl Hnt)
    as (urls & Hlen & Hall & Hres & Htr & Hq & Hs & Hn).
  split; [exact Hres|]. split; [exact Hn|].
  rewrite Htr. exact Hs.
Defined.

(** Outside the status responses: a 200 answer that is not JSON ends the
    polling at once, with the parse error. *)
Example pollForVideo_unparsable_body :
  fst (pollForVideo (L:=lib) keyed "job-7" notJSON) =
    Err (Errorf "failed to parse response: %w" [ArgW (LibError "json.Unmarshal")])
  /\ nreq (snd (pollForVideo (L:=lib) keyed "job-7" notJSON)) = 1%nat.
Proof. split; vm_compute; reflexivity. Qed.

(** A 404 on the first attempt moves the polling to the alternative URL;
    the 60 attempts are used up all the same. *)
Example pollForVideo_alternative_url :
  fst (pollForVideo (L:=lib) keyed "job-7" notFoundFirst) = Err PollTimeout
  /\ map URL (requestsOf (trace (snd (pollForVideo (L:=lib) keyed "job-7"
                                                   notFoundFirst)))) =
     statusURL "job-7" :: repeat (alternativeURL "job-7") 59.
Proof. split; vm_compute; reflexivity. Qed.

(** C4 on the answers QUEUED, RUNNING, RUNNING, completed. *)
Lemma pollForVideo_four_answers_witness :
  fst (pollForVideo (L:=lib) keyed "job-7" fourAnswers) = Ok "MP4-BYTES"
  /\ length (requestsOf (trace (snd (pollForVideo (L:=lib) keyed "job-7"
                                                  fourAnswers)))) = 5%nat
  /\ last (trace (snd (pollForVideo (L:=lib) keyed "job-7" fourAnswers))) =
     Some (EvDo (downloadRequest "https://cdn.example/v.mp4")).
Proof.
  destruct (pollForVideo_four_answers (L:=lib) keyed "job-7" fourAnswers
              [("status", JString "QUEUED")]
              [("status", JString "RUNNING")]
              [("status", JString "RUNNING")]
              [("status", JString "completed");
               ("videoUrl", JString "https://cdn.example/v.mp4")]
              "https://cdn.example/v.mp4" "MP4-BYTES")
    as (Hres & Htr & Hn).
  - reflexivity.
  - exists (render (status "QUEUED")). split; vm_compute; reflexivity.
  - reflexivity.
  - exists (render (status "RUNNING")). split; vm_compute; reflexivity.
  - reflexivity.
  - exists (render (status "RUNNING")). split; vm_compute; reflexivity.
  - reflexivity.
  - exists (render (completedAt "https://cdn.example/v.mp4")).
    split; vm_compute; reflexivity.
  - reflexivity.
  - reflexivity.
  - reflexivity.
  - vm_compute. reflexivity.
  - split; [exact Hres|]. rewrite Htr. split; reflexivity.
Defined.

(** C5 on a status word of another vocabulary. *)
Lemma pollLoop_unrecognized_status_witness :
  "RUNNING" <> COMPLETED
  /\ "RUNNING" <> FAILED
  /\ pollAttempt (L:=lib) keyed "job-7" (statusURL "job-7") 1 alwaysRunning =
     (Continue (statusURL "job-7"),
      time_Sleep pollInterval
        (afterDo (statusRequest keyed (statusURL "job-7")) alwaysRunning)).
Proof.
  assert (Hc : "RUNNING" <> COMPLETED) by discriminate.
  assert (Hf : "RUNNING" <> FAILED) by discriminate.
  split; [exact Hc|]. split; [exact Hf|].
  refine (proj1 (pollLoop_unrecognized_status (L:=lib) keyed "job-7" 59 1
                   (statusURL "job-7") alwaysRunning
                   [("status", JString "RUNNING")] "RUNNING"
                   eq_refl _ eq_refl Hc Hf)).
  exists (render (status "RUNNING")). split; vm_compute; reflexivity.
Defined.

(** C6 on the provider's reason [quota exceeded]. *)
Lemma pollLoop_generation_failed_witness :
  fst (pollForVideo (L:=lib) keyed "job-7" quotaExceeded) =
    Err (GenerationFailed "quota exceeded")
  /\ length (requestsOf (trace (snd (pollForVideo (L:=lib) keyed "job-7"
                                                  quotaExceeded)))) = 1%nat.
Proof.
  destruct (pollLoop_generation_failed (L:=lib) keyed "job-7" 59 1
              (statusURL "job-7") quotaExceeded
              [("status", JString "failed");
               ("error", JString "quota exceeded")])
    as (Hmsg & _ & Htr & _).
  - reflexivity.
  - exists (render (JObject [("status", JString "failed");
                             ("error", JString "quota exceeded")])).
    split; vm_compute; reflexivity.
  - reflexivity.
  - split; [exact (Hmsg "quota exceeded" eq_refl)|].
    unfold pollForVideo, maxAttempts. rewrite Htr. reflexivity.
Defined.

(** A failed job without a reason. *)
Example pollForVideo_failed_without_reason :
  fst (pollForVideo (L:=lib) keyed "job-7"
         (world (fun _ _ => reply 200 (status "failed")) ∅ noFault)) =
  Err (GenerationFailed "unknown error").
Proof. vm_compute. reflexivity. Qed.

(** C7 with the lower-casing of the specification: capital letters stay
    capital in the id the code makes. *)
Lemma generateSceneID_keeps_capitals :
  generateSceneID "BBC Headline-1.PNG" = "scene_BBC_Headline_1"
  /\ sceneID_lowered "BBC Headline-1.PNG" = "scene_bbc_headline_1"
  /\ generateSceneID "BBC Headline-1.PNG" <> sceneID_lowered "BBC Headline-1.PNG".
Proof.
  split; [reflexivity|]. split; [reflexivity|]. vm_compute. discriminate.
Qed.

(** C8 without the proviso on the file system: three images, no API key,
    and a file system on which no file can be created; [Convert] returns
    no video, and no error. *)
Lemma Convert_offline_read_only :
  RunwayAPIKey (config offline) = ""
  /\ fst (Convert (L:=lib) offline [image1; image2; image3]
            (world (fun _ _ => None) ∅ readOnly)) = ([], None)
  /\ length (fst (fst (Convert (L:=lib) offline [image1; image2; image3]
                         (world (fun _ _ => None) ∅ readOnly)))) <> 3%nat.
Proof.
  split; [reflexivity|]. split; [vm_compute; reflexivity|].
  vm_compute. discriminate.
Qed.

(** C8 on three images and a file system that refuses nothing. *)
Lemma Convert_offline_placeholders_witness :
  RunwayAPIKey (config offline) = ""
  /\ (forall op, fsFault (world (fun _ _ => None) ∅ noFault) op = false)
  /\ length (fst (fst (Convert (L:=lib) offline [image1; image2; image3]
                         (world (fun _ _ => None) ∅ noFault)))) = 3%nat
  /\ map Video_ImageID
         (fst (fst (Convert (L:=lib) offline [image1; image2; image3]
                      (world (fun _ _ => None) ∅ noFault)))) =
     ["scene_summit"; "scene_debate"; "scene_lab"]
  /\ requestsOf (trace (snd (Convert (L:=lib) offline [image1; image2; image3]
                              (world (fun _ _ => None) ∅ noFault)))) = [].
Proof.
  assert (Hok : forall op, fsFault (world (fun _ _ => None) ∅ noFault) op = false)
    by reflexivity.
  split; [reflexivity|]. split; [exact Hok|].
  destruct (Convert_offline_placeholders (L:=lib) offline
              [image1; image2; image3] (world (fun _ _ => None) ∅ noFault)
              eq_refl) as (_ & Hq & _ & _ & _ & _ & Hall).
  destruct (Hall Hok) as (Hlen & Hids & _).
  split; [exact Hlen|]. split; [exact Hids | exact Hq].
Defined.

(** C9 without the proviso on UTF-8: a scene made from the image file
    [caf\xE9.png] (a Latin-1 name) is saved; what is read back has U+FFFD
    where the byte E9 was, in [source_title] and in [id]. *)
Lemma scenes_round_trip_latin1 :
  fst (SaveScenesToFile (L:=lib) generator [scene2] "output/scenes.json"
         (world (fun _ _ => None) ∅ noFault)) = None
  /\ json_decode (GoLib:=lib)
       (json_encodeIndent (GoLib:=lib) "" "  " (scenesToJSON [scene2])) =
     Some (scenesToJSON [scene2])
  /\ fst (loadScenesFromFile (L:=lib) "output/scenes.json"
            (snd (SaveScenesToFile (L:=lib) generator [scene2]
                    "output/scenes.json"
                    (world (fun _ _ => None) ∅ noFault)))) =
     Ok [coerceScene scene2]
  /\ Scene_SourceTitle (coerceScene scene2) =
     "caf" +:+ Utf8.replacement +:+ ".png"
  /\ coerceScene scene2 <> scene2.
Proof.
  split; [vm_compute; reflexivity|]. split; [vm_compute; reflexivity|].
  split; [vm_compute; reflexivity|]. split; [vm_compute; reflexivity|].
  vm_compute. discriminate.
Qed.

(** C9 on a scene whose mood is the empty string. *)
Lemma scenes_round_trip_witness :
  Forall (fun s => validScene s = true) [scene1]
  /\ fst (loadScenesFromFile (L:=lib) "output/scenes.json"
            (snd (SaveScenesToFile (L:=lib) generator [scene1]
                    "output/scenes.json"
                    (world (fun _ _ => None) ∅ noFault)))) = Ok [scene1].
Proof.
  assert (Hvalid : Forall (fun s => validScene s = true) [scene1])
    by (repeat constructor).
  split; [exact Hvalid|].
  destruct (scenes_round_trip (L:=lib) generator [scene1] "output/scenes.json"
              (world (fun _ _ => None) ∅ noFault))
    as (_ & Hsame & _); [vm_compute; reflexivity ..|].
  exact (Hsame Hvalid).
Defined.

(** C10 with and without a key, on the empty batch. *)
Lemma Convert_error_only_with_key_witness :
  RunwayAPIKey (config offline) = ""
  /\ RunwayAPIKey (config keyed) <> ""
  /\ Convert (L:=lib) offline [] unreachable = ([], None, unreachable)
  /\ Convert (L:=lib) keyed [] unreachable =
     ([], Some NoArtifactsProduced, unreachable).
Proof.
  assert (Hkey : RunwayAPIKey (config keyed) <> "") by discriminate.
  split; [reflexivity|]. split; [exact Hkey|]. split.
  - exact (proj2 (proj1 (Convert_error_only_with_key (L:=lib) offline []
                           unreachable) eq_refl)).
  - exact (proj2 (proj2 (proj2 (Convert_error_only_with_key (L:=lib) keyed []
                                  unreachable) Hkey))).
Defined.

End Examples.

(** * Further properties *)

(** ** Bounds on the poller *)

Section PollerBounds.

Context {L : GoLib}.

Lemma requestsOf_app tr1 tr2 :
  requestsOf (tr1 ++ tr2) = requestsOf tr1 ++ requestsOf tr2.
Proof. apply omap_app. Qed.

Lemma sleepsOf_app tr1 tr2 :
  sleepsOf (tr1 ++ tr2) = sleepsOf tr1 ++ sleepsOf tr2.
Proof. apply omap_app. Qed.

Lemma sleepTotal_app tr1 tr2 :
  sleepTotal (tr1 ++ tr2) = (sleepTotal tr1 + sleepTotal tr2)%Z.
Proof.
  unfold sleepTotal. rewrite sleepsOf_app.
  induction (sleepsOf tr1) as [|d l IH]; cbn; [reflexivity|]. rewrite IH. lia.
Qed.

(** What [downloadVideo] adds to the trace: at most its one request. *)
Lemma downloadVideo_tail c url w :
  exists tail,
    trace (snd (downloadVideo c url w)) = trace w ++ tail
    /\ (tail = [] \/ tail = [EvDo (downloadRequest url)])
    /\ nreq (snd (downloadVideo c url w)) =
       (nreq w + length (requestsOf tail))%nat.
Proof.
  unfold downloadVideo, http_NewRequest.
  destruct (url_ok url).
  - fold (downloadRequest url). unfold client_Do.
    exists [EvDo (downloadRequest url)].
    destruct (net w (nreq w) (downloadRequest url)) as [resp|]; cbn [snd].
    + destruct (negb _); [|destruct (Body resp)]; cbn;
        (split; [reflexivity|]; split; [by right | lia]).
    + cbn. split; [reflexivity|]. split; [by right | lia].
  - exists []. cbn. rewrite app_nil_r. split; [reflexivity|].
    split; [by left | lia].
Qed.

(** One attempt either goes on after exactly one status query and one
    sleep of [pollInterval], or returns after at most two round trips (the
    status query and the download) without sleeping. *)
Lemma pollAttempt_tail c jobID apiURL attempt w :
  (exists apiURL',
      pollAttempt c jobID apiURL attempt w =
      (Continue apiURL',
       time_Sleep pollInterval (afterDo (statusRequest c apiURL) w)))
  \/ (exists r w' tail,
         pollAttempt c jobID apiURL attempt w = (Return r, w')
         /\ trace w' = trace w ++ tail
         /\ (length (requestsOf tail) <= 2)%nat
         /\ sleepsOf tail = []
         /\ nreq w' = (nreq w + length (requestsOf tail))%nat).
Proof.
  destruct (url_ok apiURL) eqn:Hurl.
  2:{ right. unfold pollAttempt, http_NewRequest. rewrite Hurl.
      eexists _, w, []. rewrite app_nil_r. cbn. repeat split; lia. }
  assert (Hone : forall r,
    exists r' w' tail,
      (Return r, afterDo (statusRequest c apiURL) w) = (Return r', w')
      /\ trace w' = trace w ++ tail
      /\ (length (requestsOf tail) <= 2)%nat
      /\ sleepsOf tail = []
      /\ nreq w' = (nreq w + length (requestsOf tail))%nat).
  { intros r. eexists r, _, [EvDo (statusRequest c apiURL)].
    split; [reflexivity|]. cbn. repeat split; lia. }
  destruct (net w (nreq w) (statusRequest c apiURL)) as [resp|] eqn:Hnet.
  2:{ right. unfold pollAttempt, http_NewRequest. rewrite Hurl.
      change (Header_Set "X-Runway-Version" "2024-11-06" _)
        with (statusRequest c apiURL).
      unfold client_Do at 1. rewrite Hnet. apply Hone. }
  destruct (Body resp) as [body|] eqn:Hbody.
  2:{ right. unfold pollAttempt, http_NewRequest. rewrite Hurl.
      change (Header_Set "X-Runway-Version" "2024-11-06" _)
        with (statusRequest c apiURL).
      unfold client_Do at 1. rewrite Hnet, Hbody. apply Hone. }
  rewrite (pollAttempt_answer _ _ _ _ _ _ body Hurl Hnet Hbody). cbn zeta.
  destruct (negb _); [left; eauto|].
  destruct (json_Unmarshal_map body) as [m|]; [|right; apply Hone].
  destruct (Json.getString m "status") as [st|]; [|left; eauto].
  destruct (String.eqb st COMPLETED).
  - right. destruct (resultLocation m) as [u|]; [|apply Hone].
    destruct (downloadVideo_tail c u (afterDo (statusRequest c apiURL) w))
      as (tail & Htr & Htail & Hn).
    destruct (downloadVideo c u (afterDo (statusRequest c apiURL) w))
      as [r w2]; cbn [snd] in *.
    exists r, w2, (EvDo (statusRequest c apiURL) :: tail).
    split; [reflexivity|]. rewrite Htr, Hn, afterDo_trace, afterDo_nreq.
    rewrite <- app_assoc.
    destruct Htail as [-> | ->]; cbn; repeat split; lia.
  - destruct (String.eqb st FAILED); [right; apply Hone | left; eauto].
Qed.

(** The loop, from any attempt on: when [remaining] attempts are left
    there are at most [remaining + 1] round trips and [remaining] sleeps,
    each of [pollInterval]. *)
Lemma pollLoop_tail c jobID remaining :
  forall attempt apiURL w,
  exists tail,
    trace (snd (pollLoop c jobID remaining attempt apiURL w)) = trace w ++ tail
    /\ (length (requestsOf tail) <= remaining + 1)%nat
    /\ (length (sleepsOf tail) <= remaining)%nat
    /\ Forall (fun d => d = pollInterval) (sleepsOf tail)
    /\ nreq (snd (pollLoop c jobID remaining attempt apiURL w)) =
       (nreq w + length (requestsOf tail))%nat.
Proof.
  induction remaining as [|r IH]; intros attempt apiURL w.
  - exists []. cbn. rewrite app_nil_r. repeat split; try lia. constructor.
  - rewrite pollLoop_S.
    destruct (pollAttempt_tail c jobID apiURL attempt w)
      as [[url' ->] | (res & w' & tail & -> & Htr & Hreq & Hsl & Hn)].
    + destruct (IH (S attempt) url'
                  (time_Sleep pollInterval (afterDo (statusRequest c apiURL) w)))
        as (tail & Htr & Hreq & Hsl & Hall & Hn).
      exists (pollTurn c apiURL ++ tail).
      rewrite Htr, Hn, sleep_trace, afterDo_trace, requestsOf_app, sleepsOf_app.
      cbn [time_Sleep emit nreq]. rewrite afterDo_nreq.
      rewrite <- !app_assoc. cbn. repeat split; try lia. by constructor.
    + exists tail. cbn [snd]. rewrite Hsl. cbn.
      split; [exact Htr|]. repeat split; try lia. constructor.
Qed.

(** X1.  Whatever the provider answers, [pollForVideo] stops after at
    most 60 status queries and one download; it sleeps at most 60 times,
    [pollInterval] each time. *)
Theorem pollForVideo_bounded c jobID w :
  exists tail,
    trace (snd (pollForVideo c jobID w)) = trace w ++ tail
    /\ (length (requestsOf tail) <= 61)%nat
    /\ (length (sleepsOf tail) <= 60)%nat
    /\ Forall (fun d => d = pollInterval) (sleepsOf tail)
    /\ nreq (snd (pollForVideo c jobID w)) =
       (nreq w + length (requestsOf tail))%nat.
Proof. apply (pollLoop_tail c jobID maxAttempts). Qed.

End PollerBounds.

(** ** The alternative URL, failed downloads, and the submission *)

Section PollerEdges.

Context {L : GoLib}.

(** Where an inconclusive attempt goes on: at the alternative URL when
    the first attempt was answered 404, at the same URL otherwise. *)
Lemma pollAttempt_next_url c jobID apiURL attempt w resp :
  url_ok apiURL = true ->
  net w (nreq w) (statusRequest c apiURL) = Some resp ->
  nonTerminal (Some resp) = true ->
  pollAttempt c jobID apiURL attempt w =
  (Continue (if (StatusCode resp =? StatusNotFound)%Z && (attempt =? 1)%nat
             then alternativeURL jobID else apiURL),
   time_Sleep pollInterval (afterDo (statusRequest c apiURL) w)).
Proof.
  intros Hurl Hnet Hnt. unfold nonTerminal in Hnt.
  destruct (Body resp) as [body|] eqn:Hbody; [|discriminate].
  rewrite (pollAttempt_answer _ _ _ _ _ _ body Hurl Hnet Hbody). cbn zeta.
  destruct (StatusCode resp =? StatusOK)%Z eqn:Hok; cbn [negb].
  - apply Z.eqb_eq in Hok. rewrite Hok.
    change (StatusOK =? StatusNotFound)%Z with false. cbn [andb].
    destruct (json_Unmarshal_map body) as [m|]; [|discriminate].
    destruct (Json.getString m "status") as [s|]; [|reflexivity].
    apply negb_true_iff, orb_false_elim in Hnt as [-> ->]. reflexivity.
  - reflexivity.
Qed.

(** After the first attempt the URL is never changed. *)
Lemma pollLoop_same_url c jobID apiURL remaining :
  url_ok apiURL = true ->
  forall attempt w,
    (2 <= attempt)%nat ->
    (forall n req, nonTerminal (net w n req) = true) ->
    fst (pollLoop c jobID remaining attempt apiURL w) = Err PollTimeout
    /\ trace (snd (pollLoop c jobID remaining attempt apiURL w)) =
       trace w ++ concat (repeat (pollTurn c apiURL) remaining).
Proof.
  intros Hurl. induction remaining as [|r IH]; intros attempt w Hne Hnt.
  - cbn. by rewrite app_nil_r.
  - pose proof (Hnt (nreq w) (statusRequest c apiURL)) as Hhere.
    destruct (net w (nreq w) (statusRequest c apiURL)) as [resp|] eqn:Hnet;
      [|discriminate].
    rewrite pollLoop_S, (pollAttempt_next_url _ _ _ _ _ _ Hurl Hnet Hhere).
    replace (attempt =? 1)%nat with false
      by (symmetry; apply Nat.eqb_neq; lia).
    rewrite andb_false_r.
    destruct (IH (S attempt)
                (time_Sleep pollInterval (afterDo (statusRequest c apiURL) w)))
      as [Hres Htr]; [lia | exact Hnt |].
    split; [exact Hres|].
    rewrite Htr, sleep_trace, afterDo_trace. cbn [repeat concat pollTurn].
    rewrite <- !app_assoc. reflexivity.
Qed.

(** X2.  With answers that never carry a terminal status, the first
    status query goes to the status URL and the 59 others all go to one
    URL: the alternative one when the first answer was a 404, the status
    URL otherwise, also when a later answer is a 404. *)
Theorem pollForVideo_alternative_url_after_404 c jobID w resp :
  url_ok (statusURL jobID) = true ->
  url_ok (alternativeURL jobID) = true ->
  (forall n req, nonTerminal (net w n req) = true) ->
  net w (nreq w) (statusRequest c (statusURL jobID)) = Some resp ->
  fst (pollForVideo c jobID w) = Err PollTimeout
  /\ trace (snd (pollForVideo c jobID w)) =
     trace w ++ pollTurn c (statusURL jobID)
     ++ concat (repeat (pollTurn c (if (StatusCode resp =? StatusNotFound)%Z
                                    then alternativeURL jobID
                                    else statusURL jobID)) 59).
Proof.
  intros Hs Ha Hnt Hnet.
  unfold pollForVideo, maxAttempts.
  pose proof (Hnt (nreq w) (statusRequest c (statusURL jobID))) as Hhere.
  rewrite Hnet in Hhere.
  rewrite pollLoop_S, (pollAttempt_next_url _ _ _ _ _ _ Hs Hnet Hhere).
  change (1 =? 1)%nat with true. rewrite andb_true_r.
  set (url := if (StatusCode resp =? StatusNotFound)%Z
              then alternativeURL jobID else statusURL jobID).
  assert (Hurl : url_ok url = true) by (unfold url; by destruct (_ =? _)%Z).
  destruct (pollLoop_same_url c jobID url 59 Hurl 2
              (time_Sleep pollInterval
                 (afterDo (statusRequest c (statusURL jobID)) w)))
    as [Hres Htr]; [lia | exact Hnt |].
  split; [exact Hres|].
  rewrite Htr, sleep_trace, afterDo_trace. cbn [pollTurn].
  rewrite <- !app_assoc. reflexivity.
Qed.

(** X3.  A completed job whose download is answered with a status other
    than 200 makes the poller return the error of the download at once:
    the download is not tried again and no further status query is made,
    however many attempts are left. *)
Theorem pollLoop_download_not_retried
        c jobID remaining attempt apiURL w m videoURL resp :
  url_ok apiURL = true ->
  answers w 0 (statusRequest c apiURL) StatusOK m ->
  Json.getString m "status" = Some COMPLETED ->
  resultLocation m = Some videoURL ->
  url_ok videoURL = true ->
  net w (1 + nreq w)%nat (downloadRequest videoURL) = Some resp ->
  StatusCode resp <> StatusOK ->
  fst (pollLoop c jobID (S remaining) attempt apiURL w) =
    Err (Errorf "unexpected status code: %d" [ArgD (StatusCode resp)])
  /\ trace (snd (pollLoop c jobID (S remaining) attempt apiURL w)) =
     trace w ++ [EvDo (statusRequest c apiURL); EvDo (downloadRequest videoURL)].
Proof.
  intros Hurl Hans Hst Hloc Hv Hnet Hcode.
  rewrite pollLoop_S, (pollAttempt_completed _ _ _ _ _ _ _ Hurl Hans Hst Hloc).
  unfold downloadVideo, http_NewRequest. rewrite Hv.
  fold (downloadRequest videoURL). unfold client_Do.
  change (nreq (afterDo (statusRequest c apiURL) w)) with (1 + nreq w)%nat.
  change (net (afterDo (statusRequest c apiURL) w)) with (net w).
  rewrite Hnet. apply Z.eqb_neq in Hcode. rewrite Hcode. cbn [negb fst snd trace].
  split; [reflexivity|]. rewrite afterDo_trace, <- app_assoc. reflexivity.
Qed.

(** What [generateVideoWithRunway] does with a readable answer to the
    submission. *)
Lemma generateVideoWithRunway_answer c imageData description w resp body :
  url_ok submitURL = true ->
  net w (nreq w) (submitRequest c imageData description) = Some resp ->
  Body resp = Some body ->
  generateVideoWithRunway c imageData description w =
  let w1 := afterDo (submitRequest c imageData description) w in
  if negb (StatusCode resp =? StatusOK)%Z
     && negb (StatusCode resp =? StatusAccepted)%Z
  then (Err (Errorf "unexpected status code: %d, body: %s"
               [ArgD (StatusCode resp); ArgS body]), w1)
  else
    match json_Unmarshal_map body with
    | None =>
        (Err (Errorf "failed to parse response: %w"
                [ArgW (LibError "json.Unmarshal")]), w1)
    | Some responseData =>
        match Json.getString responseData "error" with
        | Some errMsg => (Err (Errorf "API error: %s" [ArgS errMsg]), w1)
        | None =>
            match Json.getString responseData "id" with
            | Some jobID => pollForVideo c jobID w1
            | None =>
                match Json.getString responseData "jobId" with
                | Some jobID => pollForVideo c jobID w1
                | None => (Err (MissingJobIdentifier responseData), w1)
                end
            end
        end
    end.
Proof.
  intros Hurl Hnet Hbody.
  unfold generateVideoWithRunway, http_NewRequest.
  change "https://api.dev.runwayml.com/v1/image_to_video" with submitURL.
  rewrite Hurl.
  change (Header_Set "X-Runway-Version" "2024-11-06" _)
    with (submitRequest c imageData description).
  unfold client_Do at 1. rewrite Hnet, Hbody. reflexivity.
Qed.

(** X4.  An accepted submission (200 or 202, no [error] string): the job
    is polled under the string at [id]; when [id] is not a string, under
    the string at [jobId]; when neither is a string the call fails with
    [MissingJobIdentifier] after the submission, without any status
    query. *)
Theorem generateVideoWithRunway_job_identifier
        c imageData description w code m :
  url_ok submitURL = true ->
  answers w 0 (submitRequest c imageData description) code m ->
  code = StatusOK \/ code = StatusAccepted ->
  Json.getString m "error" = None ->
  (forall jobID,
      Json.getString m "id" = Some jobID ->
      generateVideoWithRunway c imageData description w =
      pollForVideo c jobID (afterDo (submitRequest c imageData description) w))
  /\ (forall jobID,
         Json.getString m "id" = None ->
         Json.getString m "jobId" = Some jobID ->
         generateVideoWithRunway c imageData description w =
         pollForVideo c jobID
           (afterDo (submitRequest c imageData description) w))
  /\ (Json.getString m "id" = None ->
      Json.getString m "jobId" = None ->
      generateVideoWithRunway c imageData description w =
      (Err (MissingJobIdentifier m),
       afterDo (submitRequest c imageData description) w)).
Proof.
  intros Hurl (body & Hnet & Hm) Hcode Herr.
  rewrite (generateVideoWithRunway_answer _ _ _ _ _ body Hurl Hnet eq_refl).
  cbn [StatusCode Body]. cbn zeta.
  assert (Hpass : negb (code =? StatusOK)%Z && negb (code =? StatusAccepted)%Z
                  = false) by (destruct Hcode as [-> | ->]; reflexivity).
  rewrite Hpass, Hm, Herr.
  split; [by intros jobID ->|]. split.
  - by intros jobID -> ->.
  - by intros -> ->.
Qed.

(** X5.  A submission answered with a status other than 200 and 202, or
    with an [error] string in an accepted answer, fails after that single
    round trip: nothing is polled, even when the answer names a job. *)
Theorem generateVideoWithRunway_rejected c imageData description w code m :
  url_ok submitURL = true ->
  answers w 0 (submitRequest c imageData description) code m ->
  (code <> StatusOK ->
   code <> StatusAccepted ->
   exists body,
     generateVideoWithRunway c imageData description w =
     (Err (Errorf "unexpected status code: %d, body: %s" [ArgD code; ArgS body]),
      afterDo (submitRequest c imageData description) w))
  /\ (forall errMsg,
         code = StatusOK \/ code = StatusAccepted ->
         Json.getString m "error" = Some errMsg ->
         generateVideoWithRunway c imageData description w =
         (Err (Errorf "API error: %s" [ArgS errMsg]),
          afterDo (submitRequest c imageData description) w)).
Proof.
  intros Hurl (body & Hnet & Hm).
  rewrite (generateVideoWithRunway_answer _ _ _ _ _ body Hurl Hnet eq_refl).
  cbn [StatusCode Body]. cbn zeta. split.
  - intros H1 H2. exists body.
    apply Z.eqb_neq in H1, H2. by rewrite H1, H2.
  - intros errMsg Hcode Herr.
    assert (Hpass : negb (code =? StatusOK)%Z && negb (code =? StatusAccepted)%Z
                    = false) by (destruct Hcode as [-> | ->]; reflexivity).
    by rewrite Hpass, Hm, Herr.
Qed.

End PollerEdges.

(** ** The orchestrator: order, cost and files *)

Section OrchestratorBounds.

Context {L : GoLib}.

Lemma outcomes_sublist c images outcomes :
  Forall2 (videoOf c) images outcomes ->
  map Video_ImageID (omap id outcomes) `sublist_of` map Image_SceneID images
  /\ Forall (fun v => Video_Length v = VideoLength (config c))
            (omap id outcomes).
Proof.
  induction 1 as [|image o images outcomes Hv _ [IH1 IH2]].
  - split; constructor.
  - destruct o as [v|]; cbn.
    + destruct Hv as [Hid Hlen]. rewrite Hid.
      split; [by apply sublist_skip | by constructor].
    + split; [by apply sublist_cons | exact IH2].
Qed.

(** X6.  With or without an API key, the videos [Convert] returns follow
    the order of the input images: their image ids are the scene ids of
    the images with some of them left out, and every video has the
    configured length. *)
Theorem Convert_keeps_order c images w :
  map Video_ImageID (fst (fst (Convert c images w)))
    `sublist_of` map Image_SceneID images
  /\ Forall (fun v => Video_Length v = VideoLength (config c))
            (fst (fst (Convert c images w))).
Proof.
  unfold Convert, createPlaceholderVideos.
  destruct (String.eqb (RunwayAPIKey (config c)) "").
  - pose proof (placeholderLoop_outcomes c images [] w) as Hv.
    destruct (placeholderLoop c images [] w) as [videos w1]; cbn [fst] in *.
    rewrite app_nil_l in Hv. subst videos.
    apply outcomes_sublist, placeholderOutcomes_videos.
  - pose proof (convertLoop_outcomes c images [] w) as Hv.
    destruct (convertLoop c images [] w) as [videos w1]; cbn [fst] in *.
    rewrite app_nil_l in Hv.
    assert (Hfst : fst (fst (match videos with
                             | [] => (videos, Some NoArtifactsProduced, w1)
                             | _ :: _ => (videos, None, w1)
                             end)) = videos) by (by destruct videos).
    rewrite Hfst, Hv. apply outcomes_sublist, convertOutcomes_videos.
Qed.

Lemma bounded_refl w : bounded 0 0 w w.
Proof. exists []. rewrite app_nil_r. cbn. repeat split; lia. Qed.

Lemma bounded_trans r1 t1 r2 t2 w1 w2 w3 :
  bounded r1 t1 w1 w2 -> bounded r2 t2 w2 w3 ->
  bounded (r1 + r2) (t1 + t2) w1 w3.
Proof.
  intros (tl1 & H1 & Hr1 & Ht1 & Hn1) (tl2 & H2 & Hr2 & Ht2 & Hn2).
  exists (tl1 ++ tl2).
  rewrite H2, H1, Hn2, Hn1, requestsOf_app, sleepTotal_app, length_app, app_assoc.
  repeat split; lia.
Qed.

Lemma bounded_weaken r t r' t' w w' :
  bounded r t w w' -> (r <= r')%nat -> (t <= t')%Z -> bounded r' t' w w'.
Proof.
  intros (tl & H & Hr & Ht & Hn) Hle Hlt. exists tl. repeat split; try lia; done.
Qed.

Lemma bounded_fs op w : bounded 0 0 w (emit (EvFs op) w).
Proof. exists [EvFs op]. cbn. repeat split; lia. Qed.

Lemma bounded_sleep d w : (0 <= d)%Z -> bounded 0 d w (time_Sleep d w).
Proof. intros Hd. exists [EvSleep d]. cbn. repeat split; lia. Qed.

Lemma bounded_setFile r t path data w w' :
  bounded r t w w' -> bounded r t w (setFile path data w').
Proof.
  intros (tl & H & Hr & Ht & Hn). exists tl.
  split; [exact H|]. split; [exact Hr|]. split; [exact Ht | exact Hn].
Qed.

Lemma os_ReadFile_bounded path w : bounded 0 0 w (snd (os_ReadFile path w)).
Proof.
  unfold os_ReadFile. destruct (fsFault w _); [apply bounded_fs|].
  destruct (files w !! path); apply bounded_fs.
Qed.

Lemma os_MkdirAll_bounded path w : bounded 0 0 w (snd (os_MkdirAll path w)).
Proof. unfold os_MkdirAll. destruct (fsFault w _); apply bounded_fs. Qed.

Lemma os_WriteFile_bounded path data w :
  bounded 0 0 w (snd (os_WriteFile path data w)).
Proof.
  unfold os_WriteFile. destruct (fsFault w _); cbn [snd];
    [|apply bounded_setFile]; apply bounded_fs.
Qed.

Lemma os_Create_bounded path w : bounded 0 0 w (snd (os_Create path w)).
Proof.
  unfold os_Create. destruct (fsFault w _); cbn [snd];
    [|apply bounded_setFile]; apply bounded_fs.
Qed.

Lemma file_WriteString_bounded path text w :
  bounded 0 0 w (snd (file_WriteString path text w)).
Proof.
  unfold file_WriteString. destruct (fsFault w _); cbn [snd];
    [|apply bounded_setFile]; apply bounded_fs.
Qed.

Lemma shortID_bounded w : bounded 0 0 w (snd (shortID w)).
Proof. exists []. cbn. rewrite app_nil_r. repeat split; lia. Qed.

Lemma sleepTotal_constant d l :
  Forall (fun x => x = d) l -> foldr Z.add 0%Z l = (Z.of_nat (length l) * d)%Z.
Proof. induction 1 as [|x l -> _ IH]; cbn [foldr length]; [lia|]. rewrite IH. lia. Qed.

(** The poller costs at most 61 round trips and 300 seconds of sleep. *)
Lemma pollForVideo_cost c jobID w :
  bounded 61 (300 * Second) w (snd (pollForVideo c jobID w)).
Proof.
  destruct (pollLoop_tail c jobID maxAttempts 1%nat (statusURL jobID) w)
    as (tail & Htr & Hreq & Hsl & Hall & Hn).
  exists tail. split; [exact Htr|]. split; [exact Hreq|]. split; [|exact Hn].
  unfold sleepTotal. rewrite (sleepTotal_constant pollInterval _ Hall).
  unfold pollInterval, Second, maxAttempts in *. lia.
Qed.

Lemma generateVideoWithRunway_cost c imageData description w :
  bounded 62 (300 * Second) w
    (snd (generateVideoWithRunway c imageData description w)).
Proof.
  unfold generateVideoWithRunway.
  destruct (http_NewRequest _ _ _) as [req|e];
    [|apply (bounded_weaken _ _ _ _ _ _ (bounded_refl w));
      [lia | unfold Second; lia]].
  set (req' := Header_Set _ _ (Header_Set _ _ (Header_Set _ _ req))).
  assert (Hdo : bounded 1 0 w (afterDo req' w)).
  { exists [EvDo req']. cbn. repeat split; lia. }
  assert (Hdo' : bounded 62 (300 * Second) w (afterDo req' w))
    by (apply (bounded_weaken _ _ _ _ _ _ Hdo); [lia | unfold Second; lia]).
  assert (Hpoll : forall jobID,
    bounded 62 (300 * Second) w (snd (pollForVideo c jobID (afterDo req' w)))).
  { intros jobID.
    exact (bounded_trans _ _ _ _ _ _ _ Hdo (pollForVideo_cost c jobID _)). }
  change (client_Do req' w) with (net w (nreq w) req', afterDo req' w).
  destruct (net w (nreq w) req') as [resp|]; [|exact Hdo'].
  destruct (Body resp) as [body|]; [|exact Hdo'].
  destruct (_ && _); [exact Hdo'|].
  destruct (json_Unmarshal_map body) as [m|]; [|exact Hdo'].
  destruct (Json.getString m "error"); [exact Hdo'|].
  destruct (Json.getString m "id") as [jobID|]; [apply Hpoll|].
  destruct (Json.getString m "jobId") as [jobID|]; [apply Hpoll | exact Hdo'].
Qed.

Lemma convertImage_cost c image w :
  bounded 62 (302 * Second) w (snd (convertImage c image w)).
Proof.
  assert (Hz : forall w1 w2, bounded 0 0 w1 w2 ->
                             bounded 62 (302 * Second) w1 w2)
    by (intros w1 w2 H; apply (bounded_weaken _ _ _ _ _ _ H);
        [lia | unfold Second; lia]).
  unfold convertImage.
  pose proof (os_ReadFile_bounded (Image_Path image) w) as H1.
  destruct (os_ReadFile (Image_Path image) w) as [[imageData|e] w1];
    cbn [snd] in *; [|by apply Hz].
  pose proof (generateVideoWithRunway_cost c imageData
                (Image_Description image) w1) as H2.
  pose proof (bounded_trans _ _ _ _ _ _ _ H1 H2) as H12.
  destruct (generateVideoWithRunway c imageData (Image_Description image) w1)
    as [[videoData|e] w2]; cbn [snd] in *;
    [|apply (bounded_weaken _ _ _ _ _ _ H12); [lia | unfold Second; lia]].
  pose proof (shortID_bounded w2) as H3.
  destruct (shortID w2) as [id w3]; cbn [snd] in *.
  set (videoPath := filepath_Join _ _).
  pose proof (os_MkdirAll_bounded (filepath_Dir videoPath) w3) as H4.
  pose proof (bounded_trans _ _ _ _ _ _ _
                (bounded_trans _ _ _ _ _ _ _ H12 H3) H4) as H14.
  destruct (os_MkdirAll (filepath_Dir videoPath) w3) as [[[]|e] w4];
    cbn [snd] in *;
    [|apply (bounded_weaken _ _ _ _ _ _ H14); [lia | unfold Second; lia]].
  pose proof (os_WriteFile_bounded videoPath videoData w4) as H5.
  pose proof (bounded_trans _ _ _ _ _ _ _ H14 H5) as H15.
  destruct (os_WriteFile videoPath videoData w4) as [[[]|e] w5];
    cbn [snd] in *;
    [|apply (bounded_weaken _ _ _ _ _ _ H15); [lia | unfold Second; lia]].
  assert (H6 : bounded 0 (2 * Second) w5 (time_Sleep (2 * Second) w5))
    by (apply bounded_sleep; unfold Second; lia).
  apply (bounded_weaken _ _ _ _ _ _ (bounded_trans _ _ _ _ _ _ _ H15 H6));
    [lia | unfold Second; lia].
Qed.

Lemma convertLoop_cost c images :
  forall videos w,
    bounded (62 * length images) (Z.of_nat (length images) * (302 * Second))
            w (snd (convertLoop c images videos w)).
Proof.
  induction images as [|image rest IH]; intros videos w.
  - cbn. apply bounded_refl.
  - cbn [convertLoop].
    pose proof (convertImage_cost c image w) as H1.
    destruct (convertImage c image w) as [[v|] w1]; cbn [snd] in H1;
      apply (bounded_weaken _ _ _ _ _ _ (bounded_trans _ _ _ _ _ _ _ H1 (IH _ _)));
      cbn [length]; lia.
Qed.

Lemma createPlaceholderVideo_bounded path w :
  bounded 0 0 w (snd (createPlaceholderVideo path w)).
Proof.
  unfold createPlaceholderVideo.
  pose proof (os_MkdirAll_bounded (filepath_Dir path) w) as H1.
  destruct (os_MkdirAll (filepath_Dir path) w) as [[[]|e] w1]; cbn [snd] in *;
    [|exact H1].
  pose proof (bounded_trans _ _ _ _ _ _ _ H1 (os_Create_bounded path w1)) as H2.
  destruct (os_Create path w1) as [[[]|e] w2]; cbn [snd] in *; [|exact H2].
  exact (bounded_trans _ _ _ _ _ _ _ H2 (file_WriteString_bounded _ _ _)).
Qed.

Lemma placeholderFor_cost c image w :
  bounded 0 (100 * Millisecond) w (snd (placeholderFor c image w)).
Proof.
  unfold placeholderFor.
  pose proof (shortID_bounded w) as H0.
  destruct (shortID w) as [id w1]; cbn [snd] in *.
  set (videoPath := filepath_Join _ _).
  pose proof (bounded_trans _ _ _ _ _ _ _ H0
                (createPlaceholderVideo_bounded videoPath w1)) as H1.
  destruct (createPlaceholderVideo videoPath w1) as [[[]|e] w2];
    cbn [snd] in *.
  - assert (H2 : bounded 0 (100 * Millisecond) w2
                   (time_Sleep (100 * Millisecond) w2))
      by (apply bounded_sleep; unfold Millisecond; lia).
    exact (bounded_trans _ _ _ _ _ _ _ H1 H2).
  - apply (bounded_weaken _ _ _ _ _ _ H1); [lia | unfold Millisecond; lia].
Qed.

Lemma placeholderLoop_cost c images :
  forall videos w,
    bounded 0 (Z.of_nat (length images) * (100 * Millisecond))
            w (snd (placeholderLoop c images videos w)).
Proof.
  induction images as [|image rest IH]; intros videos w.
  - cbn. apply bounded_refl.
  - cbn [placeholderLoop].
    pose proof (placeholderFor_cost c image w) as H1.
    destruct (placeholderFor c image w) as [[v|] w1]; cbn [snd] in H1;
      apply (bounded_weaken _ _ _ _ _ _ (bounded_trans _ _ _ _ _ _ _ H1 (IH _ _)));
      cbn [length]; lia.
Qed.

(** X7.  [Convert] is bounded whatever the provider and the file system
    do: for a batch of N images it makes at most 62 N round trips (one
    submission, 60 status queries and one download per image) and sleeps
    at most 302 N seconds in all. *)
Theorem Convert_cost c images w :
  bounded (62 * length images) (Z.of_nat (length images) * (302 * Second))
          w (snd (Convert c images w)).
Proof.
  unfold Convert, createPlaceholderVideos.
  destruct (String.eqb (RunwayAPIKey (config c)) "").
  - pose proof (placeholderLoop_cost c images [] w) as H.
    destruct (placeholderLoop c images [] w) as [videos w1]; cbn [snd] in *.
    apply (bounded_weaken _ _ _ _ _ _ H); [lia|].
    unfold Millisecond, Second. lia.
  - pose proof (convertLoop_cost c images [] w) as H.
    destruct (convertLoop c images [] w) as [[|v videos] w1]; exact H.
Qed.

End OrchestratorBounds.

(** ** The orchestrator and the file system *)

Section OrchestratorFiles.

Context {L : GoLib}.

Lemma keepsFiles_refl w : keepsFiles w w.
Proof. by intros path H. Qed.

Lemma keepsFiles_trans w1 w2 w3 :
  keepsFiles w1 w2 -> keepsFiles w2 w3 -> keepsFiles w1 w3.
Proof. intros H1 H2 path H. by apply H2, H1. Qed.

Lemma keepsFiles_same w w' : files w' = files w -> keepsFiles w w'.
Proof. intros H path. by rewrite H. Qed.

Lemma keepsFiles_setFile path data w : keepsFiles w (setFile path data w).
Proof.
  intros p H. cbn [setFile files].
  destruct (decide (path = p)) as [->|Hne].
  - rewrite lookup_insert_eq. eauto.
  - by rewrite lookup_insert_ne.
Qed.

(** The poller and the submission leave the files alone. *)
Lemma downloadVideo_files c url w :
  files (snd (downloadVideo c url w)) = files w.
Proof.
  unfold downloadVideo. destruct (http_NewRequest _ _ _) as [req|e];
    [|reflexivity].
  unfold client_Do. destruct (net w (nreq w) req) as [resp|]; [|reflexivity].
  destruct (negb _); [reflexivity|]. by destruct (Body resp).
Qed.

Lemma pollAttempt_files c jobID apiURL attempt w :
  files (snd (pollAttempt c jobID apiURL attempt w)) = files w.
Proof.
  unfold pollAttempt. destruct (http_NewRequest _ _ _) as [req|e];
    [|reflexivity].
  set (req' := Header_Set _ _ (Header_Set _ _ req)).
  change (client_Do req' w) with (net w (nreq w) req', afterDo req' w).
  destruct (net w (nreq w) req') as [resp|]; [|reflexivity].
  destruct (Body resp) as [body|]; [|reflexivity].
  destruct (negb _); [reflexivity|].
  destruct (json_Unmarshal_map body) as [m|]; [|reflexivity].
  destruct (Json.getString m "status") as [st|]; [|reflexivity].
  destruct (String.eqb st "completed").
  - destruct (resultLocation m) as [u|]; [|reflexivity].
    pose proof (downloadVideo_files c u (afterDo req' w)) as H.
    by destruct (downloadVideo c u (afterDo req' w)).
  - by destruct (String.eqb st "failed").
Qed.

Lemma pollLoop_files c jobID remaining :
  forall attempt apiURL w,
    files (snd (pollLoop c jobID remaining attempt apiURL w)) = files w.
Proof.
  induction remaining as [|r IH]; intros attempt apiURL w; [reflexivity|].
  rewrite pollLoop_S.
  pose proof (pollAttempt_files c jobID apiURL attempt w) as H.
  destruct (pollAttempt c jobID apiURL attempt w) as [[url'|res] w1];
    cbn [snd] in *; [|exact H].
  by rewrite IH.
Qed.

Lemma generateVideoWithRunway_files c imageData description w :
  files (snd (generateVideoWithRunway c imageData description w)) = files w.
Proof.
  unfold generateVideoWithRunway.
  destruct (http_NewRequest _ _ _) as [req|e]; [|reflexivity].
  set (req' := Header_Set _ _ (Header_Set _ _ (Header_Set _ _ req))).
  change (client_Do req' w) with (net w (nreq w) req', afterDo req' w).
  assert (Hpoll : forall jobID,
             files (snd (pollForVideo c jobID (afterDo req' w))) = files w)
    by (intros jobID; unfold pollForVideo; by rewrite pollLoop_files).
  destruct (net w (nreq w) req') as [resp|]; [|reflexivity].
  destruct (Body resp) as [body|]; [|reflexivity].
  destruct (_ && _); [reflexivity|].
  destruct (json_Unmarshal_map body) as [m|]; [|reflexivity].
  destruct (Json.getString m "error"); [reflexivity|].
  destruct (Json.getString m "id") as [jobID|]; [apply Hpoll|].
  destruct (Json.getString m "jobId") as [jobID|]; [apply Hpoll | reflexivity].
Qed.

Lemma os_ReadFile_files path w : files (snd (os_ReadFile path w)) = files w.
Proof.
  unfold os_ReadFile. destruct (fsFault w _); [reflexivity|].
  by destruct (files w !! path).
Qed.

Lemma os_MkdirAll_files path w : files (snd (os_MkdirAll path w)) = files w.
Proof. unfold os_MkdirAll. by destruct (fsFault w _). Qed.

(** A video [Convert] made has its file, and no file is lost. *)
Lemma convertImage_file c image w :
  keepsFiles w (snd (convertImage c image w))
  /\ forall v, fst (convertImage c image w) = Some v ->
               is_Some (files (snd (convertImage c image w)) !! Video_Path v).
Proof.
  unfold convertImage.
  pose proof (os_ReadFile_files (Image_Path image) w) as H1.
  destruct (os_ReadFile (Image_Path image) w) as [[imageData|e] w1];
    cbn [fst snd] in *; [|split; [by apply keepsFiles_same | discriminate]].
  pose proof (generateVideoWithRunway_files c imageData
                (Image_Description image) w1) as H2.
  destruct (generateVideoWithRunway c imageData (Image_Description image) w1)
    as [[videoData|e] w2]; cbn [fst snd] in *;
    [|split; [apply keepsFiles_same; congruence | discriminate]].
  assert (H3 : files (snd (shortID w2)) = files w2) by reflexivity.
  destruct (shortID w2) as [id w3]; cbn [fst snd] in *.
  set (videoPath := filepath_Join _ _).
  pose proof (os_MkdirAll_files (filepath_Dir videoPath) w3) as H4.
  destruct (os_MkdirAll (filepath_Dir videoPath) w3) as [[[]|e] w4];
    cbn [fst snd] in *;
    [|split; [apply keepsFiles_same; congruence | discriminate]].
  assert (H04 : keepsFiles w w4) by (apply keepsFiles_same; congruence).
  unfold os_WriteFile. destruct (fsFault w4 (OpWriteFile videoPath));
    cbn [fst snd].
  - split; [exact H04 | discriminate].
  - split.
    + exact (keepsFiles_trans _ _ _ H04 (keepsFiles_setFile _ _ _)).
    + intros v [= <-]. cbn. rewrite lookup_insert_eq. eauto.
Qed.

Lemma createPlaceholderVideo_keeps path w :
  keepsFiles w (snd (createPlaceholderVideo path w)).
Proof.
  unfold createPlaceholderVideo, os_MkdirAll.
  destruct (fsFault w (OpMkdirAll _)); cbn [snd]; [by apply keepsFiles_same|].
  unfold os_Create. cbn [emit fsFault].
  destruct (fsFault w (OpCreate path)); cbn [snd]; [by apply keepsFiles_same|].
  unfold file_WriteString. cbn [setFile emit fsFault].
  destruct (fsFault w (OpWriteString path)); cbn [snd].
  - intros p H. cbn. destruct (decide (path = p)) as [->|Hne].
    + rewrite lookup_insert_eq. eauto.
    + by rewrite lookup_insert_ne.
  - intros p H. cbn. destruct (decide (path = p)) as [->|Hne].
    + rewrite lookup_insert_eq. eauto.
    + by rewrite !lookup_insert_ne.
Qed.

(** What a placeholder file costs and holds. *)
Lemma createPlaceholderVideo_outcome path w :
  (fst (createPlaceholderVideo path w) = Ok tt <->
   fsFault w (OpMkdirAll (filepath_Dir path)) = false
   /\ fsFault w (OpCreate path) = false
   /\ fsFault w (OpWriteString path) = false)
  /\ (fst (createPlaceholderVideo path w) = Ok tt ->
      files (snd (createPlaceholderVideo path w)) =
      <[path := placeholderMessage]> (files w))
  /\ (fsFault w (OpMkdirAll (filepath_Dir path)) = true
      \/ fsFault w (OpCreate path) = true ->
      files (snd (createPlaceholderVideo path w)) = files w).
Proof.
  unfold createPlaceholderVideo, os_MkdirAll.
  destruct (fsFault w (OpMkdirAll _)) eqn:H1; cbn [fst snd].
  { split; [split; [discriminate | intros [? _]; discriminate]|].
    split; [discriminate | reflexivity]. }
  unfold os_Create. cbn [emit fsFault].
  destruct (fsFault w (OpCreate path)) eqn:H2; cbn [fst snd].
  { split; [split; [discriminate | intros (_ & ? & _); discriminate]|].
    split; [discriminate | reflexivity]. }
  unfold file_WriteString. cbn [setFile emit fsFault].
  destruct (fsFault w (OpWriteString path)) eqn:H3; cbn [fst snd].
  { split; [split; [discriminate | intros (_ & _ & ?); discriminate]|].
    split; [discriminate | intros [?|?]; discriminate]. }
  split; [split; [done | reflexivity]|].
  split; [|intros [?|?]; discriminate].
  intros _. cbn [files setFile emit]. rewrite lookup_insert_eq. cbn [default].
  change ("" +:+ ?x) with x. unfold placeholderMessage.
  by rewrite insert_insert_eq.
Qed.

(** X8.  [createPlaceholderVideo] returns no error exactly when none of
    its three file operations (directory, file creation, write) is
    refused; the file then holds the placeholder text, whatever it held
    before.  When the directory or the file creation is refused, no file
    is touched; when only the write is refused, the file is left empty. *)
Theorem createPlaceholderVideo_effect path w :
  (fst (createPlaceholderVideo path w) = Ok tt <->
   fsFault w (OpMkdirAll (filepath_Dir path)) = false
   /\ fsFault w (OpCreate path) = false
   /\ fsFault w (OpWriteString path) = false)
  /\ (fst (createPlaceholderVideo path w) = Ok tt ->
      files (snd (createPlaceholderVideo path w)) =
      <[path := placeholderMessage]> (files w))
  /\ (fsFault w (OpMkdirAll (filepath_Dir path)) = true
      \/ fsFault w (OpCreate path) = true ->
      files (snd (createPlaceholderVideo path w)) = files w)
  /\ (fsFault w (OpMkdirAll (filepath_Dir path)) = false ->
      fsFault w (OpCreate path) = false ->
      fsFault w (OpWriteString path) = true ->
      files (snd (createPlaceholderVideo path w)) = <[path := ""]> (files w)).
Proof.
  destruct (createPlaceholderVideo_outcome path w) as (Hiff & Hok & Hkeep).
  split; [exact Hiff|]. split; [exact Hok|]. split; [exact Hkeep|].
  intros H1 H2 H3. unfold createPlaceholderVideo, os_MkdirAll. rewrite H1.
  unfold os_Create. cbn [emit fsFault]. rewrite H2.
  unfold file_WriteString. cbn [setFile emit fsFault]. rewrite H3.
  reflexivity.
Qed.

Lemma placeholderFor_file c image w :
  keepsFiles w (snd (placeholderFor c image w))
  /\ forall v, fst (placeholderFor c image w) = Some v ->
               is_Some (files (snd (placeholderFor c image w)) !! Video_Path v).
Proof.
  unfold placeholderFor.
  destruct (shortID w) as [id w1] eqn:Hid.
  assert (H0 : files w1 = files w)
    by (apply (f_equal snd) in Hid; cbn in Hid; by subst w1).
  set (videoPath := filepath_Join _ _).
  pose proof (createPlaceholderVideo_keeps videoPath w1) as Hk.
  pose proof (createPlaceholderVideo_outcome videoPath w1) as (_ & Hok & _).
  destruct (createPlaceholderVideo videoPath w1) as [[[]|e] w2];
    cbn [fst snd] in *.
  - split.
    + intros p H. apply Hk. by rewrite H0.
    + intros v [= <-]. cbn. rewrite (Hok eq_refl), lookup_insert_eq. eauto.
  - split; [|discriminate]. intros p H. apply Hk. by rewrite H0.
Qed.

(** The loops keep the invariant "every video made so far has its file". *)
Lemma loop_files (body : Image -> World -> option Video * World)
      (loop : list Image -> list Video -> World -> list Video * World) :
  (forall videos w, loop [] videos w = (videos, w)) ->
  (forall image rest videos w,
      loop (image :: rest) videos w =
      match body image w with
      | (Some v, w1) => loop rest (videos ++ [v]) w1
      | (None, w1) => loop rest videos w1
      end) ->
  (forall image w,
      keepsFiles w (snd (body image w))
      /\ forall v, fst (body image w) = Some v ->
                   is_Some (files (snd (body image w)) !! Video_Path v)) ->
  forall images videos w,
    (forall v, v ∈ videos -> is_Some (files w !! Video_Path v)) ->
    forall v, v ∈ fst (loop images videos w) ->
              is_Some (files (snd (loop images videos w)) !! Video_Path v).
Proof.
  intros Hnil Hcons Hbody.
  induction images as [|image rest IH]; intros videos w Hinv v Hin.
  - rewrite Hnil in *. by apply Hinv.
  - rewrite Hcons in *.
    destruct (Hbody image w) as [Hk Hnew].
    destruct (body image w) as [[v0|] w1]; cbn [fst snd] in *.
    + apply (IH (videos ++ [v0]) w1); [|exact Hin].
      intros v' Hv'. apply elem_of_app in Hv' as [Hv'|Hv'].
      * by apply Hk, Hinv.
      * apply list_elem_of_singleton in Hv'. subst v'. by apply Hnew.
    + apply (IH videos w1); [|exact Hin].
      intros v' Hv'. by apply Hk, Hinv.
Qed.

(** X9.  Every video [Convert] returns, placeholder or not, has a file
    at its path when [Convert] returns, and no file that existed before
    is gone. *)
Theorem Convert_videos_on_disk c images w :
  (forall v, v ∈ fst (fst (Convert c images w)) ->
             is_Some (files (snd (Convert c images w)) !! Video_Path v))
  /\ keepsFiles w (snd (Convert c images w)).
Proof.
  assert (Hkeep : forall (body : Image -> World -> option Video * World)
                         (loop : list Image -> list Video -> World
                                 -> list Video * World),
    (forall videos w, loop [] videos w = (videos, w)) ->
    (forall image rest videos w,
        loop (image :: rest) videos w =
        match body image w with
        | (Some v, w1) => loop rest (videos ++ [v]) w1
        | (None, w1) => loop rest videos w1
        end) ->
    (forall image w, keepsFiles w (snd (body image w))) ->
    forall images videos w, keepsFiles w (snd (loop images videos w))).
  { intros body loop Hnil Hcons Hbody.
    induction images0 as [|image rest IH]; intros videos w0.
    - rewrite Hnil. apply keepsFiles_refl.
    - rewrite Hcons. pose proof (Hbody image w0) as Hk.
      destruct (body image w0) as [[v0|] w1]; cbn [snd] in Hk;
        exact (keepsFiles_trans _ _ _ Hk (IH _ _)). }
  unfold Convert, createPlaceholderVideos.
  destruct (String.eqb (RunwayAPIKey (config c)) "").
  - pose proof (loop_files (placeholderFor c) (placeholderLoop c)
                  ltac:(reflexivity) ltac:(reflexivity)
                  (placeholderFor_file c) images [] w) as Hin.
    pose proof (Hkeep (placeholderFor c) (placeholderLoop c)
                  ltac:(reflexivity) ltac:(reflexivity)
                  (fun image w0 => proj1 (placeholderFor_file c image w0))
                  images [] w) as Hk.
    destruct (placeholderLoop c images [] w) as [videos w1]; cbn [fst snd] in *.
    split; [|exact Hk]. apply Hin. intros v Hv. by apply elem_of_nil in Hv.
  - pose proof (loop_files (convertImage c) (convertLoop c)
                  ltac:(reflexivity) ltac:(reflexivity)
                  (convertImage_file c) images [] w) as Hin.
    pose proof (Hkeep (convertImage c) (convertLoop c)
                  ltac:(reflexivity) ltac:(reflexivity)
                  (fun image w0 => proj1 (convertImage_file c image w0))
                  images [] w) as Hk.
    destruct (convertLoop c images [] w) as [[|v0 videos] w1];
      cbn [fst snd] in *.
    + split; [|exact Hk]. intros v Hv. by apply elem_of_nil in Hv.
    + split; [|exact Hk]. apply Hin. intros v Hv. by apply elem_of_nil in Hv.
Qed.

(** With a file system that refuses nothing, a placeholder is made for
    the image and its file holds the placeholder text. *)
Lemma placeholderFor_written c image w :
  (forall op, fsFault w op = false) ->
  exists v,
    fst (placeholderFor c image w) = Some v
    /\ files (snd (placeholderFor c image w)) =
       <[Video_Path v := placeholderMessage]> (files w)
    /\ fsFault (snd (placeholderFor c image w)) = fsFault w.
Proof.
  intros Hok.
  pose proof (placeholderFor_offline c image w) as [_ Hf].
  unfold placeholderFor in *.
  destruct (shortID w) as [id w1] eqn:Hid.
  assert (H0 : files w1 = files w /\ fsFault w1 = fsFault w)
    by (apply (f_equal snd) in Hid; cbn in Hid; by subst w1).
  destruct H0 as [H0 H0'].
  set (videoPath := filepath_Join _ _) in *.
  pose proof (createPlaceholderVideo_outcome videoPath w1) as ([_ Hiff] & Hfiles & _).
  assert (Hres : fst (createPlaceholderVideo videoPath w1) = Ok tt)
    by (apply Hiff; rewrite H0'; by rewrite !Hok).
  specialize (Hfiles Hres).
  destruct (createPlaceholderVideo videoPath w1) as [[[]|e] w2];
    cbn [fst snd] in *; [|discriminate].
  eexists. split; [reflexivity|]. cbn [Video_Path]. split; [|exact Hf].
  cbn. by rewrite Hfiles, H0.
Qed.

Lemma placeholderLoop_written c images :
  forall videos w,
    (forall op, fsFault w op = false) ->
    (forall v, v ∈ videos ->
               files w !! Video_Path v = Some placeholderMessage) ->
    forall v, v ∈ fst (placeholderLoop c images videos w) ->
              files (snd (placeholderLoop c images videos w)) !! Video_Path v =
              Some placeholderMessage.
Proof.
  induction images as [|image rest IH]; intros videos w Hok Hinv v Hin.
  - by apply Hinv.
  - cbn [placeholderLoop] in *.
    destruct (placeholderFor_written c image w Hok) as (v0 & Hres & Hfiles & Hf).
    destruct (placeholderFor c image w) as [o w1]; cbn [fst snd] in *.
    subst o. apply (IH (videos ++ [v0]) w1); [|..|exact Hin].
    + intros op. by rewrite Hf.
    + intros v' Hv'. rewrite Hfiles.
      destruct (decide (Video_Path v0 = Video_Path v')) as [->|Hne].
      * apply lookup_insert_eq.
      * rewrite lookup_insert_ne by done.
        apply elem_of_app in Hv' as [Hv'|Hv']; [by apply Hinv|].
        apply list_elem_of_singleton in Hv'. by subst v'.
Qed.

(** X10.  Without an API key and with a file system that refuses nothing,
    the file of every video [Convert] returns holds the placeholder
    text. *)
Theorem Convert_offline_files c images w :
  RunwayAPIKey (config c) = "" ->
  (forall op, fsFault w op = false) ->
  forall v, v ∈ fst (fst (Convert c images w)) ->
            files (snd (Convert c images w)) !! Video_Path v =
            Some placeholderMessage.
Proof.
  intros Hkey Hok. unfold Convert, createPlaceholderVideos.
  rewrite (key_absent c Hkey).
  pose proof (placeholderLoop_written c images [] w Hok) as H.
  destruct (placeholderLoop c images [] w) as [videos w1]; cbn [fst snd] in *.
  apply H. intros v Hv. by apply elem_of_nil in Hv.
Qed.

End OrchestratorFiles.

(** ** Image creation *)

Section ImageCreation.

Import imagecreation.

Context {L : GoLib} {T : GoText}.

Variable contentType : nat -> string.

(** Replacing one byte by one byte is a map over the bytes. *)
Lemma ReplaceAll1_map s old (new : ascii) :
  Strings.ReplaceAll1 s old (String new "") =
  Strings.mapBytes (fun ch => if Ascii.eqb ch old then new else ch) s.
Proof.
  induction s as [|ch s IH]; [reflexivity|].
  cbn [Strings.ReplaceAll1 Strings.mapBytes]. rewrite IH.
  by destruct (Ascii.eqb ch old).
Qed.

Lemma mapBytes_mapBytes f g s :
  Strings.mapBytes f (Strings.mapBytes g s) = Strings.mapBytes (fun ch => f (g ch)) s.
Proof. induction s as [|ch s IH]; cbn; [reflexivity|]. by rewrite IH. Qed.

Lemma mapBytes_ext f g s :
  (forall ch, f ch = g ch) -> Strings.mapBytes f s = Strings.mapBytes g s.
Proof. intros H. induction s as [|ch s IH]; cbn; [reflexivity|]. by rewrite H, IH. Qed.

Lemma mapBytes_length f s : String.length (Strings.mapBytes f s) = String.length s.
Proof. induction s as [|ch s IH]; cbn; [reflexivity|]. by rewrite IH. Qed.

Lemma ToLower_mapBytes s : Strings.ToLower s = Strings.mapBytes Strings.lowerByte s.
Proof. induction s as [|ch s IH]; cbn; [reflexivity|]. by rewrite IH. Qed.

Lemma mapBytes_isASCII f s :
  (forall ch, (N_of_ascii ch <? 128)%N = true -> (N_of_ascii (f ch) <? 128)%N = true) ->
  Text.isASCII s = true -> Text.isASCII (Strings.mapBytes f s) = true.
Proof.
  intros Hf. induction s as [|ch s IH]; cbn; [reflexivity|].
  rewrite !andb_true_iff. intros [H1 H2]. split; [by apply Hf | by apply IH].
Qed.

Lemma mapBytes_hasByte f bad s :
  (forall ch, Ascii.eqb (f ch) bad = false) ->
  Text.hasByte bad (Strings.mapBytes f s) = false.
Proof.
  intros Hf. induction s as [|ch s IH]; cbn; [reflexivity|]. by rewrite Hf, IH.
Qed.

Lemma sanitize_replaced filename :
  Strings.ReplaceAll1
    (Strings.ReplaceAll1
       (Strings.ReplaceAll1
          (Strings.ReplaceAll1
             (Strings.ReplaceAll1
                (Strings.ReplaceAll1
                   (Strings.ReplaceAll1
                      (Strings.ReplaceAll1
                         (Strings.ReplaceAll1
                            (Strings.ReplaceAll1 filename " " "_") "/" "_")
                         Text.backslash "_") ":" "_") "*" "_") "?" "_")
             (ascii_of_N 34) "_") "<" "_") ">" "_") "|" "_" =
  Strings.mapBytes sanitizeByte filename.
Proof.
  rewrite !ReplaceAll1_map, !mapBytes_mapBytes.
  apply mapBytes_ext.
  intros [[] [] [] [] [] [] [] []]; reflexivity.
Qed.

Lemma sanitizeByte_ascii ch :
  (N_of_ascii ch <? 128)%N = true -> (N_of_ascii (sanitizeByte ch) <? 128)%N = true.
Proof. destruct ch as [[] [] [] [] [] [] [] []]; intros H; exact H || reflexivity. Qed.

Lemma sanitized_not_forbidden bad ch :
  forbidden bad = true ->
  Ascii.eqb (Strings.lowerByte (sanitizeByte ch)) bad = false.
Proof.
  destruct bad as [[] [] [] [] [] [] [] []]; intros Hbad;
    try discriminate Hbad;
    destruct ch as [[] [] [] [] [] [] [] []]; reflexivity.
Qed.

(** [sanitizeFilename] on ASCII text, where [strings.ToLower] is the
    lower-casing of the ASCII letters. *)
Lemma sanitizeFilename_mapBytes filename :
  (forall s, Text.isASCII s = true -> strings_ToLower s = Strings.ToLower s) ->
  Text.isASCII filename = true ->
  sanitizeFilename filename =
    Strings.mapBytes (fun ch => Strings.lowerByte (sanitizeByte ch)) filename.
Proof.
  intros Hlower Hascii.
  unfold sanitizeFilename. rewrite sanitize_replaced.
  rewrite Hlower by (apply mapBytes_isASCII; [apply sanitizeByte_ascii | done]).
  by rewrite ToLower_mapBytes, mapBytes_mapBytes.
Qed.

(** X11.  On an ASCII name [sanitizeFilename] works byte by byte: each
    of the ten bytes it replaces (space, slash, backslash, colon, star,
    question mark, double quote, angle brackets, bar) becomes an
    underscore and each capital letter its small letter; the length is
    kept, and none of the ten bytes is left in the result. *)
Theorem sanitizeFilename_ascii filename :
  (forall s, Text.isASCII s = true -> strings_ToLower s = Strings.ToLower s) ->
  Text.isASCII filename = true ->
  sanitizeFilename filename =
    Strings.mapBytes (fun ch => Strings.lowerByte (sanitizeByte ch)) filename
  /\ String.length (sanitizeFilename filename) = String.length filename
  /\ (forall bad, forbidden bad = true ->
                  Text.hasByte bad (sanitizeFilename filename) = false).
Proof.
  intros Hlower Hascii.
  rewrite (sanitizeFilename_mapBytes filename Hlower Hascii).
  split; [reflexivity|]. split; [apply mapBytes_length|].
  intros bad Hbad. apply mapBytes_hasByte. intros ch.
  by apply sanitized_not_forbidden.
Qed.

Lemma titlePart_None scene :
  titlePart scene = None <->
  (String.length (sanitizeFilename (Scene_Title scene)) < 20)%nat.
Proof.
  unfold titlePart, Text.slice.
  change (0 <=? 20)%nat with true. cbn [andb].
  destruct (Nat.leb_spec 20 (String.length (sanitizeFilename (Scene_Title scene)))).
  - split; [discriminate | lia].
  - split; [intros _; lia | reflexivity].
Qed.

Lemma placeholderFor_outcome c scene w :
  match titlePart scene with
  | None => fst (placeholderFor c scene w) = Panicked
  | Some _ =>
      exists o, fst (placeholderFor c scene w) = Returned o
                /\ forall image, o = Some image -> imageOf scene image
  end.
Proof.
  unfold placeholderFor. destruct (titlePart scene) as [title|]; [|reflexivity].
  destruct (uuid_New w) as [id w1].
  destruct (createPlaceholderImage _ w1) as [[[]|e] w2]; cbn [fst].
  - eexists. split; [reflexivity|]. intros image [= <-]. by split.
  - eexists. split; [reflexivity|]. discriminate.
Qed.

Lemma createImage_outcome c scene w :
  titlePart scene <> None ->
  exists o, fst (createImage contentType c scene w) = Returned o
            /\ forall image, o = Some image -> imageOf scene image.
Proof.
  intros Hlong. unfold createImage.
  destruct (generateImageWithHuggingFace contentType c scene w)
    as [[imageData|e] w1]; [|by exists None].
  destruct (titlePart scene) as [title|]; [|done].
  destruct (uuid_New w1) as [id w2].
  destruct (os_MkdirAll _ w2) as [[[]|e] w3]; [|by exists None].
  destruct (os_WriteFile _ _ w3) as [[[]|e] w4]; [|by exists None].
  eexists. split; [reflexivity|]. intros image [= <-]. by split.
Qed.

Lemma imageLoop_returns body scenes :
  (forall scene w,
      titlePart scene <> None ->
      exists o, fst (body scene w) = Returned o
                /\ forall image, o = Some image -> imageOf scene image) ->
  Forall (fun scene => titlePart scene <> None) scenes ->
  forall images w,
  exists more,
    fst (imageLoop body scenes images w) = Returned (images ++ more)
    /\ map imageKey more `sublist_of` map sceneKey scenes.
Proof.
  intros Hbody. induction 1 as [|scene rest Hlong _ IH]; intros images w.
  - exists []. cbn. rewrite app_nil_r. split; [reflexivity | constructor].
  - cbn [imageLoop].
    destruct (Hbody scene w Hlong) as (o & Ho & Hlink).
    destruct (body scene w) as [out w1]; cbn [fst] in Ho. subst out.
    destruct o as [image|].
    + destruct (IH (images ++ [image]) w1) as (more & Hres & Hsub).
      exists (image :: more). rewrite Hres, <- app_assoc. split; [reflexivity|].
      cbn [map]. destruct (Hlink image eq_refl) as [Hid Hdesc].
      unfold imageKey at 1, sceneKey at 1. rewrite Hid, Hdesc.
      by apply sublist_skip.
    + destruct (IH images w1) as (more & Hres & Hsub).
      exists more. split; [exact Hres|]. by apply sublist_cons.
Qed.

Lemma imageLoop_panics c scenes :
  forall images w,
    fst (imageLoop (placeholderFor c) scenes images w) = Panicked <->
    Exists (fun scene => titlePart scene = None) scenes.
Proof.
  induction scenes as [|scene rest IH]; intros images w.
  - cbn. split; [discriminate | intros H; inversion H].
  - cbn [imageLoop]. rewrite Exists_cons.
    pose proof (placeholderFor_outcome c scene w) as Hout.
    destruct (titlePart scene) as [title|] eqn:Htitle.
    + destruct Hout as (o & Ho & _).
      destruct (placeholderFor c scene w) as [out w1]; cbn [fst] in Ho.
      subst out. destruct o as [image|]; rewrite IH;
        (split; [by right | by intros [?|?]]).
    + destruct (placeholderFor c scene w) as [out w1]; cbn [fst] in Hout.
      subst out. cbn. split; [by left | reflexivity].
Qed.

End ImageCreation.

Section ImageCreationProperties.

Import imagecreation.

Context {L : GoLib} {T : GoText}.

Variable contentType : nat -> string.

(** X12.  Without an API key, [Create] panics exactly when the batch has
    a scene whose sanitized title is shorter than 20 bytes (the slice
    [[:20]] is out of range), whatever the file system does; otherwise
    it returns images and a nil error. *)
Theorem Create_panics_on_short_title c scenes w :
  HuggingFaceAPIKey (config c) = "" ->
  (fst (Create contentType c scenes w) = Panicked <->
   Exists (fun scene =>
             (String.length (sanitizeFilename (Scene_Title scene)) < 20)%nat)
          scenes)
  /\ (fst (Create contentType c scenes w) <> Panicked ->
      exists images, fst (Create contentType c scenes w) = Returned (images, None)).
Proof.
  intros Hkey. unfold Create, createPlaceholderImages. rewrite Hkey.
  change (String.eqb "" "") with true. cbn iota.
  pose proof (imageLoop_panics c scenes [] w) as Hp.
  destruct (imageLoop (placeholderFor c) scenes [] w) as [[images|] w1];
    cbn [fst] in *.
  - split.
    + split; [discriminate|]. intros Hex.
      assert (Hn : Exists (fun scene => titlePart scene = None) scenes).
      { apply Exists_exists in Hex as (scene & Hin & Hshort).
        apply Exists_exists. exists scene. split; [exact Hin|].
        by apply titlePart_None. }
      apply Hp in Hn. discriminate.
    + intros _. by exists images.
  - split; [|done]. split; [|reflexivity]. intros _.
    destruct Hp as [Hp _]. specialize (Hp eq_refl).
    apply Exists_exists in Hp as (scene & Hin & Hshort).
    apply Exists_exists. exists scene. split; [exact Hin|].
    by apply titlePart_None.
Qed.

(** [Create] returns when no title is too short for the slice. *)
Lemma Create_returns c scenes w :
  Forall (fun scene => titlePart scene <> None) scenes ->
  exists images err,
    fst (Create contentType c scenes w) = Returned (images, err)
    /\ map imageKey images `sublist_of` map sceneKey scenes
    /\ (err = Some NoImagesCreated <->
        HuggingFaceAPIKey (config c) <> "" /\ images = [])
    /\ (err <> Some NoImagesCreated -> err = None).
Proof.
  intros Hlong. unfold Create, createPlaceholderImages.
  destruct (String.eqb_spec (HuggingFaceAPIKey (config c)) "") as [Hkey|Hkey].
  - destruct (imageLoop_returns (placeholderFor c) scenes) with (images := @nil Image) (w := w)
      as (more & Hres & Hsub); [|exact Hlong|].
    { intros scene w0 Hne. pose proof (placeholderFor_outcome c scene w0) as H.
      by destruct (titlePart scene). }
    destruct (imageLoop (placeholderFor c) scenes [] w) as [out w1];
      cbn [fst] in *. subst out. cbn [app].
    exists more, None. split; [reflexivity|]. split; [exact Hsub|].
    split; [|done]. split; [discriminate | by intros [? _]].
  - destruct (imageLoop_returns (createImage contentType c) scenes)
      with (images := @nil Image) (w := w) as (more & Hres & Hsub);
      [|exact Hlong|].
    { intros scene w0 Hne. by apply createImage_outcome. }
    destruct (imageLoop (createImage contentType c) scenes [] w) as [out w1];
      cbn [fst] in *. subst out. cbn [app].
    destruct more as [|image more].
    + exists [], (Some NoImagesCreated). split; [reflexivity|].
      split; [exact Hsub|]. split; [by split | done].
    + exists (image :: more), None. split; [reflexivity|].
      split; [exact Hsub|]. split; [|done].
      split; [discriminate | intros [_ ?]; discriminate].
Qed.

(** X13.  When every sanitized title has at least 20 bytes, [Create]
    returns, with or without an API key: the images follow the order of
    the scenes, each with the id and the description of its scene; the
    error is [no images created] exactly when there is a key and no
    image was made. *)
Theorem Create_long_titles c scenes w :
  Forall (fun scene =>
            (20 <= String.length (sanitizeFilename (Scene_Title scene)))%nat)
         scenes ->
  exists images err,
    fst (Create contentType c scenes w) = Returned (images, err)
    /\ map imageKey images `sublist_of` map sceneKey scenes
    /\ (err = Some NoImagesCreated <->
        HuggingFaceAPIKey (config c) <> "" /\ images = [])
    /\ (err <> Some NoImagesCreated -> err = None).
Proof.
  intros Hlong. apply Create_returns.
  eapply Forall_impl; [exact Hlong|]. intros scene H Hnone.
  apply titlePart_None in Hnone. cbv beta in H. lia.
Qed.

(** X14.  An answer whose [Content-Type] contains [application/json]
    never gives an image: a 200 answer with an [error] string fails with
    that message, any other 200 answer with
    [unexpected JSON response ...]. *)
Theorem generateImageWithHuggingFace_json_answer c scene w :
  Text.Contains (contentType (nreq w)) "application/json" = true ->
  (forall imageData,
      fst (generateImageWithHuggingFace contentType c scene w) <> Ok imageData)
  /\ (forall m errMsg,
         url_ok (modelURL c) = true ->
         answers w 0 (imageRequest c scene) StatusOK m ->
         Json.getString m "error" = Some errMsg ->
         fst (generateImageWithHuggingFace contentType c scene w) =
         Err (Errorf "API error: %s" [ArgS errMsg])).
Proof.
  intros Hjson. split.
  - intros imageData. unfold generateImageWithHuggingFace.
    destruct (http_NewRequest _ _ _) as [req|e]; [|discriminate].
    destruct (client_Do _ w) as [[resp|] w1]; [|discriminate].
    destruct (Body resp) as [body|]; [|discriminate].
    destruct (negb _); [discriminate|]. rewrite Hjson.
    destruct (json_Unmarshal_map body) as [m|]; [|discriminate].
    destruct (Json.getString m "error"); discriminate.
  - intros m errMsg Hurl (body & Hnet & Hm) Herr.
    unfold generateImageWithHuggingFace, http_NewRequest. rewrite Hurl.
    change (Header_Set "Authorization" _ _) with (imageRequest c scene).
    unfold client_Do. change (0 + nreq w)%nat with (nreq w) in Hnet.
    rewrite Hnet. cbn [Body StatusCode].
    rewrite Z.eqb_refl. cbn [negb]. by rewrite Hjson, Hm, Herr.
Qed.

End ImageCreationProperties.


Section TextFacts.

Lemma prefix_length p s :
  String.prefix p s = true -> (String.length p <= String.length s)%nat.
Proof.
  revert p. induction s as [|b s IH]; intros [|a p]; cbn; try lia; try discriminate.
  destruct (ascii_dec a b); [|discriminate]. intros H. apply IH in H. lia.
Qed.

Lemma prefix_get p s i :
  String.prefix p s = true -> (i < String.length p)%nat ->
  String.get i s = String.get i p.
Proof.
  revert p i. induction s as [|b s IH]; intros [|a p] i; cbn; try lia; try discriminate.
  destruct (ascii_dec a b) as [->|]; [|discriminate]. intros H Hi.
  destruct i as [|i]; [reflexivity|]. apply IH; [exact H | lia].
Qed.

Lemma prefix_head c sub s :
  String.prefix (String c sub) s = true -> String.get 0 s = Some c.
Proof.
  destruct s as [|b s]; cbn; [discriminate|].
  destruct (ascii_dec c b) as [->|]; [reflexivity | discriminate].
Qed.

Lemma hasByte_get c p i :
  String.get i p = Some c -> Text.hasByte c p = true.
Proof.
  revert i. induction p as [|a p IH]; intros i; cbn; [discriminate|].
  destruct i as [|i].
  - intros [= ->]. by rewrite Ascii.eqb_refl.
  - intros H. rewrite (IH i H). apply orb_true_r.
Qed.

(** Where [strings.Index] finds [sub], there it is. *)
Lemma Index_found s sub i :
  Text.Index s sub = Some i ->
  (i <= String.length s)%nat
  /\ String.prefix sub (substring i (String.length s - i) s) = true.
Proof.
  revert i. induction s as [|a s IH]; intros i.
  - cbn [Text.Index]. destruct (String.prefix sub "") eqn:Hp; [|discriminate].
    intros [= <-]. split; [cbn; lia | exact Hp].
  - cbn [Text.Index]. destruct (String.prefix sub (String a s)) eqn:Hp.
    + intros [= <-]. split; [lia|].
      rewrite Nat.sub_0_r, substring_all. exact Hp.
    + destruct (Text.Index s sub) as [j|]; [|discriminate].
      intros [= <-]. destruct (IH j eq_refl) as [Hle Hpre].
      split; [cbn; lia | exact Hpre].
Qed.

Lemma LastIndex_found s sub i :
  Text.LastIndex s sub = Some i ->
  (i + String.length sub <= String.length s)%nat.
Proof.
  revert i. induction s as [|a s IH]; intros i.
  - cbn [Text.LastIndex]. destruct (String.prefix sub "") eqn:Hp; [|discriminate].
    intros [= <-]. apply prefix_length in Hp. lia.
  - cbn [Text.LastIndex]. destruct (Text.LastIndex s sub) as [j|].
    + intros [= <-]. specialize (IH j eq_refl). cbn. lia.
    + destruct (String.prefix sub (String a s)) eqn:Hp; [|discriminate].
      intros [= <-]. apply prefix_length in Hp. lia.
Qed.

Lemma slice_is_Some s lo hi :
  (lo <= hi)%nat -> (hi <= String.length s)%nat -> is_Some (Text.slice s lo hi).
Proof.
  intros H1 H2. unfold Text.slice.
  apply Nat.leb_le in H1, H2. rewrite H1, H2. by eexists.
Qed.

Lemma get_substring_head s i :
  (i <= String.length s)%nat ->
  String.get 0 (substring i (String.length s - i) s) = String.get i s.
Proof.
  revert i. induction s as [|a s IH]; intros i Hi.
  - cbn in Hi. assert (i = 0)%nat as -> by lia. reflexivity.
  - destruct i as [|i].
    + rewrite Nat.sub_0_r, substring_all. reflexivity.
    + cbn in Hi. cbn [String.length Nat.sub substring String.get].
      apply IH. lia.
Qed.

(** The text after a label: [response[start:]] is in range, and a stop
    mark that begins with a byte the label does not hold is found behind
    the label, so that [response[start+len(label) : start+stop]] is in
    range too. *)
Lemma labelled_slice response label start :
  Text.Index response label = Some start ->
  exists rest,
    Text.sliceEnd response start = Some rest
    /\ is_Some (Text.sliceEnd response (start + String.length label))
    /\ forall c mark stop,
        Text.hasByte c label = false ->
        Text.Index rest (String c mark) = Some stop ->
        is_Some (Text.slice response (start + String.length label)
                            (start + stop)).
Proof.
  intros Hfound. apply Index_found in Hfound as [Hle Hpre].
  exists (substring start (String.length response - start) response).
  assert (Hlen : String.length
                   (substring start (String.length response - start) response)
                 = (String.length response - start)%nat)
    by (apply length_substring; lia).
  pose proof (prefix_length _ _ Hpre) as Hlabel. rewrite Hlen in Hlabel.
  split; [|split].
  - unfold Text.sliceEnd, Text.slice.
    apply Nat.leb_le in Hle. rewrite Hle, Nat.leb_refl. reflexivity.
  - apply slice_is_Some; lia.
  - intros c mark stop Hc Hstop.
    apply Index_found in Hstop as [Hstop Hmark]. rewrite Hlen in Hstop.
    apply slice_is_Some; [|lia].
    destruct (Nat.le_gt_cases (String.length label) stop) as [|Hlt]; [lia|].
    exfalso.
    set (rest := substring start (String.length response - start) response) in *.
    assert (Hget : String.get stop rest = Some c).
    { apply prefix_head in Hmark. rewrite <- Hmark.
      symmetry. apply get_substring_head. lia. }
    rewrite (prefix_get _ _ _ Hpre Hlt) in Hget.
    apply hasByte_get in Hget. congruence.
Qed.

End TextFacts.

Section SceneParsing.

Import scenegeneration.

Context {L : GoLib} {T : GoText}.

Lemma extractSingleSceneManually_returns g response imageName :
  exists scene,
    extractSingleSceneManually g response imageName = Returned (scene, None)
    /\ Scene_SourceTitle scene = imageName
    /\ Scene_ID scene = generateSceneID imageName.
Proof.
  unfold extractSingleSceneManually.
  assert (Htitle : exists title,
    match Text.Index response "Title:" with
    | Some titleStart =>
        match Text.sliceEnd response titleStart with
        | Some rest =>
            match Text.Index rest Text.newline with
            | Some titleEnd =>
                strings_TrimSpace
                  <$> Text.slice response (titleStart + 6) (titleStart + titleEnd)
            | None => Some ("News Scene: " +:+ imageName)
            end
        | None => None
        end
    | None => Some ("News Scene: " +:+ imageName)
    end = Some title).
  { destruct (Text.Index response "Title:") as [start|] eqn:Hl; [|by eexists].
    destruct (labelled_slice _ _ _ Hl) as (rest & -> & _ & Hstop).
    destruct (Text.Index rest Text.newline) as [stop|] eqn:Hn; [|by eexists].
    destruct (Hstop (ascii_of_N 10) "" stop eq_refl Hn) as [t Ht].
    change (String.length "Title:") with 6%nat in Ht. rewrite Ht. by eexists. }
  destruct Htitle as [title ->].
  assert (Hdesc : exists description,
    match Text.Index response "Description:" with
    | Some descStart =>
        match Text.sliceEnd response descStart with
        | Some rest =>
            match Text.Index rest "Mood:" with
            | Some descEnd =>
                strings_TrimSpace
                  <$> Text.slice response (descStart + 12) (descStart + descEnd)
            | None => Some "A visual representation of a news story."
            end
        | None => None
        end
    | None => Some "A visual representation of a news story."
    end = Some description).
  { destruct (Text.Index response "Description:") as [start|] eqn:Hl; [|by eexists].
    destruct (labelled_slice _ _ _ Hl) as (rest & -> & _ & Hstop).
    destruct (Text.Index rest "Mood:") as [stop|] eqn:Hn; [|by eexists].
    destruct (Hstop "M"%char "ood:" stop eq_refl Hn) as [t Ht].
    change (String.length "Description:") with 12%nat in Ht. rewrite Ht.
    by eexists. }
  destruct Hdesc as [description ->].
  assert (Hmood : exists mood,
    match Text.Index response "Mood:" with
    | Some moodStart =>
        match Text.sliceEnd response moodStart with
        | Some rest =>
            match Text.Index rest Text.newline with
            | Some moodEnd =>
                strings_TrimSpace
                  <$> Text.slice response (moodStart + 5) (moodStart + moodEnd)
            | None =>
                strings_TrimSpace <$> Text.sliceEnd response (moodStart + 5)
            end
        | None => None
        end
    | None => Some "neutral"
    end = Some mood).
  { destruct (Text.Index response "Mood:") as [start|] eqn:Hl; [|by eexists].
    destruct (labelled_slice _ _ _ Hl) as (rest & -> & [t' Hend] & Hstop).
    change (String.length "Mood:") with 5%nat in Hend.
    destruct (Text.Index rest Text.newline) as [stop|] eqn:Hn.
    - destruct (Hstop (ascii_of_N 10) "" stop eq_refl Hn) as [t Ht].
      change (String.length "Mood:") with 5%nat in Ht. rewrite Ht. by eexists.
    - rewrite Hend. by eexists. }
  destruct Hmood as [mood ->].
  eexists. split; [reflexivity|]. by split.
Qed.

Lemma parseClaudeResponseForSingleScene_returns g response imageName :
  exists scene,
    parseClaudeResponseForSingleScene g response imageName =
      Returned (scene, None)
    /\ Scene_SourceTitle scene = imageName
    /\ Scene_ID scene = generateSceneID imageName.
Proof.
  unfold parseClaudeResponseForSingleScene.
  destruct (Text.Index response "{") as [jsonStart|] eqn:Hstart;
    [|apply extractSingleSceneManually_returns].
  destruct (Text.LastIndex response "}") as [jsonEnd|] eqn:Hend;
    [|apply extractSingleSceneManually_returns].
  destruct (Nat.leb_spec jsonEnd jsonStart) as [|Hlt];
    [apply extractSingleSceneManually_returns|].
  apply LastIndex_found in Hend. cbn [String.length] in Hend.
  destruct (slice_is_Some response jsonStart (jsonEnd + 1)) as [jsonStr ->];
    [lia | lia |].
  destruct (json_decode jsonStr) as [doc|];
    [|apply extractSingleSceneManually_returns].
  destruct (sceneFromJSON doc) as [scene|];
    [|apply extractSingleSceneManually_returns].
  eexists. split; [reflexivity|]. by split.
Qed.

End SceneParsing.

Section GenerateFacts.

Import scenegeneration.

Context {L : GoLib} {T : GoText}.

Variable os_Stat_IsNotExist : string -> bool.
Variable os_ReadDir : string -> option (list DirEntry).

Lemma mockScenes_unlabelled :
  Forall (fun scene => Scene_ID scene = "" /\ Scene_SourceTitle scene = "")
         mockScenes.
Proof. unfold mockScenes. repeat constructor. Qed.

Lemma getMockScenes_prefix g :
  match getMockScenes g with
  | Panicked => (MaxScenes (generator_config g) < 0)%Z
  | Returned scenes =>
      (0 <= MaxScenes (generator_config g))%Z
      /\ scenes = take (Z.to_nat (MaxScenes (generator_config g))) mockScenes
  end.
Proof.
  unfold getMockScenes.
  change (length mockScenes) with 10%nat.
  destruct (Z.ltb_spec (MaxScenes (generator_config g)) (Z.of_nat 10)) as [Hlt|Hge].
  - destruct (Z.ltb_spec (MaxScenes (generator_config g)) 0); [lia|].
    split; [lia | reflexivity].
  - split; [lia|]. symmetry. apply take_ge.
    change (length mockScenes) with 10%nat. lia.
Qed.

Lemma callClaudeAPI_bounded g prompt base64Image w :
  bounded 1 0 w (snd (callClaudeAPI g prompt base64Image w)).
Proof.
  unfold callClaudeAPI.
  destruct (http_NewRequest _ _ _) as [req|e];
    [|apply (bounded_weaken _ _ _ _ _ _ (bounded_refl w)); lia].
  set (req' := Header_Set _ _ (Header_Set _ _ (Header_Set _ _ req))).
  assert (Hdo : bounded 1 0 w (afterDo req' w)).
  { exists [EvDo req']. cbn. repeat split; lia. }
  change (client_Do req' w) with (net w (nreq w) req', afterDo req' w).
  destruct (net w (nreq w) req') as [resp|]; [|exact Hdo].
  destruct (Body resp) as [body|]; [|exact Hdo].
  destruct (negb _); [exact Hdo|].
  destruct (json_Unmarshal_map body) as [m|]; [|exact Hdo].
  destruct (Json.index m "content") as [[| | | |[|[] ?]|]|]; try exact Hdo.
  destruct (Json.getString _ "text"); exact Hdo.
Qed.

(** Without a key a scene is the first mock scene, and nothing happens. *)
Lemma generateSceneForImage_mock g base64Image imageName w :
  ClaudeKey (generator_config g) = "" ->
  generateSceneForImage g base64Image imageName w =
  (match getMockScenes g with
   | Panicked => Panicked
   | Returned (scene :: _) => Returned (Ok [scene])
   | Returned [] => Returned (Err NoMockScenes)
   end, w).
Proof.
  intros Hkey. unfold generateSceneForImage. rewrite Hkey.
  change (String.eqb "" "") with true. cbn iota.
  by destruct (getMockScenes g) as [[|scene rest]|].
Qed.

(** With a key a scene carries the name of its image. *)
Lemma generateSceneForImage_keyed g base64Image imageName w :
  ClaudeKey (generator_config g) <> "" ->
  exists r,
    fst (generateSceneForImage g base64Image imageName w) = Returned r
    /\ forall scenes,
        r = Ok scenes ->
        exists scene,
          scenes = [scene]
          /\ Scene_SourceTitle scene = imageName
          /\ Scene_ID scene = generateSceneID imageName.
Proof.
  intros Hkey. unfold generateSceneForImage.
  destruct (String.eqb_spec (ClaudeKey (generator_config g)) ""); [done|].
  destruct (callClaudeAPI g scenePrompt base64Image w) as [[response|e] w1].
  - destruct (parseClaudeResponseForSingleScene_returns g response imageName)
      as (scene & -> & Hsrc & Hid).
    eexists. split; [reflexivity|]. intros scenes [= <-]. by exists scene.
  - eexists. split; [reflexivity|]. discriminate.
Qed.

Lemma generateSceneForImage_bounded g base64Image imageName w :
  bounded 1 0 w (snd (generateSceneForImage g base64Image imageName w)).
Proof.
  unfold generateSceneForImage. destruct (String.eqb _ "").
  - assert (H : bounded 1 0 w w)
      by (apply (bounded_weaken _ _ _ _ _ _ (bounded_refl w)); lia).
    by destruct (getMockScenes g) as [[|scene rest]|].
  - pose proof (callClaudeAPI_bounded g scenePrompt base64Image w) as H.
    destruct (callClaudeAPI g scenePrompt base64Image w) as [[response|e] w1];
      [|exact H].
    by destruct (parseClaudeResponseForSingleScene g response imageName)
      as [[scene [e|]]|].
Qed.

(** The loop of [Generate], when its body does not panic: the scenes
    appended come from some of the files, in their order. *)
Lemma generateLoop_scenes g (made : string -> Scene -> Prop) imageFiles :
  (forall base64Image imagePath w,
      exists r,
        fst (generateSceneForImage g base64Image (filepath_Base imagePath) w)
          = Returned r
        /\ forall scenes,
            r = Ok scenes -> exists scene, scenes = [scene] /\ made imagePath scene) ->
  forall allScenes w,
  exists paths more,
    fst (generateLoop g imageFiles allScenes w) = Returned (allScenes ++ more)
    /\ paths `sublist_of` imageFiles
    /\ Forall2 made paths more.
Proof.
  intros Hbody. induction imageFiles as [|imagePath rest IH]; intros allScenes w.
  - exists [], []. cbn. rewrite app_nil_r. by repeat split.
  - cbn [generateLoop].
    destruct (os_ReadFile imagePath w) as [[imageData|e] w1].
    + destruct (Hbody (base64_EncodeToString imageData) imagePath w1)
        as (r & Hr & Hmade).
      destruct (generateSceneForImage _ _ _ w1) as [out w2]; cbn [fst] in Hr.
      subst out. destruct r as [scenes|e].
      * destruct (Hmade scenes eq_refl) as (scene & -> & Hscene).
        destruct (IH (allScenes ++ [scene]) w2) as (paths & more & Hres & Hsub & Hall).
        exists (imagePath :: paths), (scene :: more).
        rewrite Hres, <- app_assoc. split; [reflexivity|].
        split; [by apply sublist_skip | by constructor].
      * destruct (IH allScenes w2) as (paths & more & Hres & Hsub & Hall).
        exists paths, more. split; [exact Hres|].
        split; [by apply sublist_cons | exact Hall].
    + destruct (IH allScenes w1) as (paths & more & Hres & Hsub & Hall).
      exists paths, more. split; [exact Hres|].
      split; [by apply sublist_cons | exact Hall].
Qed.

Lemma generateLoop_bounded g imageFiles :
  forall allScenes w,
    bounded (length imageFiles) 0 w (snd (generateLoop g imageFiles allScenes w)).
Proof.
  induction imageFiles as [|imagePath rest IH]; intros allScenes w.
  - apply bounded_refl.
  - cbn [generateLoop length].
    pose proof (os_ReadFile_bounded imagePath w) as Hread.
    destruct (os_ReadFile imagePath w) as [[imageData|e] w1]; cbn [snd] in Hread.
    + pose proof (generateSceneForImage_bounded g
                    (base64_EncodeToString imageData) (filepath_Base imagePath) w1)
        as Hscene.
      pose proof (bounded_trans _ _ _ _ _ _ _ Hread Hscene) as Hstep.
      destruct (generateSceneForImage _ _ _ w1) as [[[scenes|e]|] w2];
        cbn [snd] in *.
      * apply (bounded_weaken _ _ _ _ _ _
                 (bounded_trans _ _ _ _ _ _ _ Hstep (IH (allScenes ++ scenes) w2)));
          lia.
      * apply (bounded_weaken _ _ _ _ _ _
                 (bounded_trans _ _ _ _ _ _ _ Hstep (IH allScenes w2))); lia.
      * apply (bounded_weaken _ _ _ _ _ _ Hstep); lia.
    + apply (bounded_weaken _ _ _ _ _ _
               (bounded_trans _ _ _ _ _ _ _ Hread (IH allScenes w1))); lia.
Qed.

(** Without a key the loop stays off the network. *)
Lemma generateLoop_offline g imageFiles :
  ClaudeKey (generator_config g) = "" ->
  forall allScenes w,
    bounded 0 0 w (snd (generateLoop g imageFiles allScenes w)).
Proof.
  intros Hkey. induction imageFiles as [|imagePath rest IH]; intros allScenes w.
  - apply bounded_refl.
  - cbn [generateLoop].
    pose proof (os_ReadFile_bounded imagePath w) as Hread.
    destruct (os_ReadFile imagePath w) as [[imageData|e] w1]; cbn [snd] in Hread.
    + rewrite generateSceneForImage_mock by exact Hkey.
      destruct (getMockScenes g) as [[|scene mock]|]; cbn [snd].
      * exact (bounded_trans _ _ _ _ _ _ _ Hread (IH allScenes w1)).
      * exact (bounded_trans _ _ _ _ _ _ _ Hread (IH (allScenes ++ [scene]) w1)).
      * exact Hread.
    + exact (bounded_trans _ _ _ _ _ _ _ Hread (IH allScenes w1)).
Qed.

Lemma generateSceneForImage_returns g base64Image imageName w :
  (0 <= MaxScenes (generator_config g))%Z ->
  exists r,
    fst (generateSceneForImage g base64Image imageName w) = Returned r
    /\ forall scenes,
        r = Ok scenes ->
        exists scene,
          scenes = [scene]
          /\ if String.eqb (ClaudeKey (generator_config g)) ""
             then scene ∈ mockScenes
             else Scene_SourceTitle scene = imageName
                  /\ Scene_ID scene = generateSceneID imageName.
Proof.
  intros Hmax.
  destruct (String.eqb_spec (ClaudeKey (generator_config g)) "") as [Hkey|Hkey].
  - rewrite generateSceneForImage_mock by exact Hkey. cbn [fst].
    pose proof (getMockScenes_prefix g) as Hmock.
    destruct (getMockScenes g) as [[|scene mock]|]; [| |lia].
    + eexists. split; [reflexivity|]. discriminate.
    + eexists. split; [reflexivity|]. intros scenes [= <-].
      exists scene. split; [reflexivity|].
      destruct Hmock as [_ Hmock].
      apply (subseteq_take (Z.to_nat (MaxScenes (generator_config g)))).
      rewrite <- Hmock. by left.
  - destruct (generateSceneForImage_keyed g base64Image imageName w Hkey)
      as (r & Hr & Hmade).
    exists r. split; [exact Hr|]. intros scenes Hscenes.
    destruct (Hmade scenes Hscenes) as (scene & -> & Hscene). by exists scene.
Qed.

Lemma take_mockScenes n : (0 < n)%nat -> take n mockScenes <> [].
Proof. destruct n as [|n]; [lia|]. intros _. unfold mockScenes. discriminate. Qed.

(** Without a key and with a negative [MaxScenes] the loop panics at the
    first image it can read. *)
Lemma generateLoop_panics g imageFiles :
  ClaudeKey (generator_config g) = "" ->
  getMockScenes g = Panicked ->
  forall w,
    fst (generateLoop g imageFiles [] w) = Panicked
    \/ fst (generateLoop g imageFiles [] w) = Returned [].
Proof.
  intros Hkey Hmock. induction imageFiles as [|imagePath rest IH]; intros w.
  - by right.
  - cbn [generateLoop].
    destruct (os_ReadFile imagePath w) as [[imageData|e] w1]; [|apply IH].
    rewrite generateSceneForImage_mock, Hmock by exact Hkey. by left.
Qed.

(** X15.  [getMockScenes] panics exactly on a negative [MaxScenes];
    otherwise it returns the first [min 10 MaxScenes] of its ten scenes,
    none of which has an id or a source title. *)
Theorem getMockScenes_bounds g :
  (getMockScenes g = Panicked <-> (MaxScenes (generator_config g) < 0)%Z)
  /\ forall scenes,
      getMockScenes g = Returned scenes ->
      Z.of_nat (length scenes) = Z.min 10 (MaxScenes (generator_config g))
      /\ scenes = take (length scenes) mockScenes
      /\ Forall (fun scene => Scene_ID scene = "" /\ Scene_SourceTitle scene = "")
                scenes.
Proof.
  pose proof (getMockScenes_prefix g) as Hmock.
  destruct (getMockScenes g) as [mock|].
  - destruct Hmock as [Hmax ->]. split; [split; [discriminate | lia]|].
    intros scenes [= <-].
    assert (Hlen : length (take (Z.to_nat (MaxScenes (generator_config g)))
                              mockScenes)
                   = Nat.min (Z.to_nat (MaxScenes (generator_config g))) 10)
      by apply length_take.
    split; [rewrite Hlen; lia|]. split.
    + rewrite Hlen, <- (take_take mockScenes _ 10). reflexivity.
    + apply Forall_take, mockScenes_unlabelled.
  - split; [by split|]. discriminate.
Qed.


(** X17.  With a [MaxScenes] that is not negative [Generate] never
    panics.  Its only errors are those of the directory (not found,
    unreadable, no image file), met before anything else is done: an
    image that cannot be read and a failing API call are skipped.  With
    a positive [MaxScenes] the scenes returned are never empty: when no
    image gave a scene, they are the mock scenes. *)
Theorem Generate_falls_back_to_mock_scenes g w :
  (0 <= MaxScenes (generator_config g))%Z ->
  exists r,
    fst (Generate os_Stat_IsNotExist os_ReadDir g w) = Returned r
    /\ (forall e,
           r = Err e ->
           e ∈ [DirectoryNotFound; DirectoryUnreadable; NoImageFiles]
           /\ snd (Generate os_Stat_IsNotExist os_ReadDir g w) = w)
    /\ (forall scenes,
           r = Ok scenes ->
           (0 < MaxScenes (generator_config g))%Z -> scenes <> []).
Proof.
  intros Hmax. unfold Generate.
  destruct (os_Stat_IsNotExist imagesDir).
  { eexists. split; [reflexivity|]. split; [|discriminate].
    intros e [= <-]. split; [|reflexivity]. set_solver. }
  destruct (os_ReadDir imagesDir) as [files|].
  2:{ eexists. split; [reflexivity|]. split; [|discriminate].
      intros e [= <-]. split; [|reflexivity]. set_solver. }
  destruct (imageFilesOf files) as [|imagePath rest] eqn:Hfiles.
  { eexists. split; [reflexivity|]. split; [|discriminate].
    intros e [= <-]. split; [|reflexivity]. set_solver. }
  destruct (generateLoop_scenes g (fun _ _ => True) (imagePath :: rest))
    with (allScenes := @nil Scene) (w := w) as (paths & more & Hres & _ & _).
  { intros base64Image path w0.
    destruct (generateSceneForImage_returns g base64Image (filepath_Base path)
                w0 Hmax) as (r & Hr & Hmade).
    exists r. split; [exact Hr|]. intros scenes Hscenes.
    destruct (Hmade scenes Hscenes) as (scene & -> & _). by exists scene. }
  destruct (generateLoop g (imagePath :: rest) [] w) as [out w1];
    cbn [fst app] in Hres. subst out.
  destruct more as [|scene more].
  - pose proof (getMockScenes_prefix g) as Hmock.
    destruct (getMockScenes g) as [mock|]; [|lia].
    destruct Hmock as [_ ->].
    eexists. split; [reflexivity|]. split; [discriminate|].
    intros scenes [= <-] Hpos. apply take_mockScenes. lia.
  - eexists. split; [reflexivity|]. split; [discriminate|].
    by intros scenes [= <-] _.
Qed.

(** Without a key every scene [Generate] returns is a mock scene. *)
Lemma Generate_mock_scenes g w scenes :
  ClaudeKey (generator_config g) = "" ->
  fst (Generate os_Stat_IsNotExist os_ReadDir g w) = Returned (Ok scenes) ->
  Forall (fun scene => scene ∈ mockScenes) scenes.
Proof.
  intros Hkey. unfold Generate.
  destruct (os_Stat_IsNotExist imagesDir); [discriminate|].
  destruct (os_ReadDir imagesDir) as [files|]; [|discriminate].
  destruct (imageFilesOf files) as [|imagePath rest]; [discriminate|].
  pose proof (getMockScenes_prefix g) as Hmock.
  destruct (getMockScenes g) as [mock|] eqn:Hg.
  - destruct Hmock as [Hmax ->].
    destruct (generateLoop_scenes g (fun _ scene => scene ∈ mockScenes)
                (imagePath :: rest))
      with (allScenes := @nil Scene) (w := w) as (paths & more & Hres & _ & Hall).
    { intros base64Image path w0.
      destruct (generateSceneForImage_returns g base64Image (filepath_Base path)
                  w0 Hmax) as (r & Hr & Hmade).
      exists r. split; [exact Hr|]. intros made Hmade'.
      destruct (Hmade made Hmade') as (scene & -> & Hscene).
      rewrite Hkey in Hscene. by exists scene. }
    destruct (generateLoop g (imagePath :: rest) [] w) as [out w1];
      cbn [fst app] in Hres. subst out.
    assert (Hmore : Forall (fun scene => scene ∈ mockScenes) more).
    { clear -Hall. induction Hall; by constructor. }
    destruct more as [|scene more].
    + intros [= <-]. apply Forall_forall. intros scene. apply subseteq_take.
    + by intros [= <-].
  - destruct (generateLoop_panics g (imagePath :: rest) Hkey Hg w) as [H|H];
      destruct (generateLoop g (imagePath :: rest) [] w) as [out w1];
      cbn [fst] in H; subst out; discriminate.
Qed.

(** X18.  Without a Claude key, on a directory with an image file:
    [Generate] panics when [MaxScenes] is negative; otherwise it returns
    scenes, and every scene it returns is one of the mock scenes, so
    that none has an id or a source title. *)
Theorem Generate_offline g w files :
  ClaudeKey (generator_config g) = "" ->
  os_Stat_IsNotExist imagesDir = false ->
  os_ReadDir imagesDir = Some files ->
  imageFilesOf files <> [] ->
  ((MaxScenes (generator_config g) < 0)%Z ->
   fst (Generate os_Stat_IsNotExist os_ReadDir g w) = Panicked)
  /\ ((0 <= MaxScenes (generator_config g))%Z ->
      exists scenes,
        fst (Generate os_Stat_IsNotExist os_ReadDir g w) = Returned (Ok scenes)
        /\ Forall (fun scene => scene ∈ mockScenes) scenes
        /\ Forall (fun scene =>
                     Scene_ID scene = "" /\ Scene_SourceTitle scene = "")
                  scenes).
Proof.
  intros Hkey Hstat Hdir Hfiles.
  pose proof (Generate_mock_scenes g w) as Hmocks.
  unfold Generate in *. rewrite Hstat, Hdir in *.
  destruct (imageFilesOf files) as [|imagePath rest]; [done|]. clear Hfiles.
  split.
  - intros Hneg. pose proof (getMockScenes_prefix g) as Hmock.
    destruct (getMockScenes g) as [mock|] eqn:Hg; [lia|].
    destruct (generateLoop_panics g (imagePath :: rest) Hkey Hg w) as [H|H];
      destruct (generateLoop g (imagePath :: rest) [] w) as [out w1];
      cbn [fst] in H; subst out; reflexivity.
  - intros Hmax.
    destruct (generateLoop_scenes g (fun _ _ => True) (imagePath :: rest))
      with (allScenes := @nil Scene) (w := w) as (paths & more & Hres & _ & _).
    { intros base64Image path w0.
      destruct (generateSceneForImage_returns g base64Image (filepath_Base path)
                  w0 Hmax) as (r & Hr & Hmade).
      exists r. split; [exact Hr|]. intros scenes Hscenes.
      destruct (Hmade scenes Hscenes) as (scene & -> & _). by exists scene. }
    destruct (generateLoop g (imagePath :: rest) [] w) as [out w1];
      cbn [fst app] in Hres. subst out.
    assert (Hret : exists scenes,
               (match more with
                | [] => match getMockScenes g with
                        | Panicked => (Panicked, w1)
                        | Returned scenes => (Returned (Ok scenes), w1)
                        end
                | _ => (Returned (Ok more), w1)
                end).1 = Returned (Ok scenes)).
    { destruct more as [|scene more]; [|by eexists].
      pose proof (getMockScenes_prefix g) as Hmock.
      destruct (getMockScenes g) as [mock|]; [by eexists | lia]. }
    destruct Hret as [scenes Hret]. exists scenes. split; [exact Hret|].
    pose proof (Hmocks scenes Hkey Hret) as Hin. split; [exact Hin|].
    eapply Forall_impl; [exact Hin|]. intros scene Hscene.
    exact (proj1 (Forall_forall _ _) mockScenes_unlabelled scene Hscene).
Qed.

(** X19.  With a Claude key the scenes [Generate] returns are either the
    mock scenes (no image gave a scene) or made from some of the image
    files of the directory, in the order of the directory, one scene per
    file: each has the base name of its file as source title and the id
    made from that name. *)
Theorem Generate_scenes_follow_files g w files scenes :
  ClaudeKey (generator_config g) <> "" ->
  os_ReadDir imagesDir = Some files ->
  fst (Generate os_Stat_IsNotExist os_ReadDir g w) = Returned (Ok scenes) ->
  getMockScenes g = Returned scenes
  \/ exists paths,
      paths `sublist_of` imageFilesOf files
      /\ Forall2 (fun imagePath scene =>
                    Scene_SourceTitle scene = filepath_Base imagePath
                    /\ Scene_ID scene = generateSceneID (filepath_Base imagePath))
                 paths scenes.
Proof.
  intros Hkey Hdir. unfold Generate. rewrite Hdir.
  destruct (os_Stat_IsNotExist imagesDir); [discriminate|].
  destruct (imageFilesOf files) as [|imagePath rest]; [discriminate|].
  destruct (generateLoop_scenes g
              (fun path scene =>
                 Scene_SourceTitle scene = filepath_Base path
                 /\ Scene_ID scene = generateSceneID (filepath_Base path))
              (imagePath :: rest))
    with (allScenes := @nil Scene) (w := w) as (paths & more & Hres & Hsub & Hall).
  { intros base64Image path w0.
    apply (generateSceneForImage_keyed g base64Image (filepath_Base path) w0 Hkey). }
  destruct (generateLoop g (imagePath :: rest) [] w) as [out w1];
    cbn [fst app] in Hres. subst out.
  destruct more as [|scene more].
  - destruct (getMockScenes g) as [mock|]; [|discriminate].
    intros [= <-]. by left.
  - intros [= <-]. right. by exists paths.
Qed.

(** X20.  [Generate] makes at most one round trip for each image file of
    the directory and never sleeps; without a Claude key it makes none. *)
Theorem Generate_cost g w :
  bounded (length (imageFilesOf (default [] (os_ReadDir imagesDir)))) 0
          w (snd (Generate os_Stat_IsNotExist os_ReadDir g w))
  /\ (ClaudeKey (generator_config g) = "" ->
      bounded 0 0 w (snd (Generate os_Stat_IsNotExist os_ReadDir g w))).
Proof.
  assert (Hzero : forall n, bounded n 0 w w)
    by (intros n; apply (bounded_weaken _ _ _ _ _ _ (bounded_refl w)); lia).
  assert (Hnone : forall n,
             bounded n 0 w w
             /\ (ClaudeKey (generator_config g) = "" -> bounded 0 0 w w))
    by (intros n; split; [apply Hzero | intros _; apply bounded_refl]).
  unfold Generate.
  destruct (os_Stat_IsNotExist imagesDir); [apply Hnone|].
  destruct (os_ReadDir imagesDir) as [files|]; [|apply Hnone].
  change (default [] (Some files)) with files.
  destruct (imageFilesOf files) as [|imagePath rest]; [apply Hnone|].
  pose proof (generateLoop_bounded g (imagePath :: rest) [] w) as Hall.
  pose proof (fun Hkey => generateLoop_offline g (imagePath :: rest) Hkey [] w)
    as Hoff.
  destruct (generateLoop g (imagePath :: rest) [] w) as [[[|scene more]|] w1];
    cbn [snd] in *; [destruct (getMockScenes g)| |];
    (split; [exact Hall | exact Hoff]).
Qed.

End GenerateFacts.

Section DirectoryImages.

Import video_converter.

Context {L : GoLib} {T : GoText}.

Lemma get_append_right (a b : string) i :
  String.get (String.length a + i) (a +:+ b) = String.get i b.
Proof. induction a as [|ch a IH]; [reflexivity | exact IH]. Qed.

Lemma get_hasByte ch s i :
  Text.hasByte ch s = false -> String.get i s <> Some ch.
Proof.
  intros Hno Hget. apply hasByte_get in Hget. congruence.
Qed.

Lemma length_append (a b : string) :
  String.length (a +:+ b) = (String.length a + String.length b)%nat.
Proof.
  induction a as [|ch a IH]; [reflexivity|].
  change (String ch a +:+ b) with (String ch (a +:+ b)).
  cbn [String.length]. by rewrite IH.
Qed.

Lemma substring_append_right (a b : string) :
  substring (String.length a) (String.length b) (a +:+ b) = b.
Proof.
  induction a as [|ch a IH]; [apply substring_all | exact IH].
Qed.


(** A name that ends with a dot and letters has these as extension. *)
Lemma Ext_append stem e :
  Text.hasByte "." e = false ->
  Text.hasByte "/" e = false ->
  Filepath.Ext (stem +:+ String "." e) = String "." e.
Proof.
  intros Hdot Hslash. unfold Filepath.Ext.
  set (path := stem +:+ String "." e).
  assert (Hlen : String.length path = (String.length stem + S (String.length e))%nat)
    by (unfold path; rewrite length_append; reflexivity).
  assert (Hloop : forall k,
             (k <= String.length e)%nat ->
             Filepath.Ext_loop path (String.length stem + S k) = String "." e).
  { induction k as [|k IH]; intros Hk.
    - replace (String.length stem + 1)%nat with (S (String.length stem)) by lia.
      cbn [Filepath.Ext_loop].
      replace (String.length stem) with (String.length stem + 0)%nat at 1 by lia.
      unfold path at 1. rewrite get_append_right. cbn [String.get].
      change (Ascii.eqb "." "/") with false. change (Ascii.eqb "." ".") with true.
      cbn iota. rewrite Hlen.
      replace (String.length stem + S (String.length e) - String.length stem)%nat
        with (String.length (String "." e)) by (cbn; lia).
      apply substring_append_right.
    - replace (String.length stem + S (S k))%nat
        with (S (String.length stem + S k)) by lia.
      cbn [Filepath.Ext_loop]. unfold path at 1.
      rewrite get_append_right. cbn [String.get].
      destruct (String.get k e) as [ch|] eqn:Hget.
      + destruct (Ascii.eqb_spec ch "/") as [->|_];
          [by apply get_hasByte in Hget|].
        destruct (Ascii.eqb_spec ch ".") as [->|_];
          [by apply get_hasByte in Hget|].
        apply IH. lia.
      + exfalso. clear -Hget Hk. revert k Hget Hk.
        induction e as [|ch e IHe]; intros k Hget Hk; cbn in *; [lia|].
        destruct k as [|k]; [discriminate|]. apply (IHe k Hget). lia. }
  rewrite Hlen. apply Hloop. lia.
Qed.

(** A name that ends with one of the five extensions has it as its
    extension. *)
Lemma Ext_of_suffix filename ext :
  ext ∈ imageExtensions ->
  Strings.HasSuffix filename ext = true ->
  Filepath.Ext filename = ext.
Proof.
  intros Hext Hsuffix. unfold Strings.HasSuffix in Hsuffix.
  apply andb_true_iff in Hsuffix as [Hle Heq].
  apply Nat.leb_le in Hle. apply String.eqb_eq in Heq.
  pose proof (substring_split (String.length filename - String.length ext)
                filename ltac:(lia)) as Hsplit.
  replace (String.length filename
           - (String.length filename - String.length ext))%nat
    with (String.length ext) in Hsplit by lia.
  rewrite Heq in Hsplit. rewrite <- Hsplit.
  unfold imageExtensions in Hext.
  repeat (apply elem_of_cons in Hext as [->|Hext]; [by apply Ext_append|]).
  by apply elem_of_nil in Hext.
Qed.

Lemma TrimPrefix_guarded s p :
  (if Text.HasPrefix s p then Text.TrimPrefix s p else s) = Text.TrimPrefix s p.
Proof. unfold Text.TrimPrefix. by destruct (Text.HasPrefix s p). Qed.

(** X21.  What [getImagesFromDirectory] makes of a directory entry it
    takes for an image: the path is the entry's name joined to the
    directory, the description is empty, and the scene id is the file
    name without the prefix [scene_] and, only when the extension is
    spelled in small letters, without the extension: [scene_7.PNG] gets
    the scene id [7.PNG]. *)
Theorem getImagesFromDirectory_scene_id dir entry image :
  imageOfEntry dir entry = Some image ->
  IsDir entry = false
  /\ strings_ToLower (Filepath.Ext (Name entry)) ∈ imageExtensions
  /\ Image_Path image = filepath_Join dir (Name entry)
  /\ Image_Description image = ""
  /\ Image_SceneID image =
     Text.TrimPrefix
       (if String.eqb (Filepath.Ext (Name entry))
                      (strings_ToLower (Filepath.Ext (Name entry)))
        then withoutExt (Name entry)
        else Name entry)
       "scene_".
Proof.
  unfold imageOfEntry. destruct (IsDir entry); [discriminate|].
  set (filename := Name entry). set (ext := strings_ToLower (Filepath.Ext filename)).
  destruct (_ || _) eqn:Hext; [|discriminate].
  intros [= <-]. cbn [Image_Path Image_Description Image_SceneID].
  assert (Hin : ext ∈ imageExtensions).
  { unfold imageExtensions.
    repeat (apply orb_true_iff in Hext as [Hext|Hext]);
      apply String.eqb_eq in Hext; rewrite Hext; set_solver. }
  split; [reflexivity|]. split; [exact Hin|].
  split; [reflexivity|]. split; [reflexivity|].
  rewrite TrimPrefix_guarded. f_equal.
  destruct (String.eqb_spec (Filepath.Ext filename) ext) as [Heq|Hne].
  - rewrite <- Heq. apply TrimSuffix_Ext.
  - unfold Strings.TrimSuffix.
    destruct (Strings.HasSuffix filename ext) eqn:Hsuffix; [|reflexivity].
    by apply (Ext_of_suffix _ _ Hin) in Hsuffix.
Qed.

End DirectoryImages.

Section ImageMetadata.

Import image_creator.

Context {L : GoLib}.


End ImageMetadata.

Section Pipeline.

Import scenegeneration imagecreation.

Context {L : GoLib} {T : GoText}.

Variable os_Stat_IsNotExist : string -> bool.
Variable os_ReadDir : string -> option (list DirEntry).
Variable contentType : nat -> string.

Hypothesis ToLower_ascii :
  forall s, Text.isASCII s = true -> strings_ToLower s = Strings.ToLower s.

(** The title of every mock scene is long enough for the slice [[:20]]
    of the image file name. *)
Lemma mockScenes_titles :
  Forall (fun scene => titlePart scene <> None) mockScenes.
Proof.
  unfold mockScenes.
  repeat (apply Forall_cons; split;
          [intros Hnone; apply titlePart_None in Hnone;
           rewrite sanitizeFilename_mapBytes, mapBytes_length in Hnone
             by (exact ToLower_ascii || reflexivity);
           cbn in Hnone; lia|]).
  constructor.
Qed.

(** X23.  The stages compose without a Claude key: the scenes [Generate]
    returns can always be given to [Create], with or without a Hugging
    Face key, since every mock title keeps at least 20 bytes; the images
    made from them all have the empty scene id of the mock scenes. *)
Theorem Create_after_offline_Generate g c w w' scenes :
  ClaudeKey (generator_config g) = "" ->
  fst (Generate os_Stat_IsNotExist os_ReadDir g w) = Returned (Ok scenes) ->
  exists images err,
    fst (Create contentType c scenes w') = Returned (images, err)
    /\ Forall (fun image => Image_SceneID image = "") images.
Proof.
  intros Hkey Hscenes.
  pose proof (Generate_mock_scenes _ _ g w scenes Hkey Hscenes) as Hmock.
  destruct (Create_returns contentType c scenes w') as (images & err & Hres & Hsub & _).
  { eapply Forall_impl; [exact Hmock|]. intros scene Hscene.
    exact (proj1 (Forall_forall _ _) mockScenes_titles scene Hscene). }
  exists images, err. split; [exact Hres|].
  apply Forall_forall. intros image Himage.
  assert (Hkeyed : imageKey image ∈ map sceneKey scenes).
  { apply (elem_of_sublist _ _ _ (list_elem_of_fmap_2 imageKey _ _ Himage) Hsub). }
  apply list_elem_of_fmap in Hkeyed as (scene & Heq & Hscene).
  injection Heq as -> _.
  pose proof (proj1 (Forall_forall _ _) Hmock scene Hscene) as Hin.
  exact (proj1 (proj1 (Forall_forall _ _) mockScenes_unlabelled scene Hin)).
Qed.

End Pipeline.

(** * More examples *)

Section Examples2.

Import Samples Samples2 imagecreation scenegeneration.

Lemma pollForVideo_alternative_url_after_404_witness :
  fst (pollForVideo (L:=lib) keyed "job-7" notFoundFirst) = Err PollTimeout
  /\ trace (snd (pollForVideo (L:=lib) keyed "job-7" notFoundFirst)) =
     pollTurn keyed (statusURL "job-7")
     ++ concat (repeat (pollTurn keyed (alternativeURL "job-7")) 59).
Proof.
  apply (pollForVideo_alternative_url_after_404 (L:=lib) keyed "job-7"
           notFoundFirst {| StatusCode := 404; Body := Some "not found" |}).
  - reflexivity.
  - reflexivity.
  - intros [|n] req; vm_compute; reflexivity.
  - reflexivity.
Defined.

Lemma pollLoop_download_not_retried_witness :
  fst (pollForVideo (L:=lib) keyed "job-7" downloadRefused) =
    Err (Errorf "unexpected status code: %d" [ArgD 403])
  /\ trace (snd (pollForVideo (L:=lib) keyed "job-7" downloadRefused)) =
     [EvDo (statusRequest keyed (statusURL "job-7"));
      EvDo (downloadRequest "https://cdn.example/v.mp4")].
Proof.
  apply (pollLoop_download_not_retried (L:=lib) keyed "job-7" 59 1
           (statusURL "job-7") downloadRefused
           [("status", JString "completed");
            ("videoUrl", JString "https://cdn.example/v.mp4")]
           "https://cdn.example/v.mp4"
           {| StatusCode := 403; Body := Some "expired" |}).
  - reflexivity.
  - exists (render (completedAt "https://cdn.example/v.mp4")).
    split; vm_compute; reflexivity.
  - reflexivity.
  - reflexivity.
  - reflexivity.
  - reflexivity.
  - discriminate.
Defined.

Lemma generateVideoWithRunway_job_identifier_witness :
  generateVideoWithRunway (L:=lib) keyed "JPEG-BYTES" "Lawmakers" jobIdAnswer =
  pollForVideo (L:=lib) keyed "job-8"
    (afterDo (submitRequest (L:=lib) keyed "JPEG-BYTES" "Lawmakers") jobIdAnswer)
  /\ generateVideoWithRunway (L:=lib) keyed "JPEG-BYTES" "Lawmakers" noJobAnswer =
     (Err (MissingJobIdentifier [("state", JString "queued")]),
      afterDo (submitRequest (L:=lib) keyed "JPEG-BYTES" "Lawmakers") noJobAnswer).
Proof.
  split.
  - destruct (generateVideoWithRunway_job_identifier (L:=lib) keyed "JPEG-BYTES"
                "Lawmakers" jobIdAnswer 202 [("jobId", JString "job-8")])
      as (_ & Hsecond & _).
    + reflexivity.
    + exists (render (JObject [("jobId", JString "job-8")])).
      split; vm_compute; reflexivity.
    + right. reflexivity.
    + reflexivity.
    + apply Hsecond; reflexivity.
  - destruct (generateVideoWithRunway_job_identifier (L:=lib) keyed "JPEG-BYTES"
                "Lawmakers" noJobAnswer 200 [("state", JString "queued")])
      as (_ & _ & Hnone).
    + reflexivity.
    + exists (render (JObject [("state", JString "queued")])).
      split; vm_compute; reflexivity.
    + left. reflexivity.
    + reflexivity.
    + apply Hnone; reflexivity.
Defined.

Lemma generateVideoWithRunway_rejected_witness :
  generateVideoWithRunway (L:=lib) keyed "JPEG-BYTES" "Lawmakers" errorAnswer =
  (Err (Errorf "API error: %s" [ArgS "invalid image"]),
   afterDo (submitRequest (L:=lib) keyed "JPEG-BYTES" "Lawmakers") errorAnswer)
  /\ exists body,
      generateVideoWithRunway (L:=lib) keyed "JPEG-BYTES" "Lawmakers" rateLimited =
      (Err (Errorf "unexpected status code: %d, body: %s" [ArgD 429; ArgS body]),
       afterDo (submitRequest (L:=lib) keyed "JPEG-BYTES" "Lawmakers") rateLimited).
Proof.
  split.
  - destruct (generateVideoWithRunway_rejected (L:=lib) keyed "JPEG-BYTES"
                "Lawmakers" errorAnswer 200
                [("id", JString "job-9"); ("error", JString "invalid image")])
      as (_ & Herror).
    + reflexivity.
    + exists (render (JObject [("id", JString "job-9");
                               ("error", JString "invalid image")])).
      split; vm_compute; reflexivity.
    + apply Herror; [left|]; reflexivity.
  - destruct (generateVideoWithRunway_rejected (L:=lib) keyed "JPEG-BYTES"
                "Lawmakers" rateLimited 429 [("id", JString "job-9")])
      as (Hstatus & _).
    + reflexivity.
    + exists (render (JObject [("id", JString "job-9")])).
      split; vm_compute; reflexivity.
    + apply Hstatus; discriminate.
Defined.

Lemma Convert_offline_files_witness :
  files (snd (Convert (L:=lib) offline [image1]
                (world (fun _ _ => None) ∅ noFault)))
    !! "output/videos/placeholder_image_summit_1a2b_0f2a9c1e.mp4" =
  Some placeholderMessage.
Proof.
  apply (Convert_offline_files (L:=lib) offline [image1]
           (world (fun _ _ => None) ∅ noFault) eq_refl (fun _ => eq_refl)
           {| Video_Path := "output/videos/placeholder_image_summit_1a2b_0f2a9c1e.mp4";
              Video_ImageID := "scene_summit";
              Video_Length := 10 |}).
  vm_compute. apply list_elem_of_singleton. reflexivity.
Defined.

Lemma sanitizeFilename_ascii_witness :
  sanitizeFilename (T:=text) "Global Climate Summit: Day 2?" =
    "global_climate_summit__day_2_"
  /\ Text.hasByte ":" (sanitizeFilename (T:=text) "Global Climate Summit: Day 2?")
     = false.
Proof.
  destruct (sanitizeFilename_ascii (T:=text) "Global Climate Summit: Day 2?")
    as (Hbytes & _ & Hclean).
  - intros s _. reflexivity.
  - reflexivity.
  - split; [rewrite Hbytes; reflexivity | apply Hclean; reflexivity].
Defined.

Lemma Create_panics_on_short_title_witness :
  fst (Create (L:=lib) (T:=text) pngContent creatorOffline
         [sceneLong; sceneShort] (world (fun _ _ => None) ∅ noFault)) = Panicked.
Proof.
  destruct (Create_panics_on_short_title (L:=lib) (T:=text) pngContent
              creatorOffline [sceneLong; sceneShort]
              (world (fun _ _ => None) ∅ noFault) eq_refl) as ([_ Hpanic] & _).
  apply Hpanic. apply Exists_cons_tl, Exists_cons_hd. vm_compute. lia.
Defined.

Lemma Create_long_titles_witness :
  exists images err,
    fst (Create (L:=lib) (T:=text) pngContent creatorKeyed [sceneLong]
           (world (fun _ _ => None) ∅ noFault)) = Returned (images, err)
    /\ map imageKey images
         `sublist_of` map sceneKey [sceneLong]
    /\ (err = Some NoImagesCreated <->
        HuggingFaceAPIKey (imagecreation.config creatorKeyed) <> ""
        /\ images = [])
    /\ (err <> Some NoImagesCreated -> err = None).
Proof.
  apply (Create_long_titles (L:=lib) (T:=text) pngContent creatorKeyed
           [sceneLong] (world (fun _ _ => None) ∅ noFault)).
  constructor; [vm_compute; lia | constructor].
Defined.

Lemma generateImageWithHuggingFace_json_answer_witness :
  fst (generateImageWithHuggingFace (L:=lib) jsonContent
         creatorKeyed sceneLong modelLoading) =
  Err (Errorf "API error: %s" [ArgS "Model is loading"]).
Proof.
  destruct (generateImageWithHuggingFace_json_answer (L:=lib) jsonContent
              creatorKeyed sceneLong modelLoading eq_refl) as (_ & Herror).
  apply (Herror [("error", JString "Model is loading")]).
  - reflexivity.
  - exists (render (JObject [("error", JString "Model is loading")])).
    split; vm_compute; reflexivity.
  - reflexivity.
Defined.

Lemma Generate_falls_back_to_mock_scenes_witness :
  exists r,
    fst (Generate (L:=lib) (T:=text) found headlines generatorKeyed modelAnswers)
      = Returned r
    /\ (forall e,
           r = Err e ->
           e ∈ [DirectoryNotFound; DirectoryUnreadable; NoImageFiles]
           /\ snd (Generate (L:=lib) (T:=text) found headlines generatorKeyed
                     modelAnswers) = modelAnswers)
    /\ (forall scenes,
           r = Ok scenes ->
           (0 < MaxScenes (generator_config generatorKeyed))%Z -> scenes <> []).
Proof.
  apply (Generate_falls_back_to_mock_scenes (L:=lib) (T:=text) found headlines
           generatorKeyed modelAnswers).
  cbn. lia.
Defined.

Lemma Generate_offline_witness :
  exists scenes,
    fst (Generate (L:=lib) (T:=text) found headlines generator headlinesOffline)
      = Returned (Ok scenes)
    /\ Forall (fun scene => scene ∈ mockScenes) scenes
    /\ Forall (fun scene => Scene_ID scene = "" /\ Scene_SourceTitle scene = "")
              scenes.
Proof.
  apply (Generate_offline (L:=lib) (T:=text) found headlines generator
           headlinesOffline
           [ {| Name := "bbc headline-1.png"; IsDir := false |};
             {| Name := "notes.txt"; IsDir := false |};
             {| Name := "archive.png"; IsDir := true |} ]).
  - reflexivity.
  - reflexivity.
  - reflexivity.
  - vm_compute. discriminate.
  - cbn. lia.
Defined.

Lemma Generate_scenes_follow_files_witness :
  getMockScenes generatorKeyed = Returned [floodScene]
  \/ exists paths,
      paths `sublist_of`
        imageFilesOf (L:=lib) (T:=text)
          [ {| Name := "bbc headline-1.png"; IsDir := false |};
            {| Name := "notes.txt"; IsDir := false |};
            {| Name := "archive.png"; IsDir := true |} ]
      /\ Forall2 (fun imagePath scene =>
                    Scene_SourceTitle scene = filepath_Base (GoLib:=lib) imagePath
                    /\ Scene_ID scene =
                       generateSceneID (filepath_Base (GoLib:=lib) imagePath))
                 paths [floodScene].
Proof.
  apply (Generate_scenes_follow_files (L:=lib) (T:=text) found headlines
           generatorKeyed modelAnswers).
  - discriminate.
  - reflexivity.
  - vm_compute. reflexivity.
Defined.

Lemma getImagesFromDirectory_scene_id_witness :
  Image_SceneID
    {| Image_Path := "output/images/scene_7.PNG"; Image_SceneID := "7.PNG";
       Image_Description := "" |} =
  Text.TrimPrefix
    (if String.eqb (Filepath.Ext (Name capitalEntry))
                   (strings_ToLower (GoText:=text) (Filepath.Ext (Name capitalEntry)))
     then withoutExt (Name capitalEntry)
     else Name capitalEntry)
    "scene_".
Proof.
  apply (getImagesFromDirectory_scene_id (L:=lib) (T:=text)
           "output/images" capitalEntry).
  vm_compute. reflexivity.
Defined.

Lemma Create_after_offline_Generate_witness :
  exists images err,
    fst (Create (L:=lib) (T:=text) pngContent creatorOffline
           (take 1 mockScenes) headlinesOffline) = Returned (images, err)
    /\ Forall (fun image => Image_SceneID image = "") images.
Proof.
  apply (Create_after_offline_Generate (L:=lib) (T:=text) found headlines
           pngContent (fun s _ => eq_refl) generator creatorOffline
           headlinesOffline headlinesOffline (take 1 mockScenes)).
  - reflexivity.
  - vm_compute. reflexivity.
Defined.

End Examples2.
